(** * Scan persistence layer of the HTTP Observatory: the two storage adapters

    A shallow embedding of [src/database/adapter.js] (the adapter factory),
    of [src/database/adapters/postgresql.js] (the relational adapter) and of
    [src/database/adapters/neo4j.js] (the graph adapter), and the properties
    of the scan life cycle established on it.

    The adapters are thin layers over SQL and Cypher statements; every
    statement is modelled by what it reads from and writes to the store.
    A relational store is the three tables with their id sequences, a graph
    store is the three node labels with the two relationship types.  Clock
    readings ([NOW()], [Date.now()]) are arguments of the operation that
    takes them; [randomUuid()] is a parameter of the graph adapter. *)

From Stdlib Require Import ZArith List String Ascii Bool Lia Sorted Permutation.
From Stdlib Require Import DecimalString.
Import ListNotations.

Open Scope Z_scope.

(** ** Values shared by the two adapters *)

(** [ScanState], the same table in adapter.js and in both adapter classes. *)
Module ScanState.
Definition ABORTED : string := "ABORTED".
Definition FAILED : string := "FAILED".
Definition FINISHED : string := "FINISHED".
Definition PENDING : string := "PENDING".
Definition STARTING : string := "STARTING".
Definition RUNNING : string := "RUNNING".
End ScanState.

(** constants.js *)
Definition ALGORITHM_VERSION : Z := 4.

(** The states the specification calls terminal. *)
Definition terminal (state : string) : bool :=
  String.eqb state ScanState.FINISHED
  || String.eqb state ScanState.FAILED
  || String.eqb state ScanState.ABORTED.

(** What a rejected promise carries.  [Error msg] is a [throw new Error(msg)]
    of the adapter itself, [TypeError] the property access on [undefined]
    ([records[0].get(...)] on an empty result), [ForeignKeyViolation] the
    relational engine refusing a row whose parent row does not exist. *)
Inductive Thrown : Type :=
| Error (message : string)
| TypeError
| ForeignKeyViolation (constraint : string).

(** An awaited call either throws or resolves. *)
Definition Promise (A : Type) : Type := (Thrown + A)%type.

Definition resolved {A} (a : A) : Promise A := inr a.
Definition rejected {A} (e : Thrown) : Promise A := inl e.

Definition andThen {A B} (p : Promise A) (k : A -> Promise B) : Promise B :=
  match p with
  | inl e => inl e
  | inr a => k a
  end.

Notation "'await' x <- p ;; k" := (andThen p (fun x => k))
  (at level 61, x pattern, p at next level, right associativity).

(** JavaScript truthiness of a [string | null] argument: [null] and the
    empty string are falsy. *)
Definition truthy (s : option string) : bool :=
  match s with
  | Some v => negb (String.eqb v EmptyString)
  | None => false
  end.

(** JavaScript truthiness of a [number | null] property. *)
Definition truthyNumber (n : option Z) : bool :=
  match n with
  | Some v => negb (v =? 0)
  | None => false
  end.

(** [IS DISTINCT FROM]: inequality that treats NULL as a comparable value. *)
Definition isDistinctFrom (a b : option Z) : bool :=
  match a, b with
  | Some x, Some y => negb (x =? y)
  | None, None => false
  | _, _ => true
  end.

(** [ORDER BY]: a stable sort of the rows in store order.  An engine may
    return rows of equal key in any order; the properties of the queries
    are those that every such order has (membership, sortedness, the
    extremal key), or they are stated for rows with pairwise distinct
    keys, which have one sorted order. *)
Section OrderBy.
Context {A : Type} (le : A -> A -> bool).

Fixpoint insertOrdered (x : A) (l : list A) : list A :=
  match l with
  | [] => [x]
  | y :: l' => if le x y then x :: l else y :: insertOrdered x l'
  end.

Fixpoint orderBy (l : list A) : list A :=
  match l with
  | [] => []
  | x :: l' => insertOrdered x (orderBy l')
  end.
End OrderBy.

(** Ascending order on a nullable column, NULLs last (the SQL default). *)
Definition ascNullsLast (a b : option Z) : bool :=
  match a, b with
  | Some x, Some y => x <=? y
  | Some _, None => true
  | None, Some _ => false
  | None, None => true
  end.

(** types.js is not among the sources; the fields are the ones the adapters
    read from a [ScanResult]. *)
Module Types.
(** One entry of [scanResult.tests].  [rest] stands for the properties
    left once expectation, pass, result, scoreModifier and
    scoreDescription are deleted, as [JSON.stringify] renders them. *)
Record Test : Type := {
  expectation : string;
  pass : bool;
  result : string;
  scoreModifier : Z;
  scoreDescription : string;
  rest : string
}.

(** [scanResult.scan]; score, grade and error are nullable, and
    [responseHeaders] is the headers object, given by its JSON text. *)
Record Scan : Type := {
  testsFailed : Z;
  testsPassed : Z;
  grade : option string;
  score : option Z;
  responseHeaders : option string;
  statusCode : option Z;
  algorithmVersion : Z;
  testsQuantity : Z;
  error : option string
}.

(** [tests] is [Object.entries(scanResult.tests)]. *)
Record ScanResult : Type := {
  scan : Scan;
  tests : list (string * Test)
}.
End Types.

(** An entry of the host history, the same shape on both backends. *)
Record History (Id : Type) : Type := {
  history_id : Id;
  history_grade : option string;
  history_score : option Z;
  history_end_time : Z;
  history_end_time_unix_timestamp : Z
}.
Arguments history_id {Id} _.
Arguments history_grade {Id} _.
Arguments history_score {Id} _.
Arguments history_end_time {Id} _.
Arguments history_end_time_unix_timestamp {Id} _.

(** ** adapter.js: the factory *)

Module Adapter.
(** [config.database.type]; the property may be missing. *)
Record Config : Type := { database_type : option string }.

Inductive DatabaseAdapter : Type :=
| Neo4jAdapter (config : Config)
| PostgreSQLAdapter (config : Config).

Definition createDatabaseAdapter (config : Config) : Promise DatabaseAdapter :=
  match database_type config with
  | Some t =>
      if String.eqb t "neo4j" then resolved (Neo4jAdapter config)
      else (* Default to PostgreSQL *) resolved (PostgreSQLAdapter config)
  | None => resolved (PostgreSQLAdapter config)
  end.
End Adapter.

(** ** adapters/postgresql.js *)

Module PostgreSQLAdapter.

Record SiteRow : Type := {
  sites_id : Z;
  sites_domain : string;
  sites_creation_time : Z
}.

Record ScanRow : Type := {
  id : Z;
  site_id : Z;
  state : string;
  start_time : Z;
  end_time : option Z;
  tests_failed : Z;
  tests_passed : Z;
  tests_quantity : Z;
  grade : option string;
  score : option Z;
  error : option string;
  response_headers : option string;
  status_code : option Z;
  algorithm_version : Z
}.

Record TestRow : Type := {
  tests_id : Z;
  tests_site_id : Z;
  tests_scan_id : Z;
  tests_name : string;
  tests_expectation : string;
  tests_result : string;
  tests_pass : bool;
  tests_output : string;
  tests_score_modifier : Z
}.

(** The tables behind the pool, with the sequences of their serial keys. *)
Record Db : Type := {
  sites : list SiteRow;
  scans : list ScanRow;
  tests : list TestRow;
  sites_id_seq : Z;
  scans_id_seq : Z;
  tests_id_seq : Z
}.

Definition siteExists (db : Db) (siteId : Z) : bool :=
  existsb (fun s => sites_id s =? siteId) (sites db).

Definition scanExists (db : Db) (scanId : Z) : bool :=
  existsb (fun s => id s =? scanId) (scans db).

(** Modelled from the spec: the table declarations (the migration scripts
    are not among the sources).  [scans.site_id], [tests.site_id] and
    [tests.scan_id] are foreign keys, as docs/NEO4J_SCHEMA_VISUAL.md
    lists them; [tests_failed] and [tests_passed] default to zero, every
    other column [insertScan] leaves out defaults to NULL. *)
Definition newScanRow (scanId siteId : Z) (st : string) (now quantity version : Z)
  : ScanRow :=
  {| id := scanId; site_id := siteId; state := st; start_time := now;
     end_time := None; tests_failed := 0; tests_passed := 0;
     tests_quantity := quantity; grade := None; score := None;
     error := None; response_headers := None; status_code := None;
     algorithm_version := version |}.

(** [INSERT INTO scans (site_id, state, start_time, tests_quantity,
    algorithm_version) VALUES ($1, $2, NOW(), 0, $3) RETURNING *].  The
    adapter has no check of its own: a [siteId] that references no row of
    [sites] makes the engine refuse the row, and the query rejects. *)
Definition insertScan (db : Db) (siteId now : Z) : Promise (Db * option ScanRow) :=
  if siteExists db siteId then
    let row := newScanRow (scans_id_seq db) siteId ScanState.RUNNING now 0
                          ALGORITHM_VERSION in
    resolved
      ({| sites := sites db; scans := scans db ++ [row]; tests := tests db;
          sites_id_seq := sites_id_seq db;
          scans_id_seq := scans_id_seq db + 1;
          tests_id_seq := tests_id_seq db |},
       hd_error [row])
  else rejected (ForeignKeyViolation "scans_site_id_fkey").

(** The value tuples built from [Object.entries(scanResult.tests)]. *)
Definition testValues (siteId scanId : Z) (scanResult : Types.ScanResult)
  : list (Z -> TestRow) :=
  map (fun '(name, t) => fun testId =>
         {| tests_id := testId; tests_site_id := siteId;
            tests_scan_id := scanId; tests_name := name;
            tests_expectation := Types.expectation t;
            tests_result := Types.result t;
            tests_pass := Types.pass t;
            tests_output := Types.rest t;
            tests_score_modifier := Types.scoreModifier t |})
      (Types.tests scanResult).

(** The rows of one multi-row INSERT, numbered from the sequence. *)
Fixpoint numberRows (next : Z) (values : list (Z -> TestRow)) : list TestRow :=
  match values with
  | [] => []
  | v :: values' => v next :: numberRows (next + 1) values'
  end.

(** [INSERT INTO tests (...) VALUES %L], one statement for all tuples. *)
Definition insertTests (db : Db) (siteId scanId : Z) (values : list (Z -> TestRow))
  : Promise Db :=
  if negb (siteExists db siteId) then
    rejected (ForeignKeyViolation "tests_site_id_fkey")
  else if negb (scanExists db scanId) then
    rejected (ForeignKeyViolation "tests_scan_id_fkey")
  else
    resolved
      {| sites := sites db; scans := scans db;
         tests := tests db ++ numberRows (tests_id_seq db) values;
         sites_id_seq := sites_id_seq db;
         scans_id_seq := scans_id_seq db;
         tests_id_seq := tests_id_seq db + Z.of_nat (List.length values) |}.

(** [UPDATE scans SET ... WHERE id = $n RETURNING *] with the assignment
    [set]: the updated table and the returned rows. *)
Definition updateScans (db : Db) (scanId : Z) (set : ScanRow -> ScanRow)
  : Db * list ScanRow :=
  ({| sites := sites db;
      scans := map (fun r => if id r =? scanId then set r else r) (scans db);
      tests := tests db;
      sites_id_seq := sites_id_seq db;
      scans_id_seq := scans_id_seq db;
      tests_id_seq := tests_id_seq db |},
   map set (filter (fun r => id r =? scanId) (scans db))).

(** The SET list of the terminal update of [insertTestResults]. *)
Definition setTerminal (scan : Types.Scan) (now : Z) (r : ScanRow) : ScanRow :=
  {| id := id r; site_id := site_id r;
     state := match Types.score scan with
              | Some _ => ScanState.FINISHED
              | None => ScanState.FAILED
              end;
     start_time := start_time r;
     end_time := Some now;
     tests_failed := Types.testsFailed scan;
     tests_passed := Types.testsPassed scan;
     tests_quantity := Types.testsQuantity scan;
     grade := Types.grade scan;
     score := Types.score scan;
     error := Types.error scan;
     response_headers := Types.responseHeaders scan;
     status_code := Types.statusCode scan;
     algorithm_version := Types.algorithmVersion scan |}.

Definition insertTestResults (db : Db) (siteId scanId : Z)
    (scanResult : Types.ScanResult) (now : Z) : Promise (Db * option ScanRow) :=
  let values := testValues siteId scanId scanResult in
  await db1 <- (if (0 <? List.length values)%nat
                then insertTests db siteId scanId values
                else resolved db) ;;
  let '(db2, rows) := updateScans db1 scanId (setTerminal (Types.scan scanResult) now) in
  resolved (db2, hd_error rows).

(** The stores a reader can find while [insertTestResults] runs: the one
    it starts from and the one left by each statement that completed.
    The two statements go to the pool one after the other, outside any
    transaction, so a crash leaves one of these stores behind. *)
Definition insertTestResults_commits (db : Db) (siteId scanId : Z)
    (scanResult : Types.ScanResult) (now : Z) : list Db :=
  let values := testValues siteId scanId scanResult in
  let first := if (0 <? List.length values)%nat
               then insertTests db siteId scanId values
               else resolved db in
  db ::
  match first with
  | inl _ => []
  | inr db1 =>
      (if (0 <? List.length values)%nat then [db1] else [])
      ++ [fst (updateScans db1 scanId (setTerminal (Types.scan scanResult) now))]
  end.

Definition selectSite (db : Db) (siteKey : string) : list SiteRow :=
  firstn 1
    (orderBy (fun a b => sites_creation_time b <=? sites_creation_time a)
       (filter (fun s => String.eqb (sites_domain s) siteKey) (sites db))).

Definition ensureSite (db : Db) (siteKey : string) (now : Z) : Promise (Db * Z) :=
  match selectSite db siteKey with
  | row :: _ => resolved (db, sites_id row)
  | [] =>
      let row := {| sites_id := sites_id_seq db; sites_domain := siteKey;
                    sites_creation_time := now |} in
      resolved
        ({| sites := sites db ++ [row]; scans := scans db; tests := tests db;
            sites_id_seq := sites_id_seq db + 1;
            scans_id_seq := scans_id_seq db;
            tests_id_seq := tests_id_seq db |},
         sites_id row)
  end.

(** [LAG(score) OVER (ORDER BY end_time)]: each row with the score of the
    row before it in the window order, NULL for the first row. *)
Fixpoint lagScore (prev : option Z) (rows : list ScanRow)
  : list (ScanRow * option Z) :=
  match rows with
  | [] => []
  | r :: rows' => (r, prev) :: lagScore (score r) rows'
  end.

(** [round(extract(epoch from start_time))], timestamps in milliseconds:
    the nearest second, a half rounded away from zero. *)
Definition epochSeconds (t : Z) : Z :=
  if 0 <=? t then (2 * t + 1000) / 2000 else - ((2 * - t + 1000) / 2000).

(** The columns the outer SELECT returns for a row of the subquery. *)
Definition historyRow (r : ScanRow) : History Z :=
  {| history_id := id r; history_grade := grade r;
     history_score := score r; history_end_time := start_time r;
     history_end_time_unix_timestamp := epochSeconds (start_time r) |}.

(** The window orders by the column [end_time] of [scans] (a window
    clause never sees the output name [start_time as end_time]); the
    outer [ORDER BY end_time] orders by the output column, which is
    [start_time]. *)
Definition selectScanHostHistory (db : Db) (siteId : Z) : list (History Z) :=
  let finished :=
    filter (fun r => (site_id r =? siteId)
                     && String.eqb (state r) ScanState.FINISHED) (scans db) in
  let sq := lagScore None
              (orderBy (fun a b => ascNullsLast (end_time a) (end_time b)) finished) in
  let changed := filter (fun '(r, prev_score) => isDistinctFrom (score r) prev_score) sq in
  map (fun '(r, _) => historyRow r)
      (orderBy (fun a b => start_time (fst a) <=? start_time (fst b)) changed).

Definition selectScan (db : Db) (scanId : Z) : option ScanRow :=
  hd_error (filter (fun r => id r =? scanId) (scans db)).

Definition selectScanById (db : Db) (scanId : Z) : option ScanRow :=
  hd_error (firstn 1
    (filter (fun r => (id r =? scanId)
                      && String.eqb (state r) ScanState.FINISHED) (scans db))).

(** [SELECT * FROM tests WHERE scan_id = $1]: the query has no ORDER BY;
    the rows come in store order here, and the properties of the query
    compare them as a collection. *)
Definition selectTestResults (db : Db) (scanId : Z) : list TestRow :=
  filter (fun t => tests_scan_id t =? scanId) (tests db).

Definition setStateAndError (st : string) (now : Z) (err : string) (r : ScanRow)
  : ScanRow :=
  {| id := id r; site_id := site_id r; state := st;
     start_time := start_time r; end_time := Some now;
     tests_failed := tests_failed r; tests_passed := tests_passed r;
     tests_quantity := tests_quantity r; grade := grade r; score := score r;
     error := Some err; response_headers := response_headers r;
     status_code := status_code r; algorithm_version := algorithm_version r |}.

Definition setState (st : string) (r : ScanRow) : ScanRow :=
  {| id := id r; site_id := site_id r; state := st;
     start_time := start_time r; end_time := end_time r;
     tests_failed := tests_failed r; tests_passed := tests_passed r;
     tests_quantity := tests_quantity r; grade := grade r; score := score r;
     error := error r; response_headers := response_headers r;
     status_code := status_code r; algorithm_version := algorithm_version r |}.

Definition updateScanState (db : Db) (scanId : Z) (st : string)
    (err : option string) (now : Z) : Promise (Db * option ScanRow) :=
  if truthy err then
    let '(db', rows) :=
      updateScans db scanId
        (setStateAndError st now (match err with Some e => e | None => EmptyString end)) in
    resolved (db', hd_error rows)
  else
    let '(db', rows) := updateScans db scanId (setState st) in
    resolved (db', hd_error rows).

(** [start_time >= NOW() - INTERVAL 'n seconds'], timestamps in
    milliseconds and [n] a whole number of seconds. *)
Definition notOlderThan (now seconds start : Z) : bool :=
  now - seconds * 1000 <=? start.

(** [cooldown] is [CONFIG.api.cooldown], the default of [recentInSeconds]
    (config.js is not among the sources). *)
Definition selectScanRecentScan (cooldown : Z) (db : Db) (siteId : Z)
    (recentInSeconds : option Z) (now : Z) : option ScanRow :=
  let seconds := match recentInSeconds with Some n => n | None => cooldown end in
  hd_error (firstn 1
    (orderBy (fun a b => start_time b <=? start_time a)
       (filter (fun r => (site_id r =? siteId)
                         && notOlderThan now seconds (start_time r)
                         && String.eqb (state r) ScanState.FINISHED) (scans db)))).

(** [scans JOIN sites ON scans.site_id = sites.id] *)
Definition joinSites (db : Db) : list (ScanRow * SiteRow) :=
  flat_map (fun r =>
    map (fun s => (r, s)) (filter (fun s => site_id r =? sites_id s) (sites db)))
    (scans db).

(** [cacheTimeForGet] is [CONFIG.api.cacheTimeForGet], the default of
    [maxAge]. *)
Definition selectScanLatestScanByHost (cacheTimeForGet : Z) (db : Db) (host : string)
    (maxAge : option Z) (now : Z) : option ScanRow :=
  let seconds := match maxAge with Some n => n | None => cacheTimeForGet end in
  hd_error (firstn 1
    (orderBy (fun a b => start_time b <=? start_time a)
       (map fst
          (filter (fun '(r, s) => String.eqb (sites_domain s) host
                                  && notOlderThan now seconds (start_time r)
                                  && String.eqb (state r) ScanState.FINISHED)
             (joinSites db))))).

(** [array_position(array[...], grade)]: the position of the first
    element equal to [grade], counted from one, NULL when there is none. *)
Fixpoint array_position (array : list string) (grade : string) : option Z :=
  match array with
  | [] => None
  | g :: array' =>
      if String.eqb g grade then Some 1
      else option_map (fun k => k + 1) (array_position array' grade)
  end.

Definition gradeRanking : list string :=
  ["A+"; "A"; "A-"; "B+"; "B"; "B-"; "C+"; "C"; "C-"; "D+"; "D"; "D-"; "F"]%string.

(** [SELECT grade, count FROM grade_distribution ORDER BY
    array_position(...) asc], over the rows of the materialized view (its
    declaration is in the migration scripts, not among the sources). *)
Definition selectGradeDistribution (grade_distribution : list (string * Z))
  : list (string * Z) :=
  orderBy (fun a b => ascNullsLast (array_position gradeRanking (fst a))
                                   (array_position gradeRanking (fst b)))
    grade_distribution.

End PostgreSQLAdapter.


(** ** adapters/neo4j.js *)

Module Neo4jAdapter.

(** The property maps of the three node labels.  A property that a node
    does not carry reads as null; setting a property to null removes it. *)
Module Node.
Record Site : Type := {
  site_id : string;
  domain : string;
  creationTime : Z
}.

Record Scan : Type := {
  id : string;
  siteId : string;
  state : string;
  startTime : Z;
  endTime : option Z;
  testsFailed : Z;
  testsPassed : Z;
  testsQuantity : Z;
  grade : option string;
  score : option Z;
  responseHeaders : option string;
  statusCode : option Z;
  error : option string;
  algorithmVersion : Z
}.

Record TestResult : Type := {
  test_id : string;
  scanId : string;
  name : string;
  expectation : string;
  result : string;
  pass : bool;
  scoreModifier : Z;
  output : string
}.
End Node.

(** The graph behind the session.  A node is known by its position under
    its label (nodes are never deleted); [HAS_SCAN] holds (site, scan)
    pairs and [HAS_TEST] holds (scan, test) pairs of positions.  [drawn]
    counts the calls of [randomUuid()] made so far. *)
Record Graph : Type := {
  Site : list Node.Site;
  Scan : list Node.Scan;
  TestResult : list Node.TestResult;
  HAS_SCAN : list (nat * nat);
  HAS_TEST : list (nat * nat);
  drawn : nat
}.

(** The scan object every selector returns. *)
Record ScanRow : Type := {
  id : string;
  site_id : string;
  state : string;
  start_time : Z;
  end_time : option Z;
  tests_failed : Z;
  tests_passed : Z;
  tests_quantity : Z;
  grade : option string;
  score : option Z;
  error : option string;
  algorithm_version : Z
}.

(** The test object [selectTestResults] returns. *)
Record TestRow : Type := {
  tests_id : string;
  tests_scan_id : string;
  tests_name : string;
  tests_expectation : string;
  tests_result : string;
  tests_pass : bool;
  tests_output : string;
  tests_score_modifier : Z
}.

(** The entries of [testQueries]. *)
Record TestData : Type := {
  td_name : string;
  td_expectation : string;
  td_result : string;
  td_pass : bool;
  td_scoreModifier : Z;
  td_output : string
}.

(** [MATCH (n:Label {...})]: the positions of the nodes that match, in
    store order. *)
Fixpoint matchFrom {A : Type} (p : A -> bool) (i : nat) (l : list A) : list nat :=
  match l with
  | [] => []
  | x :: l' => (if p x then [i] else []) ++ matchFrom p (S i) l'
  end.

(** [(a)-[:R]->(b)] from the matched positions [from]: the end nodes. *)
Definition expand {A : Type} (from : list nat) (rel : list (nat * nat))
    (nodes : list A) : list A :=
  flat_map (fun i =>
    flat_map (fun '(a, b) =>
      if Nat.eqb a i
      then match nth_error nodes b with Some n => [n] | None => [] end
      else []) rel) from.

(** Cypher [range(a, b)], both ends included. *)
Definition range (a b : Z) : list Z :=
  if b <? a then []
  else map (fun k => a + Z.of_nat k) (seq 0 (Z.to_nat (b - a + 1))).

(** [siteKey.replace(/[^a-zA-Z0-9]/g, "_")], a string taken as its
    sequence of ASCII characters. *)
Definition alphanumeric (c : ascii) : bool :=
  let n := nat_of_ascii c in
  ((48 <=? n) && (n <=? 57) || (65 <=? n) && (n <=? 90)
   || (97 <=? n) && (n <=? 122))%nat.

Fixpoint replaceNonAlphanumeric (s : string) : string :=
  match s with
  | EmptyString => EmptyString
  | String c s' =>
      String (if alphanumeric c then c else "_"%char) (replaceNonAlphanumeric s')
  end.

(** The decimal rendering of a number in a string concatenation. *)
Definition numberToString (n : Z) : string :=
  NilZero.string_of_int (Z.to_int n).

(** [JSON.stringify] of a value that is null or an object given by its
    JSON text. *)
Definition JSON_stringify (v : option string) : string :=
  match v with
  | Some text => text
  | None => "null"
  end.

Definition _mapScanRow (scan : Node.Scan) : ScanRow :=
  {| id := Node.id scan;
     site_id := Node.siteId scan;
     state := Node.state scan;
     start_time := Node.startTime scan;
     end_time := if truthyNumber (Node.endTime scan) then Node.endTime scan else None;
     tests_failed := Node.testsFailed scan;
     tests_passed := Node.testsPassed scan;
     tests_quantity := Node.testsQuantity scan;
     grade := Node.grade scan;
     score := Node.score scan;
     error := Node.error scan;
     algorithm_version := Node.algorithmVersion scan |}.

(** [MATCH (scan:Scan {id: $scanId}) SET ... RETURN scan] with the
    assignment [set]: the updated graph and the returned nodes. *)
Definition setScans (g : Graph) (scanId : string) (set : Node.Scan -> Node.Scan)
  : Graph * list Node.Scan :=
  ({| Site := Site g;
      Scan := map (fun n => if String.eqb (Node.id n) scanId then set n else n) (Scan g);
      TestResult := TestResult g;
      HAS_SCAN := HAS_SCAN g;
      HAS_TEST := HAS_TEST g;
      drawn := drawn g |},
   map set (filter (fun n => String.eqb (Node.id n) scanId) (Scan g))).

Section Session.

(** [randomUuid()] of the engine: the value of its n-th call. *)
Variable randomUuid : nat -> string.

(** The two CREATE clauses of [insertScan] for one matched site. *)
Definition createScan (siteId : string) (startTime : Z)
    (acc : Graph * list Node.Scan) (site : nat) : Graph * list Node.Scan :=
  let '(g, records) := acc in
  let scan :=
    {| Node.id := randomUuid (drawn g); Node.siteId := siteId;
       Node.state := ScanState.RUNNING; Node.startTime := startTime;
       Node.endTime := None; Node.testsFailed := 0; Node.testsPassed := 0;
       Node.testsQuantity := 0; Node.grade := None; Node.score := None;
       Node.responseHeaders := None; Node.statusCode := None;
       Node.error := None; Node.algorithmVersion := ALGORITHM_VERSION |} in
  ({| Site := Site g; Scan := Scan g ++ [scan]; TestResult := TestResult g;
      HAS_SCAN := HAS_SCAN g ++ [(site, List.length (Scan g))];
      HAS_TEST := HAS_TEST g; drawn := S (drawn g) |},
   records ++ [scan]).

Definition insertScan (g : Graph) (siteId : string) (timestamp : Z)
  : Promise (Graph * ScanRow) :=
  let '(g', records) :=
    fold_left (createScan siteId timestamp)
      (matchFrom (fun s => String.eqb (Node.site_id s) siteId) 0 (Site g))
      (g, []) in
  match records with
  | [] => rejected (Error (String.append "Site not found: " siteId))
  | scan :: _ =>
      resolved (g',
        {| id := Node.id scan; site_id := Node.siteId scan;
           state := Node.state scan; start_time := Node.startTime scan;
           end_time := None; tests_failed := Node.testsFailed scan;
           tests_passed := Node.testsPassed scan;
           tests_quantity := Node.testsQuantity scan;
           grade := None; score := None; error := None;
           algorithm_version := Node.algorithmVersion scan |})
  end.

Definition testQueries (scanResult : Types.ScanResult) : list TestData :=
  map (fun '(name, test) =>
         {| td_name := name; td_expectation := Types.expectation test;
            td_result := Types.result test; td_pass := Types.pass test;
            td_scoreModifier := Types.scoreModifier test;
            td_output := Types.rest test |})
      (Types.tests scanResult).

(** The two CREATE clauses of the test query for one matched scan. *)
Definition createTestResult (scanId : string) (testData : TestData)
    (g : Graph) (scan : nat) : Graph :=
  let test :=
    {| Node.test_id := randomUuid (drawn g); Node.scanId := scanId;
       Node.name := td_name testData;
       Node.expectation := td_expectation testData;
       Node.result := td_result testData; Node.pass := td_pass testData;
       Node.scoreModifier := td_scoreModifier testData;
       Node.output := td_output testData |} in
  {| Site := Site g; Scan := Scan g; TestResult := TestResult g ++ [test];
     HAS_SCAN := HAS_SCAN g;
     HAS_TEST := HAS_TEST g ++ [(scan, List.length (TestResult g))];
     drawn := S (drawn g) |}.

(** One [session.run] of the loop over [testQueries]. *)
Definition runTestQuery (scanId : string) (g : Graph) (testData : TestData) : Graph :=
  fold_left (createTestResult scanId testData)
    (matchFrom (fun n => String.eqb (Node.id n) scanId) 0 (Scan g)) g.

(** The SET clause that updates the scan record. *)
Definition setTerminal (scan : Types.Scan) (endTime : Z) (n : Node.Scan) : Node.Scan :=
  {| Node.id := Node.id n; Node.siteId := Node.siteId n;
     Node.state := match Types.score scan with
                   | Some _ => ScanState.FINISHED
                   | None => ScanState.FAILED
                   end;
     Node.startTime := Node.startTime n;
     Node.endTime := Some endTime;
     Node.testsFailed := Types.testsFailed scan;
     Node.testsPassed := Types.testsPassed scan;
     Node.testsQuantity := Types.testsQuantity scan;
     Node.grade := Types.grade scan;
     Node.score := Types.score scan;
     Node.responseHeaders := Some (JSON_stringify (Types.responseHeaders scan));
     Node.statusCode := Types.statusCode scan;
     Node.error := Types.error scan;
     Node.algorithmVersion := Node.algorithmVersion n |}.

Definition insertTestResults (g : Graph) (siteId scanId : string)
    (scanResult : Types.ScanResult) (timestamp : Z) : Promise (Graph * ScanRow) :=
  let g1 := fold_left (runTestQuery scanId) (testQueries scanResult) g in
  let '(g2, records) := setScans g1 scanId (setTerminal (Types.scan scanResult) timestamp) in
  match records with
  | [] => rejected TypeError
  | updatedScan :: _ => resolved (g2, _mapScanRow updatedScan)
  end.

(** The graphs left by the test queries run so far, one per query. *)
Fixpoint testCommits (scanId : string) (g : Graph) (queries : list TestData)
  : list Graph :=
  match queries with
  | [] => []
  | q :: queries' =>
      let g1 := runTestQuery scanId g q in g1 :: testCommits scanId g1 queries'
  end.

(** The graphs a reader can find while [insertTestResults] runs: the one
    it starts from and the one left by each [session.run] that completed.
    Every run is a transaction of its own, so a crash leaves one of these
    graphs behind. *)
Definition insertTestResults_commits (g : Graph) (siteId scanId : string)
    (scanResult : Types.ScanResult) (timestamp : Z) : list Graph :=
  let created := testCommits scanId g (testQueries scanResult) in
  g :: created
    ++ [fst (setScans (last created g) scanId
               (setTerminal (Types.scan scanResult) timestamp))].

Definition ensureSite (g : Graph) (siteKey : string) (nowId nowCreation : Z)
  : Promise (Graph * string) :=
  match firstn 1
          (orderBy (fun a b => Node.creationTime b <=? Node.creationTime a)
             (filter (fun s => String.eqb (Node.domain s) siteKey) (Site g))) with
  | existing :: _ => resolved (g, Node.site_id existing)
  | [] =>
      let siteId :=
        String.append (replaceNonAlphanumeric siteKey)
          (String.append "_" (numberToString nowId)) in
      let s := {| Node.site_id := siteId; Node.domain := siteKey;
                  Node.creationTime := nowCreation |} in
      resolved
        ({| Site := Site g ++ [s]; Scan := Scan g; TestResult := TestResult g;
            HAS_SCAN := HAS_SCAN g; HAS_TEST := HAS_TEST g; drawn := drawn g |},
         siteId)
  end.

(** The map the query returns for [curr]. *)
Definition historyMap (curr : Node.Scan) : History string :=
  {| history_id := Node.id curr;
     history_grade := Node.grade curr;
     history_score := Node.score curr;
     history_end_time := Node.startTime curr;
     history_end_time_unix_timestamp := Z.quot (Node.startTime curr) 1000 |}.

(** The rows of [range(0, size(scans)-2)] keep [curr] where the score of
    [prev] differs; an index of that range always has both nodes. *)
Definition selectScanHostHistory (g : Graph) (siteId : string) : list (History string) :=
  let scans :=
    orderBy (fun a b => Node.startTime a <=? Node.startTime b)
      (filter (fun n => String.eqb (Node.state n) ScanState.FINISHED
                        && match Node.score n with Some _ => true | None => false end)
         (expand (matchFrom (fun s => String.eqb (Node.site_id s) siteId) 0 (Site g))
                 (HAS_SCAN g) (Scan g))) in
  let rows :=
    flat_map (fun idx =>
      match nth_error scans (Z.to_nat idx), nth_error scans (Z.to_nat (idx + 1)) with
      | Some prev, Some curr =>
          if isDistinctFrom (Node.score prev) (Node.score curr)
          then [historyMap curr]
          else []
      | _, _ => []
      end) (range 0 (Z.of_nat (List.length scans) - 2)) in
  orderBy (fun a b => history_end_time a <=? history_end_time b) rows.

Definition selectScan (g : Graph) (scanId : string) : option ScanRow :=
  match filter (fun n => String.eqb (Node.id n) scanId) (Scan g) with
  | [] => None
  | scan :: _ => Some (_mapScanRow scan)
  end.

Definition selectScanById (g : Graph) (scanId : string) : option ScanRow :=
  match firstn 1
          (filter (fun n => String.eqb (Node.state n) ScanState.FINISHED)
             (filter (fun n => String.eqb (Node.id n) scanId) (Scan g))) with
  | [] => None
  | scan :: _ => Some (_mapScanRow scan)
  end.

(** [MATCH (scan:Scan {id: $scanId})-[:HAS_TEST]->(test:TestResult) RETURN
    test]: the query has no ORDER BY; the records come in the order of the
    relationships here, and the properties of the query compare them as a
    collection. *)
Definition selectTestResults (g : Graph) (scanId : string) : list TestRow :=
  map (fun test =>
         {| tests_id := Node.test_id test; tests_scan_id := Node.scanId test;
            tests_name := Node.name test;
            tests_expectation := Node.expectation test;
            tests_result := Node.result test; tests_pass := Node.pass test;
            tests_output := Node.output test;
            tests_score_modifier := Node.scoreModifier test |})
      (expand (matchFrom (fun n => String.eqb (Node.id n) scanId) 0 (Scan g))
              (HAS_TEST g) (TestResult g)).

(** [SET scan += $props] with [props = { state, endTime }] and, when
    [error] is truthy, [error] as well: a null [endTime] removes the
    property. *)
Definition setProps (st : string) (err : option string) (now : Z) (n : Node.Scan)
  : Node.Scan :=
  {| Node.id := Node.id n; Node.siteId := Node.siteId n;
     Node.state := st;
     Node.startTime := Node.startTime n;
     Node.endTime := if truthy err then Some now else None;
     Node.testsFailed := Node.testsFailed n;
     Node.testsPassed := Node.testsPassed n;
     Node.testsQuantity := Node.testsQuantity n;
     Node.grade := Node.grade n;
     Node.score := Node.score n;
     Node.responseHeaders := Node.responseHeaders n;
     Node.statusCode := Node.statusCode n;
     Node.error := if truthy err then err else Node.error n;
     Node.algorithmVersion := Node.algorithmVersion n |}.

Definition updateScanState (g : Graph) (scanId : string) (st : string)
    (err : option string) (now : Z) : Promise (Graph * ScanRow) :=
  let '(g', records) := setScans g scanId (setProps st err now) in
  match records with
  | [] => rejected TypeError
  | scan :: _ => resolved (g', _mapScanRow scan)
  end.

(** [cutoffTime = Date.now() - recentInSeconds * 1000], with the default
    of sixty seconds. *)
Definition selectScanRecentScan (g : Graph) (siteId : string)
    (recentInSeconds : option Z) (now : Z) : option ScanRow :=
  let cutoffTime :=
    now - (match recentInSeconds with Some n => n | None => 60 end) * 1000 in
  match firstn 1
          (orderBy (fun a b => Node.startTime b <=? Node.startTime a)
             (filter (fun n => String.eqb (Node.state n) ScanState.FINISHED
                               && (cutoffTime <=? Node.startTime n))
                (expand (matchFrom (fun s => String.eqb (Node.site_id s) siteId) 0 (Site g))
                        (HAS_SCAN g) (Scan g)))) with
  | [] => None
  | scan :: _ => Some (_mapScanRow scan)
  end.

Definition selectScanLatestScanByHost (g : Graph) (host : string)
    (maxAge : option Z) (now : Z) : option ScanRow :=
  let cutoffTime :=
    now - (match maxAge with Some n => n | None => 86400 end) * 1000 in
  match firstn 1
          (orderBy (fun a b => Node.startTime b <=? Node.startTime a)
             (filter (fun n => String.eqb (Node.state n) ScanState.FINISHED
                               && (cutoffTime <=? Node.startTime n))
                (expand (matchFrom (fun s => String.eqb (Node.domain s) host) 0 (Site g))
                        (HAS_SCAN g) (Scan g)))) with
  | [] => None
  | scan :: _ => Some (_mapScanRow scan)
  end.

(** The aggregation [WITH scan.grade as grade, count as count] over all
    rows: one group per grade,
    in the order the grades are first met. *)
Fixpoint countInto (grade : string) (groups : list (string * Z)) : list (string * Z) :=
  match groups with
  | [] => [(grade, 1)]
  | (g, n) :: groups' =>
      if String.eqb g grade then (g, n + 1) :: groups'
      else (g, n) :: countInto grade groups'
  end.

Definition countByGrade (grades : list string) : list (string * Z) :=
  fold_left (fun groups grade => countInto grade groups) grades [].

(** The CASE expression of the ORDER BY; a grade outside the list gives
    null, which an ascending order puts last. *)
Definition gradeCase (grade : string) : option Z :=
  if String.eqb grade "A+" then Some 0
  else if String.eqb grade "A" then Some 1
  else if String.eqb grade "A-" then Some 2
  else if String.eqb grade "B+" then Some 3
  else if String.eqb grade "B" then Some 4
  else if String.eqb grade "B-" then Some 5
  else if String.eqb grade "C+" then Some 6
  else if String.eqb grade "C" then Some 7
  else if String.eqb grade "C-" then Some 8
  else if String.eqb grade "D+" then Some 9
  else if String.eqb grade "D" then Some 10
  else if String.eqb grade "D-" then Some 11
  else if String.eqb grade "F" then Some 12
  else None.

Definition selectGradeDistribution (g : Graph) : list (string * Z) :=
  orderBy (fun a b => ascNullsLast (gradeCase (fst a)) (gradeCase (fst b)))
    (countByGrade
       (flat_map (fun n => match Node.grade n with
                           | Some grade =>
                               if String.eqb (Node.state n) ScanState.FINISHED
                               then [grade] else []
                           | None => []
                           end) (Scan g))).

End Session.

End Neo4jAdapter.


(** ** Stores used as concrete inputs *)

Module Scenario.

Definition test (rest : string) : Types.Test :=
  {| Types.expectation := "hsts-implemented"; Types.pass := true;
     Types.result := "hsts-implemented"; Types.scoreModifier := 0;
     Types.scoreDescription := "ok"; Types.rest := rest |}.

(** A completed scan result with the given score, grade and error. *)
Definition outcome (score : option Z) (grade error : option string)
    (tests : list (string * Types.Test)) : Types.ScanResult :=
  {| Types.scan :=
       {| Types.testsFailed := 0; Types.testsPassed := 2;
          Types.grade := grade; Types.score := score;
          Types.responseHeaders := None; Types.statusCode := Some 200;
          Types.algorithmVersion := ALGORITHM_VERSION;
          Types.testsQuantity := 2; Types.error := error |};
     Types.tests := tests |}.

Definition twoTests : list (string * Types.Test) :=
  [("csp"%string, test "{}"); ("hsts"%string, test "{}")].

(** The n-th identifier of the engine, for the concrete graphs. *)
Definition uuid (n : nat) : string :=
  String.append "scan-" (Neo4jAdapter.numberToString (Z.of_nat n)).

Module Relational.
Import PostgreSQLAdapter.

Definition site : SiteRow :=
  {| sites_id := 1; sites_domain := "example.com"; sites_creation_time := 1000 |}.

Definition running (scanId start : Z) : ScanRow :=
  newScanRow scanId 1 ScanState.RUNNING start 0 ALGORITHM_VERSION.

Definition finished (scanId start stop score : Z) : ScanRow :=
  setTerminal (Types.scan (outcome (Some score) (Some "A"%string) None [])) stop
    (running scanId start).

Definition store (rows : list ScanRow) : Db :=
  {| sites := [site]; scans := rows; tests := [];
     sites_id_seq := 2; scans_id_seq := 1 + Z.of_nat (List.length rows);
     tests_id_seq := 1 |}.
End Relational.

Module Graph.
Import Neo4jAdapter.

Definition site : Node.Site :=
  {| Node.site_id := "example_com_1000"; Node.domain := "example.com";
     Node.creationTime := 1000 |}.

Definition running (n : nat) (start : Z) : Node.Scan :=
  {| Node.id := uuid n; Node.siteId := "example_com_1000";
     Node.state := ScanState.RUNNING; Node.startTime := start;
     Node.endTime := None; Node.testsFailed := 0; Node.testsPassed := 0;
     Node.testsQuantity := 0; Node.grade := None; Node.score := None;
     Node.responseHeaders := None; Node.statusCode := None;
     Node.error := None; Node.algorithmVersion := ALGORITHM_VERSION |}.

Definition finished (n : nat) (start stop score : Z) : Node.Scan :=
  setTerminal (Types.scan (outcome (Some score) (Some "A"%string) None [])) stop
    (running n start).

(** One site that owns every scan of [nodes]. *)
Definition store (nodes : list Node.Scan) : Graph :=
  {| Site := [site]; Scan := nodes; TestResult := [];
     HAS_SCAN := map (fun k => (0%nat, k)) (seq 0 (List.length nodes));
     HAS_TEST := []; drawn := List.length nodes |}.
End Graph.

End Scenario.

(** ** Vocabulary of the properties *)

(** The two backend names of the factory contract. *)
Definition recognizedBackend (name : string) : bool :=
  String.eqb name "postgresql" || String.eqb name "neo4j".

Module PG := PostgreSQLAdapter.
Module N4 := Neo4jAdapter.

(** The identifier and the state of the scan stored at position [i]. *)
Definition PostgreSQL_stateAt (db : PG.Db) (i : nat) : option (Z * string) :=
  option_map (fun r => (PG.id r, PG.state r)) (nth_error (PG.scans db) i).

Definition Neo4j_stateAt (g : N4.Graph) (i : nat) : option (string * string) :=
  option_map (fun n => (N4.Node.id n, N4.Node.state n)) (nth_error (N4.Scan g) i).

(** The state [insertTestResults] writes for a result. *)
Definition terminalStateOf (scanResult : Types.ScanResult) : string :=
  match Types.score (Types.scan scanResult) with
  | Some _ => ScanState.FINISHED
  | None => ScanState.FAILED
  end.





(** Two rows that differ at most in their state. *)
Definition PostgreSQL_sameButState (r r' : PG.ScanRow) : Prop :=
  PG.id r' = PG.id r /\ PG.site_id r' = PG.site_id r
  /\ PG.start_time r' = PG.start_time r /\ PG.end_time r' = PG.end_time r
  /\ PG.tests_failed r' = PG.tests_failed r /\ PG.tests_passed r' = PG.tests_passed r
  /\ PG.tests_quantity r' = PG.tests_quantity r
  /\ PG.grade r' = PG.grade r /\ PG.score r' = PG.score r /\ PG.error r' = PG.error r
  /\ PG.response_headers r' = PG.response_headers r
  /\ PG.status_code r' = PG.status_code r
  /\ PG.algorithm_version r' = PG.algorithm_version r.

(** A stored test row that records the entry [(name, test)] of the tests
    of a result, for the scan [scanId]. *)
Definition PostgreSQL_records (scanId : Z) (entry : string * Types.Test)
    (row : PG.TestRow) : Prop :=
  PG.tests_scan_id row = scanId
  /\ PG.tests_name row = fst entry
  /\ PG.tests_expectation row = Types.expectation (snd entry)
  /\ PG.tests_result row = Types.result (snd entry)
  /\ PG.tests_pass row = Types.pass (snd entry)
  /\ PG.tests_output row = Types.rest (snd entry)
  /\ PG.tests_score_modifier row = Types.scoreModifier (snd entry).

Definition Neo4j_records (scanId : string) (entry : string * Types.Test)
    (row : N4.TestRow) : Prop :=
  N4.tests_scan_id row = scanId
  /\ N4.tests_name row = fst entry
  /\ N4.tests_expectation row = Types.expectation (snd entry)
  /\ N4.tests_result row = Types.result (snd entry)
  /\ N4.tests_pass row = Types.pass (snd entry)
  /\ N4.tests_output row = Types.rest (snd entry)
  /\ N4.tests_score_modifier row = Types.scoreModifier (snd entry).

(** The graph holds a TestResult node for [entry], tied by HAS_TEST to the
    scan at position [scan]. *)
Definition Neo4j_holdsTest (g : N4.Graph) (scan : nat) (scanId : string)
    (entry : string * Types.Test) : Prop :=
  exists b n,
    In (scan, b) (N4.HAS_TEST g)
    /\ nth_error (N4.TestResult g) b = Some n
    /\ N4.Node.scanId n = scanId
    /\ N4.Node.name n = fst entry
    /\ N4.Node.expectation n = Types.expectation (snd entry)
    /\ N4.Node.result n = Types.result (snd entry)
    /\ N4.Node.pass n = Types.pass (snd entry)
    /\ N4.Node.output n = Types.rest (snd entry)
    /\ N4.Node.scoreModifier n = Types.scoreModifier (snd entry).

(** [g'] has the tests of [g] and maybe more. *)
Definition Neo4j_grows (g g' : N4.Graph) : Prop :=
  (exists ts, N4.TestResult g' = N4.TestResult g ++ ts)
  /\ (exists es, N4.HAS_TEST g' = N4.HAS_TEST g ++ es).

(** The change points of a sequence of scans: the first scan of every run
    of consecutive equal scores, [prev] being the score before the
    sequence (null before the earliest scan). *)
Fixpoint firstOfRuns {A : Type} (score : A -> option Z) (prev : option Z)
    (l : list A) : list A :=
  match l with
  | [] => []
  | x :: l' =>
      if isDistinctFrom (score x) prev
      then x :: firstOfRuns score (score x) l'
      else firstOfRuns score prev l'
  end.

(** Rows in order of time, by start and by end. *)
Definition PostgreSQL_chronological (rows : list PG.ScanRow) : Prop :=
  StronglySorted
    (fun a b => PG.start_time a <= PG.start_time b
                /\ ascNullsLast (PG.end_time a) (PG.end_time b) = true) rows.

Definition Neo4j_chronological (nodes : list N4.Node.Scan) : Prop :=
  StronglySorted (fun a b => N4.Node.startTime a <= N4.Node.startTime b) nodes.

(** An optional argument with its default. *)
Definition orDefault (v : option Z) (default : Z) : Z :=
  match v with
  | Some n => n
  | None => default
  end.

(** [n] is a Scan that HAS_SCAN ties to a Site satisfying [p]. *)
Definition Neo4j_hasScan (g : N4.Graph) (p : N4.Node.Site -> bool) (n : N4.Node.Scan)
  : Prop :=
  exists a b s,
    nth_error (N4.Site g) a = Some s /\ p s = true
    /\ In (a, b) (N4.HAS_SCAN g) /\ nth_error (N4.Scan g) b = Some n.

(** [r] is a scan of a site whose domain is [host]. *)
Definition PostgreSQL_scanOfHost (db : PG.Db) (host : string) (r : PG.ScanRow) : Prop :=
  In r (PG.scans db)
  /\ exists s, In s (PG.sites db) /\ PG.site_id r = PG.sites_id s
               /\ PG.sites_domain s = host.

(** Two rows with the same identity and the same results: everything but
    state, end time and error. *)
Definition PostgreSQL_sameResults (r r' : PG.ScanRow) : Prop :=
  PG.id r' = PG.id r /\ PG.site_id r' = PG.site_id r
  /\ PG.start_time r' = PG.start_time r
  /\ PG.tests_failed r' = PG.tests_failed r /\ PG.tests_passed r' = PG.tests_passed r
  /\ PG.tests_quantity r' = PG.tests_quantity r
  /\ PG.grade r' = PG.grade r /\ PG.score r' = PG.score r
  /\ PG.response_headers r' = PG.response_headers r
  /\ PG.status_code r' = PG.status_code r
  /\ PG.algorithm_version r' = PG.algorithm_version r.

Definition Neo4j_sameResults (n n' : N4.Node.Scan) : Prop :=
  N4.Node.id n' = N4.Node.id n /\ N4.Node.siteId n' = N4.Node.siteId n
  /\ N4.Node.startTime n' = N4.Node.startTime n
  /\ N4.Node.testsFailed n' = N4.Node.testsFailed n
  /\ N4.Node.testsPassed n' = N4.Node.testsPassed n
  /\ N4.Node.testsQuantity n' = N4.Node.testsQuantity n
  /\ N4.Node.grade n' = N4.Node.grade n /\ N4.Node.score n' = N4.Node.score n
  /\ N4.Node.responseHeaders n' = N4.Node.responseHeaders n
  /\ N4.Node.statusCode n' = N4.Node.statusCode n
  /\ N4.Node.algorithmVersion n' = N4.Node.algorithmVersion n.

(** Ownership in the graph: every HAS_SCAN relationship goes from a Site
    to a Scan that carries the id of that site, every HAS_TEST relationship
    from a Scan to a TestResult that carries the id of that scan, and every
    Scan and every TestResult is the end of exactly one such relationship. *)
Definition Neo4j_owned (g : N4.Graph) : Prop :=
  (forall a b, In (a, b) (N4.HAS_SCAN g) ->
     exists s n, nth_error (N4.Site g) a = Some s /\ nth_error (N4.Scan g) b = Some n
                 /\ N4.Node.siteId n = N4.Node.site_id s)
  /\ (forall a b, In (a, b) (N4.HAS_TEST g) ->
     exists n t, nth_error (N4.Scan g) a = Some n /\ nth_error (N4.TestResult g) b = Some t
                 /\ N4.Node.scanId t = N4.Node.id n)
  /\ (forall b, (b < List.length (N4.Scan g))%nat -> exists a, In (a, b) (N4.HAS_SCAN g))
  /\ (forall b, (b < List.length (N4.TestResult g))%nat ->
       exists a, In (a, b) (N4.HAS_TEST g))
  /\ NoDup (map snd (N4.HAS_SCAN g))
  /\ NoDup (map snd (N4.HAS_TEST g)).

(** The graph before any write. *)
Definition Neo4j_empty : N4.Graph :=
  {| N4.Site := []; N4.Scan := []; N4.TestResult := [];
     N4.HAS_SCAN := []; N4.HAS_TEST := []; N4.drawn := 0 |}.

(** The graphs the adapter reaches from the empty graph by its writes. *)
Inductive Neo4j_reachable (randomUuid : nat -> string) : N4.Graph -> Prop :=
| reachable_empty : Neo4j_reachable randomUuid Neo4j_empty
| reachable_ensureSite (g g' : N4.Graph) (k : string) (t1 t2 : Z) (siteId : string) :
    Neo4j_reachable randomUuid g ->
    N4.ensureSite g k t1 t2 = resolved (g', siteId) ->
    Neo4j_reachable randomUuid g'
| reachable_insertScan (g g' : N4.Graph) (siteId : string) (now : Z) (row : N4.ScanRow) :
    Neo4j_reachable randomUuid g ->
    N4.insertScan randomUuid g siteId now = resolved (g', row) ->
    Neo4j_reachable randomUuid g'
| reachable_insertTestResults (g g' : N4.Graph) (siteId scanId : string)
    (scanResult : Types.ScanResult) (now : Z) (row : N4.ScanRow) :
    Neo4j_reachable randomUuid g ->
    N4.insertTestResults randomUuid g siteId scanId scanResult now = resolved (g', row) ->
    Neo4j_reachable randomUuid g'
| reachable_updateScanState (g g' : N4.Graph) (scanId st : string)
    (err : option string) (now : Z) (row : N4.ScanRow) :
    Neo4j_reachable randomUuid g ->
    N4.updateScanState g scanId st err now = resolved (g', row) ->
    Neo4j_reachable randomUuid g'.

(** What a stored test keeps of an entry of [scanResult.tests]: name,
    expectation, result, pass, output and score modifier. *)
Definition entryFields (entry : string * Types.Test)
  : string * string * string * bool * string * Z :=
  (fst entry, Types.expectation (snd entry), Types.result (snd entry),
   Types.pass (snd entry), Types.rest (snd entry), Types.scoreModifier (snd entry)).

Definition PostgreSQL_testFields (row : PG.TestRow)
  : string * string * string * bool * string * Z :=
  (PG.tests_name row, PG.tests_expectation row, PG.tests_result row,
   PG.tests_pass row, PG.tests_output row, PG.tests_score_modifier row).

Definition Neo4j_testFields (row : N4.TestRow)
  : string * string * string * bool * string * Z :=
  (N4.tests_name row, N4.tests_expectation row, N4.tests_result row,
   N4.tests_pass row, N4.tests_output row, N4.tests_score_modifier row).

(** The FINISHED scans of the graph whose grade is [grade]. *)
Definition Neo4j_finishedWithGrade (g : N4.Graph) (grade : string) : list N4.Node.Scan :=
  filter (fun n => String.eqb (N4.Node.state n) ScanState.FINISHED
                   && match N4.Node.grade n with
                      | Some x => String.eqb x grade
                      | None => false
                      end) (N4.Scan g).

(** [a] is not ranked after [b] in the list of the thirteen grades, best
    first; a string that is no grade comes after all of them. *)
Definition gradeBefore (a b : string) : Prop :=
  ascNullsLast (PG.array_position PG.gradeRanking a)
               (PG.array_position PG.gradeRanking b) = true.

(** The record [selectTestResults] returns for a TestResult node. *)
Definition Neo4j_testRow (t : N4.Node.TestResult) : N4.TestRow :=
  {| N4.tests_id := N4.Node.test_id t; N4.tests_scan_id := N4.Node.scanId t;
     N4.tests_name := N4.Node.name t;
     N4.tests_expectation := N4.Node.expectation t;
     N4.tests_result := N4.Node.result t; N4.tests_pass := N4.Node.pass t;
     N4.tests_output := N4.Node.output t;
     N4.tests_score_modifier := N4.Node.scoreModifier t |}.

(** Rows in strict order of time, by start and by end, every end time
    set: rows that [ORDER BY] can return in one order only, on either
    column. *)
Definition PostgreSQL_strictlyChronological (rows : list PG.ScanRow) : Prop :=
  StronglySorted
    (fun a b => PG.start_time a < PG.start_time b
                /\ match PG.end_time a, PG.end_time b with
                   | Some ea, Some eb => ea < eb
                   | _, _ => False
                   end) rows.

(** The FINISHED scans of a site, on each backend; on the graph backend
    the ones with a score, which are those the history query matches. *)
Definition PostgreSQL_finishedOf (db : PG.Db) (siteId : Z) : list PG.ScanRow :=
  filter (fun r => (PG.site_id r =? siteId)
                   && String.eqb (PG.state r) ScanState.FINISHED) (PG.scans db).

Definition Neo4j_finishedOf (g : N4.Graph) (siteId : string) : list N4.Node.Scan :=
  filter (fun n => String.eqb (N4.Node.state n) ScanState.FINISHED)
    (N4.expand (N4.matchFrom (fun s => String.eqb (N4.Node.site_id s) siteId) 0 (N4.Site g))
               (N4.HAS_SCAN g) (N4.Scan g)).

Definition Neo4j_scoredOf (g : N4.Graph) (siteId : string) : list N4.Node.Scan :=
  filter (fun n => String.eqb (N4.Node.state n) ScanState.FINISHED
                   && match N4.Node.score n with Some _ => true | None => false end)
    (N4.expand (N4.matchFrom (fun s => String.eqb (N4.Node.site_id s) siteId) 0 (N4.Site g))
               (N4.HAS_SCAN g) (N4.Scan g)).

(** What a stored test keeps of an entry besides the output, which the
    relational backend reads back as a JSON value, not as the text
    written. *)
Definition entryAnswers (entry : string * Types.Test)
  : string * string * string * bool * Z :=
  (fst entry, Types.expectation (snd entry), Types.result (snd entry),
   Types.pass (snd entry), Types.scoreModifier (snd entry)).

Definition PostgreSQL_testAnswers (row : PG.TestRow)
  : string * string * string * bool * Z :=
  (PG.tests_name row, PG.tests_expectation row, PG.tests_result row,
   PG.tests_pass row, PG.tests_score_modifier row).

(** ** Lists, filters and orderings *)

Section ListFacts.
Context {A : Type}.

Lemma insertOrdered_cons (le : A -> A -> bool) (x : A) (l : list A) :
  exists y l', insertOrdered le x l = y :: l'.
Proof.
  destruct l as [|y l]; simpl; [now eauto|].
  destruct (le x y); eauto.
Qed.

Lemma orderBy_nil (le : A -> A -> bool) (l : list A) :
  orderBy le l = [] -> l = [].
Proof.
  destruct l as [|x l]; [reflexivity|]. simpl. intros H.
  destruct (insertOrdered_cons le x (orderBy le l)) as (y & l' & E).
  congruence.
Qed.

Lemma firstn_one_nil (l : list A) : firstn 1 l = [] -> l = [].
Proof. destruct l; simpl; [reflexivity | discriminate]. Qed.

Lemma filter_snoc (p : A -> bool) (l : list A) (x : A) :
  filter p (l ++ [x]) = filter p l ++ (if p x then [x] else []).
Proof. rewrite filter_app. simpl. now destruct (p x). Qed.

Lemma filter_map_if (p : A -> bool) (f : A -> A) (l : list A) :
  (forall x, p (f x) = p x) ->
  filter p (map (fun x => if p x then f x else x) l) = map f (filter p l).
Proof.
  intros Hp. induction l as [|x l IH]; simpl; [reflexivity|].
  destruct (p x) eqn:E.
  - rewrite Hp, E. simpl. now rewrite IH.
  - rewrite E. exact IH.
Qed.

Lemma nth_error_map_if (p : A -> bool) (f : A -> A) (l : list A) (i : nat) (x : A) :
  nth_error l i = Some x ->
  nth_error (map (fun y => if p y then f y else y) l) i
  = Some (if p x then f x else x).
Proof.
  intros H. rewrite nth_error_map, H. reflexivity.
Qed.

Lemma nth_error_snoc_old (l : list A) (x y : A) (i : nat) :
  nth_error l i = Some x -> nth_error (l ++ [y]) i = Some x.
Proof.
  intros H. rewrite nth_error_app1; [exact H|].
  apply nth_error_Some. congruence.
Qed.

Lemma last_cons_default (x : A) (l : list A) (d : A) : last (x :: l) d = last l x.
Proof.
  revert x d. induction l as [|y l IH]; intros x d; [reflexivity|].
  change (last (x :: y :: l) d) with (last (y :: l) d).
  now rewrite (IH y d), (IH y x).
Qed.

End ListFacts.

(** ** The adapter factory *)

(** C2, as the code has it: a configuration whose discriminator is anything
    but ["neo4j"] (an unrecognized name or no name at all) gets the
    PostgreSQL adapter; the factory has no failing path. *)
Theorem createDatabaseAdapter_defaults_to_postgresql (config : Adapter.Config) :
  Adapter.database_type config <> Some "neo4j"%string ->
  Adapter.createDatabaseAdapter config = resolved (Adapter.PostgreSQLAdapter config)
  /\ forall e, Adapter.createDatabaseAdapter config <> rejected e.
Proof.
  intros Hty. unfold Adapter.createDatabaseAdapter.
  destruct (Adapter.database_type config) as [t|] eqn:E.
  - destruct (String.eqb_spec t "neo4j") as [->|Hne].
    + now elim Hty.
    + split; [reflexivity | discriminate].
  - split; [reflexivity | discriminate].
Qed.

Lemma createDatabaseAdapter_defaults_to_postgresql_witness :
  Adapter.createDatabaseAdapter {| Adapter.database_type := Some "sqlite"%string |}
  = resolved (Adapter.PostgreSQLAdapter {| Adapter.database_type := Some "sqlite"%string |})
  /\ forall e,
      Adapter.createDatabaseAdapter {| Adapter.database_type := Some "sqlite"%string |}
      <> rejected e.
Proof.
  apply (createDatabaseAdapter_defaults_to_postgresql
           {| Adapter.database_type := Some "sqlite"%string |}).
  simpl. discriminate.
Defined.

(** C2 as stated fails: ["mysql"] names neither backend, and the factory
    resolves to a PostgreSQL adapter instead of rejecting. *)
Lemma createDatabaseAdapter_unknown_backend_resolves :
  recognizedBackend "mysql" = false
  /\ Adapter.createDatabaseAdapter {| Adapter.database_type := Some "mysql"%string |}
     = resolved (Adapter.PostgreSQLAdapter {| Adapter.database_type := Some "mysql"%string |})
  /\ ~ exists e,
        Adapter.createDatabaseAdapter {| Adapter.database_type := Some "mysql"%string |}
        = rejected e.
Proof.
  split; [reflexivity|]. split; [reflexivity|].
  intros [e He]. discriminate He.
Qed.

(** ** ensureSite *)

Lemma PostgreSQL_ensureSite_twice (db : PostgreSQLAdapter.Db) (k : string) (now1 now2 : Z) :
  exists db1 siteId,
    PostgreSQLAdapter.ensureSite db k now1 = resolved (db1, siteId)
    /\ PostgreSQLAdapter.ensureSite db1 k now2 = resolved (db1, siteId).
Proof.
  unfold PostgreSQLAdapter.ensureSite at 1.
  destruct (PostgreSQLAdapter.selectSite db k) as [|row rest] eqn:E.
  - eexists _, _. split; [reflexivity|].
    unfold PostgreSQLAdapter.selectSite in E.
    apply firstn_one_nil, orderBy_nil in E.
    unfold PostgreSQLAdapter.ensureSite, PostgreSQLAdapter.selectSite. simpl.
    rewrite filter_snoc, E. simpl. rewrite String.eqb_refl. reflexivity.
  - exists db, (PostgreSQLAdapter.sites_id row). split; [reflexivity|].
    unfold PostgreSQLAdapter.ensureSite. now rewrite E.
Qed.

Lemma Neo4j_ensureSite_twice (g : Neo4jAdapter.Graph) (k : string) (t1 t2 t3 t4 : Z) :
  exists g1 siteId,
    Neo4jAdapter.ensureSite g k t1 t2 = resolved (g1, siteId)
    /\ Neo4jAdapter.ensureSite g1 k t3 t4 = resolved (g1, siteId).
Proof.
  unfold Neo4jAdapter.ensureSite at 1.
  destruct (firstn 1 _) as [|existing rest] eqn:E.
  - eexists _, _. split; [reflexivity|].
    apply firstn_one_nil, orderBy_nil in E.
    unfold Neo4jAdapter.ensureSite. simpl.
    rewrite filter_snoc, E. simpl. rewrite String.eqb_refl. reflexivity.
  - exists g, (Neo4jAdapter.Node.site_id existing). split; [reflexivity|].
    unfold Neo4jAdapter.ensureSite. now rewrite E.
Qed.

(** ** insertScan *)

Lemma matchFrom_nil {A : Type} (p : A -> bool) (l : list A) (i : nat) :
  existsb p l = false -> Neo4jAdapter.matchFrom p i l = [].
Proof.
  revert i. induction l as [|x l IH]; intros i; simpl; [reflexivity|].
  destruct (p x); simpl; [discriminate | auto].
Qed.

Lemma matchFrom_cons {A : Type} (p : A -> bool) (l : list A) (i : nat) :
  existsb p l = true -> exists j js, Neo4jAdapter.matchFrom p i l = j :: js.
Proof.
  revert i. induction l as [|x l IH]; intros i; simpl; [discriminate|].
  destruct (p x); simpl; eauto.
Qed.

(** The CREATE clauses only append: the scans present stay where they are,
    and the records returned so far stay at the head of the result. *)
Lemma createScan_fold (randomUuid : nat -> string) (siteId : string) (now : Z)
    (matched : list nat) (g : Neo4jAdapter.Graph) (records : list Neo4jAdapter.Node.Scan) :
  exists created,
    snd (fold_left (Neo4jAdapter.createScan randomUuid siteId now) matched (g, records))
    = records ++ created
    /\ Neo4jAdapter.Scan
         (fst (fold_left (Neo4jAdapter.createScan randomUuid siteId now) matched (g, records)))
       = Neo4jAdapter.Scan g ++ created.
Proof.
  revert g records. induction matched as [|i matched IH]; intros g records; simpl.
  - exists []. now rewrite !app_nil_r.
  - match goal with
    | |- context [fold_left _ matched (?g1, ?r1)] =>
        destruct (IH g1 r1) as (created & Hrec & Hscan)
    end.
    eexists (_ :: created). rewrite Hrec, Hscan. simpl.
    rewrite <- !app_assoc. split; reflexivity.
Qed.

Lemma PostgreSQL_insertScan_creates (db : PG.Db) (siteId now : Z) :
  PG.siteExists db siteId = true ->
  exists db' row,
    PG.insertScan db siteId now = resolved (db', Some row)
    /\ PG.scans db' = PG.scans db ++ [row]
    /\ row = PG.newScanRow (PG.scans_id_seq db) siteId ScanState.RUNNING now 0
               ALGORITHM_VERSION.
Proof.
  intros H. unfold PG.insertScan. rewrite H.
  eexists _, _. split; [reflexivity|]. split; reflexivity.
Qed.

Lemma Neo4j_insertScan_creates (randomUuid : nat -> string) (g : N4.Graph)
    (siteId : string) (now : Z) :
  existsb (fun s => String.eqb (N4.Node.site_id s) siteId) (N4.Site g) = true ->
  exists g' row,
    N4.insertScan randomUuid g siteId now = resolved (g', row)
    /\ option_map N4._mapScanRow (nth_error (N4.Scan g') (List.length (N4.Scan g)))
       = Some row
    /\ row = {| N4.id := randomUuid (N4.drawn g); N4.site_id := siteId;
                N4.state := ScanState.RUNNING; N4.start_time := now;
                N4.end_time := None; N4.tests_failed := 0; N4.tests_passed := 0;
                N4.tests_quantity := 0; N4.grade := None; N4.score := None;
                N4.error := None; N4.algorithm_version := ALGORITHM_VERSION |}.
Proof.
  intros H. unfold N4.insertScan.
  destruct (matchFrom_cons _ _ 0%nat H) as (j & js & E). rewrite E. simpl.
  match goal with
  | |- context [fold_left _ js (?g1, ?r1)] =>
      destruct (createScan_fold randomUuid siteId now js g1 r1)
        as (created & Hrec & Hscan);
      destruct (fold_left _ js (g1, r1)) as [g' records]
  end.
  simpl in Hrec, Hscan. subst records. simpl.
  eexists _, _. split; [reflexivity|]. rewrite Hscan. simpl.
  rewrite <- app_assoc. rewrite nth_error_app2 by lia.
  rewrite Nat.sub_diag. simpl. split; reflexivity.
Qed.

(** C7: [insertScan] for an existing Site creates a Scan in RUNNING with
    the three counts at zero and the clock reading as start time, and
    returns its record with the new identifier; for a [siteId] that names
    no Site it creates nothing and fails with the NotFound failure of a
    write whose parent is missing (the thrown ["Site not found"] on the
    graph backend, the engine refusing the orphan row on the relational
    one). *)
Theorem insertScan_running_or_not_found :
  (forall db siteId now,
      (PostgreSQLAdapter.siteExists db siteId = true ->
       exists db' row,
         PostgreSQLAdapter.insertScan db siteId now = resolved (db', Some row)
         /\ PostgreSQLAdapter.scans db' = PostgreSQLAdapter.scans db ++ [row]
         /\ PostgreSQLAdapter.id row = PostgreSQLAdapter.scans_id_seq db
         /\ PostgreSQLAdapter.site_id row = siteId
         /\ PostgreSQLAdapter.state row = ScanState.RUNNING
         /\ PostgreSQLAdapter.start_time row = now
         /\ PostgreSQLAdapter.tests_passed row = 0
         /\ PostgreSQLAdapter.tests_failed row = 0
         /\ PostgreSQLAdapter.tests_quantity row = 0)
      /\ (PostgreSQLAdapter.siteExists db siteId = false ->
          PostgreSQLAdapter.insertScan db siteId now
          = rejected (ForeignKeyViolation "scans_site_id_fkey")))
  /\ (forall randomUuid g siteId now,
      (existsb (fun s => String.eqb (Neo4jAdapter.Node.site_id s) siteId)
         (Neo4jAdapter.Site g) = true ->
       exists g' row,
         Neo4jAdapter.insertScan randomUuid g siteId now = resolved (g', row)
         /\ option_map Neo4jAdapter._mapScanRow
              (nth_error (Neo4jAdapter.Scan g') (List.length (Neo4jAdapter.Scan g)))
            = Some row
         /\ Neo4jAdapter.id row = randomUuid (Neo4jAdapter.drawn g)
         /\ Neo4jAdapter.site_id row = siteId
         /\ Neo4jAdapter.state row = ScanState.RUNNING
         /\ Neo4jAdapter.start_time row = now
         /\ Neo4jAdapter.tests_passed row = 0
         /\ Neo4jAdapter.tests_failed row = 0
         /\ Neo4jAdapter.tests_quantity row = 0)
      /\ (existsb (fun s => String.eqb (Neo4jAdapter.Node.site_id s) siteId)
            (Neo4jAdapter.Site g) = false ->
          Neo4jAdapter.insertScan randomUuid g siteId now
          = rejected (Error (String.append "Site not found: " siteId)))).
Proof.
  split.
  - intros db siteId now. split; intros H.
    + destruct (PostgreSQL_insertScan_creates db siteId now H)
        as (db' & row & Hrun & Hscans & ->).
      eexists _, _. split; [exact Hrun|]. repeat split. exact Hscans.
    + unfold PG.insertScan. now rewrite H.
  - intros randomUuid g siteId now. split; intros H.
    + destruct (Neo4j_insertScan_creates randomUuid g siteId now H)
        as (g' & row & Hrun & Hnode & Hrow).
      exists g', row. split; [exact Hrun|]. split; [exact Hnode|].
      subst row. repeat split.
    + unfold N4.insertScan. rewrite (matchFrom_nil _ _ 0%nat H). reflexivity.
Qed.

Lemma insertScan_running_or_not_found_witness :
  (exists db' row,
      PostgreSQLAdapter.insertScan (Scenario.Relational.store []) 1 2000
      = resolved (db', Some row)
      /\ PostgreSQLAdapter.state row = ScanState.RUNNING
      /\ PostgreSQLAdapter.tests_quantity row = 0)
  /\ PostgreSQLAdapter.insertScan (Scenario.Relational.store []) 7 2000
     = rejected (ForeignKeyViolation "scans_site_id_fkey")
  /\ (exists g' row,
      Neo4jAdapter.insertScan Scenario.uuid (Scenario.Graph.store [])
        "example_com_1000" 2000 = resolved (g', row)
      /\ Neo4jAdapter.state row = ScanState.RUNNING
      /\ Neo4jAdapter.tests_quantity row = 0)
  /\ Neo4jAdapter.insertScan Scenario.uuid (Scenario.Graph.store []) "nowhere_1" 2000
     = rejected (Error "Site not found: nowhere_1").
Proof.
  destruct insertScan_running_or_not_found as [Hpg Hneo].
  split; [|split; [|split]].
  - destruct (proj1 (Hpg (Scenario.Relational.store []) 1 2000) eq_refl)
      as (db' & row & H & _ & _ & _ & Hs & _ & _ & _ & Hq).
    exists db', row. auto.
  - exact (proj2 (Hpg (Scenario.Relational.store []) 7 2000) eq_refl).
  - destruct (proj1 (Hneo Scenario.uuid (Scenario.Graph.store [])
                       "example_com_1000"%string 2000) eq_refl)
      as (g' & row & H & _ & _ & _ & Hs & _ & _ & _ & Hq).
    exists g', row. auto.
  - exact (proj2 (Hneo Scenario.uuid (Scenario.Graph.store []) "nowhere_1"%string 2000)
             eq_refl).
Defined.

(** ** insertTestResults followed by selectScan *)

Lemma PostgreSQL_selectScan_exists (db : PG.Db) (scanId : Z) (r : PG.ScanRow) :
  PG.selectScan db scanId = Some r -> PG.scanExists db scanId = true.
Proof.
  unfold PG.selectScan, PG.scanExists.
  induction (PG.scans db) as [|x l IH]; simpl; [discriminate|].
  destruct (PG.id x =? scanId); simpl; auto.
Qed.

Lemma PostgreSQL_insertTestResults_selectScan (db : PG.Db) (siteId scanId : Z)
    (scanResult : Types.ScanResult) (now : Z) (r0 : PG.ScanRow) :
  Types.tests scanResult = [] \/ PG.siteExists db siteId = true ->
  PG.selectScan db scanId = Some r0 ->
  exists db',
    PG.insertTestResults db siteId scanId scanResult now
    = resolved (db', Some (PG.setTerminal (Types.scan scanResult) now r0))
    /\ PG.selectScan db' scanId
       = Some (PG.setTerminal (Types.scan scanResult) now r0)
    /\ PG.tests db'
       = PG.tests db
         ++ PG.numberRows (PG.tests_id_seq db) (PG.testValues siteId scanId scanResult).
Proof.
  intros Hsite Hscan. unfold PG.insertTestResults.
  set (set := PG.setTerminal (Types.scan scanResult) now).
  assert (Hid : forall r, (PG.id (set r) =? scanId) = (PG.id r =? scanId))
    by reflexivity.
  assert (Hhd : hd_error (map set (filter (fun r => PG.id r =? scanId) (PG.scans db)))
                = Some (set r0)).
  { unfold PG.selectScan in Hscan.
    destruct (filter _ (PG.scans db)); simpl in *; congruence. }
  destruct (0 <? List.length (PG.testValues siteId scanId scanResult))%nat eqn:Hlen.
  - destruct Hsite as [Hnil | Hsite].
    { unfold PG.testValues in Hlen. rewrite Hnil in Hlen. discriminate. }
    unfold PG.insertTests.
    rewrite Hsite, (PostgreSQL_selectScan_exists _ _ _ Hscan). simpl.
    rewrite Hhd. eexists. split; [reflexivity|]. split; [|reflexivity].
    unfold PG.selectScan. simpl.
    now rewrite (filter_map_if (fun r => PG.id r =? scanId) set _ Hid).
  - simpl. rewrite Hhd. eexists. split; [reflexivity|]. split.
    + unfold PG.selectScan. simpl.
      now rewrite (filter_map_if (fun r => PG.id r =? scanId) set _ Hid).
    + apply Nat.ltb_ge in Hlen.
      destruct (PG.testValues siteId scanId scanResult); [|simpl in Hlen; lia].
      simpl. now rewrite app_nil_r.
Qed.

(** The test queries create TestResult nodes and HAS_TEST relationships
    and touch nothing else. *)
Lemma Neo4j_createTestResult_fold (randomUuid : nat -> string) (scanId : string)
    (testData : N4.TestData) (matched : list nat) (g : N4.Graph) :
  N4.Scan (fold_left (N4.createTestResult randomUuid scanId testData) matched g)
  = N4.Scan g.
Proof.
  revert g. induction matched as [|j matched IH]; intros g; simpl; [reflexivity|].
  now rewrite IH.
Qed.

Lemma Neo4j_runTestQuery_Scan (randomUuid : nat -> string) (scanId : string)
    (g : N4.Graph) (testData : N4.TestData) :
  N4.Scan (N4.runTestQuery randomUuid scanId g testData) = N4.Scan g.
Proof. apply Neo4j_createTestResult_fold. Qed.

Lemma Neo4j_testQueries_Scan (randomUuid : nat -> string) (scanId : string)
    (queries : list N4.TestData) (g : N4.Graph) :
  N4.Scan (fold_left (N4.runTestQuery randomUuid scanId) queries g) = N4.Scan g.
Proof.
  revert g. induction queries as [|q queries IH]; intros g; simpl; [reflexivity|].
  now rewrite IH, Neo4j_runTestQuery_Scan.
Qed.

Lemma Neo4j_testCommits_last (randomUuid : nat -> string) (scanId : string)
    (queries : list N4.TestData) (g : N4.Graph) :
  last (N4.testCommits randomUuid scanId g queries) g
  = fold_left (N4.runTestQuery randomUuid scanId) queries g.
Proof.
  revert g. induction queries as [|q queries IH]; intros g; [reflexivity|].
  simpl N4.testCommits. simpl fold_left. rewrite last_cons_default. apply IH.
Qed.

(** Without a scan of that id the test queries match nothing and write
    nothing, so the call that then rejects has left the graph as it was. *)
Lemma Neo4j_testQueries_no_scan (randomUuid : nat -> string) (scanId : string)
    (queries : list N4.TestData) (g : N4.Graph) :
  existsb (fun n => String.eqb (N4.Node.id n) scanId) (N4.Scan g) = false ->
  fold_left (N4.runTestQuery randomUuid scanId) queries g = g.
Proof.
  intros Hnone. induction queries as [|q queries IH]; [reflexivity|].
  simpl. unfold N4.runTestQuery at 2.
  rewrite (matchFrom_nil _ _ 0%nat Hnone). exact IH.
Qed.

Lemma Neo4j_insertTestResults_rejects (randomUuid : nat -> string) (g : N4.Graph)
    (siteId scanId : string) (scanResult : Types.ScanResult) (now : Z) :
  existsb (fun n => String.eqb (N4.Node.id n) scanId) (N4.Scan g) = false ->
  N4.insertTestResults randomUuid g siteId scanId scanResult now = rejected TypeError
  /\ last (N4.insertTestResults_commits randomUuid g siteId scanId scanResult now) g = g.
Proof.
  intros Hnone.
  assert (Hfilter : filter (fun n => String.eqb (N4.Node.id n) scanId) (N4.Scan g) = []).
  { revert Hnone. induction (N4.Scan g) as [|n l IH]; simpl; [reflexivity|].
    destruct (String.eqb (N4.Node.id n) scanId); simpl; [discriminate | exact IH]. }
  assert (Hmap : map (fun n => if String.eqb (N4.Node.id n) scanId
                               then N4.setTerminal (Types.scan scanResult) now n else n)
                   (N4.Scan g) = N4.Scan g).
  { clear Hfilter. revert Hnone.
    induction (N4.Scan g) as [|n l IH]; simpl; [reflexivity|].
    destruct (String.eqb (N4.Node.id n) scanId); simpl; [discriminate|].
    intros H. now rewrite IH. }
  split.
  - unfold N4.insertTestResults, N4.setScans.
    rewrite (Neo4j_testQueries_no_scan _ _ _ _ Hnone), Hfilter. reflexivity.
  - unfold N4.insertTestResults_commits.
    change (g :: ?l ++ [?x]) with ((g :: l) ++ [x]). rewrite last_last.
    rewrite Neo4j_testCommits_last, (Neo4j_testQueries_no_scan _ _ _ _ Hnone).
    unfold N4.setScans. simpl. rewrite Hmap. now destruct g.
Qed.

Lemma Neo4j_selectScan_node (g : N4.Graph) (scanId : string) (r : N4.ScanRow) :
  N4.selectScan g scanId = Some r ->
  exists n0 rest,
    filter (fun n => String.eqb (N4.Node.id n) scanId) (N4.Scan g) = n0 :: rest
    /\ r = N4._mapScanRow n0.
Proof.
  unfold N4.selectScan.
  destruct (filter _ (N4.Scan g)) as [|n0 rest]; [discriminate|].
  intros H. exists n0, rest. split; congruence.
Qed.

Lemma Neo4j_insertTestResults_selectScan (randomUuid : nat -> string) (g : N4.Graph)
    (siteId scanId : string) (scanResult : Types.ScanResult) (now : Z)
    (n0 : N4.Node.Scan) (rest : list N4.Node.Scan) :
  filter (fun n => String.eqb (N4.Node.id n) scanId) (N4.Scan g) = n0 :: rest ->
  exists g',
    N4.insertTestResults randomUuid g siteId scanId scanResult now
    = resolved (g', N4._mapScanRow (N4.setTerminal (Types.scan scanResult) now n0))
    /\ N4.selectScan g' scanId
       = Some (N4._mapScanRow (N4.setTerminal (Types.scan scanResult) now n0))
    /\ (Types.tests scanResult = [] ->
        N4.TestResult g' = N4.TestResult g /\ N4.HAS_TEST g' = N4.HAS_TEST g).
Proof.
  intros Hn. unfold N4.insertTestResults, N4.setScans.
  rewrite Neo4j_testQueries_Scan, Hn. simpl.
  eexists. split; [reflexivity|]. split.
  - unfold N4.selectScan. simpl.
    rewrite (filter_map_if (fun n => String.eqb (N4.Node.id n) scanId)
               (N4.setTerminal (Types.scan scanResult) now))
      by reflexivity.
    now rewrite Hn.
  - intros Hnil. unfold N4.testQueries. rewrite Hnil. split; reflexivity.
Qed.

(** C10: with an empty map of tests [insertTestResults] creates no
    TestResult and still updates the Scan: the scan that was there is
    FINISHED when [result.score] is a number and FAILED when it is null. *)
Theorem insertTestResults_without_tests (scanResult : Types.ScanResult) (now : Z) :
  Types.tests scanResult = [] ->
  (forall db siteId scanId r0,
      PG.selectScan db scanId = Some r0 ->
      exists db' row,
        PG.insertTestResults db siteId scanId scanResult now = resolved (db', Some row)
        /\ PG.tests db' = PG.tests db
        /\ PG.selectScan db' scanId = Some row
        /\ PG.state row = match Types.score (Types.scan scanResult) with
                          | Some _ => ScanState.FINISHED
                          | None => ScanState.FAILED
                          end)
  /\ (forall randomUuid g siteId scanId r0,
      N4.selectScan g scanId = Some r0 ->
      exists g' row,
        N4.insertTestResults randomUuid g siteId scanId scanResult now
        = resolved (g', row)
        /\ N4.TestResult g' = N4.TestResult g
        /\ N4.HAS_TEST g' = N4.HAS_TEST g
        /\ N4.selectScan g' scanId = Some row
        /\ N4.state row = match Types.score (Types.scan scanResult) with
                          | Some _ => ScanState.FINISHED
                          | None => ScanState.FAILED
                          end).
Proof.
  intros Hnil. split.
  - intros db siteId scanId r0 Hscan.
    destruct (PostgreSQL_insertTestResults_selectScan db siteId scanId scanResult now r0
                (or_introl Hnil) Hscan) as (db' & Hrun & Hsel & Htests).
    exists db', (PG.setTerminal (Types.scan scanResult) now r0).
    repeat split; try assumption.
    rewrite Htests. unfold PG.testValues. rewrite Hnil. simpl. apply app_nil_r.
  - intros randomUuid g siteId scanId r0 Hscan.
    destruct (Neo4j_selectScan_node _ _ _ Hscan) as (n0 & rest & Hn & _).
    destruct (Neo4j_insertTestResults_selectScan randomUuid g siteId scanId scanResult
                now n0 rest Hn) as (g' & Hrun & Hsel & Hsame).
    destruct (Hsame Hnil) as [Ht He].
    exists g', (N4._mapScanRow (N4.setTerminal (Types.scan scanResult) now n0)).
    repeat split; assumption.
Qed.

Lemma insertTestResults_without_tests_witness :
  (exists db' row,
      PG.insertTestResults (Scenario.Relational.store [Scenario.Relational.running 1 2000])
        1 1 (Scenario.outcome None None (Some "timeout"%string) []) 2500
      = resolved (db', Some row)
      /\ PG.tests db' = []
      /\ PG.state row = ScanState.FAILED)
  /\ (exists g' row,
      N4.insertTestResults Scenario.uuid
        (Scenario.Graph.store [Scenario.Graph.running 0 2000])
        "example_com_1000" "scan-0"
        (Scenario.outcome (Some 105) (Some "A+"%string) None []) 2500
      = resolved (g', row)
      /\ N4.TestResult g' = []
      /\ N4.state row = ScanState.FINISHED).
Proof.
  split.
  - destruct (proj1 (insertTestResults_without_tests
                       (Scenario.outcome None None (Some "timeout"%string) []) 2500 eq_refl)
                (Scenario.Relational.store [Scenario.Relational.running 1 2000]) 1 1
                (Scenario.Relational.running 1 2000) eq_refl)
      as (db' & row & Hrun & Ht & _ & Hs).
    exists db', row. auto.
  - destruct (proj2 (insertTestResults_without_tests
                       (Scenario.outcome (Some 105) (Some "A+"%string) None []) 2500 eq_refl)
                Scenario.uuid (Scenario.Graph.store [Scenario.Graph.running 0 2000])
                "example_com_1000"%string "scan-0"%string
                (N4._mapScanRow (Scenario.Graph.running 0 2000)) eq_refl)
      as (g' & row & Hrun & Ht & _ & _ & Hs).
    exists g', row. auto.
Defined.

(** C3, as the code has it: after [insertTestResults] for an existing scan
    (of an existing site), [selectScan] reports FAILED and the error of
    the result when [result.score] is null, and FINISHED with that score
    and the grade of the result when it is a number.  The error and the
    grade are stored as they come, null included. *)
Theorem insertTestResults_then_selectScan (scanResult : Types.ScanResult) (now : Z) :
  (forall db siteId scanId r0,
      PG.siteExists db siteId = true ->
      PG.selectScan db scanId = Some r0 ->
      exists db' row,
        PG.insertTestResults db siteId scanId scanResult now = resolved (db', Some row)
        /\ PG.selectScan db' scanId = Some row
        /\ (Types.score (Types.scan scanResult) = None ->
            PG.state row = ScanState.FAILED
            /\ PG.error row = Types.error (Types.scan scanResult))
        /\ (forall v, Types.score (Types.scan scanResult) = Some v ->
            PG.state row = ScanState.FINISHED
            /\ PG.score row = Some v
            /\ PG.grade row = Types.grade (Types.scan scanResult)))
  /\ (forall randomUuid g siteId scanId r0,
      N4.selectScan g scanId = Some r0 ->
      exists g' row,
        N4.insertTestResults randomUuid g siteId scanId scanResult now
        = resolved (g', row)
        /\ N4.selectScan g' scanId = Some row
        /\ (Types.score (Types.scan scanResult) = None ->
            N4.state row = ScanState.FAILED
            /\ N4.error row = Types.error (Types.scan scanResult))
        /\ (forall v, Types.score (Types.scan scanResult) = Some v ->
            N4.state row = ScanState.FINISHED
            /\ N4.score row = Some v
            /\ N4.grade row = Types.grade (Types.scan scanResult))).
Proof.
  split.
  - intros db siteId scanId r0 Hsite Hscan.
    destruct (PostgreSQL_insertTestResults_selectScan db siteId scanId scanResult now r0
                (or_intror Hsite) Hscan) as (db' & Hrun & Hsel & _).
    exists db', (PG.setTerminal (Types.scan scanResult) now r0).
    split; [exact Hrun|]. split; [exact Hsel|]. simpl. split.
    + intros ->. split; reflexivity.
    + intros v ->. repeat split; reflexivity.
  - intros randomUuid g siteId scanId r0 Hscan.
    destruct (Neo4j_selectScan_node _ _ _ Hscan) as (n0 & rest & Hn & _).
    destruct (Neo4j_insertTestResults_selectScan randomUuid g siteId scanId scanResult
                now n0 rest Hn) as (g' & Hrun & Hsel & _).
    exists g', (N4._mapScanRow (N4.setTerminal (Types.scan scanResult) now n0)).
    split; [exact Hrun|]. split; [exact Hsel|]. simpl. split.
    + intros ->. split; reflexivity.
    + intros v ->. repeat split; reflexivity.
Qed.

Lemma insertTestResults_then_selectScan_witness :
  (exists db' row,
      PG.insertTestResults (Scenario.Relational.store [Scenario.Relational.running 1 2000])
        1 1 (Scenario.outcome (Some 105) (Some "A+"%string) None Scenario.twoTests) 2500
      = resolved (db', Some row)
      /\ PG.selectScan db' 1 = Some row
      /\ PG.state row = ScanState.FINISHED
      /\ PG.score row = Some 105
      /\ PG.grade row = Some "A+"%string)
  /\ (exists g' row,
      N4.insertTestResults Scenario.uuid
        (Scenario.Graph.store [Scenario.Graph.running 0 2000])
        "example_com_1000" "scan-0"
        (Scenario.outcome None None (Some "timeout"%string) Scenario.twoTests) 2500
      = resolved (g', row)
      /\ N4.selectScan g' "scan-0" = Some row
      /\ N4.state row = ScanState.FAILED
      /\ N4.error row = Some "timeout"%string).
Proof.
  split.
  - destruct (proj1 (insertTestResults_then_selectScan
                       (Scenario.outcome (Some 105) (Some "A+"%string) None
                          Scenario.twoTests) 2500)
                (Scenario.Relational.store [Scenario.Relational.running 1 2000]) 1 1
                (Scenario.Relational.running 1 2000) eq_refl eq_refl)
      as (db' & row & Hrun & Hsel & _ & Hfin).
    destruct (Hfin 105 eq_refl) as (Hs & Hv & Hg).
    exists db', row. auto.
  - destruct (proj2 (insertTestResults_then_selectScan
                       (Scenario.outcome None None (Some "timeout"%string)
                          Scenario.twoTests) 2500)
                Scenario.uuid (Scenario.Graph.store [Scenario.Graph.running 0 2000])
                "example_com_1000"%string "scan-0"%string
                (N4._mapScanRow (Scenario.Graph.running 0 2000)) eq_refl)
      as (g' & row & Hrun & Hsel & Hfail & _).
    destruct (Hfail eq_refl) as (Hs & He).
    exists g', row. auto.
Defined.

(** C3 as stated fails: a result with a null score and no error message
    leaves the scan FAILED with a null error, and a result with a score
    and no grade leaves it FINISHED with a null grade, on both backends. *)
Lemma insertTestResults_stores_null_error_and_grade :
  (await (db', _) <-
     PG.insertTestResults (Scenario.Relational.store [Scenario.Relational.running 1 2000])
       1 1 (Scenario.outcome None None None Scenario.twoTests) 2500 ;;
   resolved (option_map (fun r => (PG.state r, PG.error r)) (PG.selectScan db' 1)))
  = resolved (Some (ScanState.FAILED, None))
  /\ (await (db', _) <-
     PG.insertTestResults (Scenario.Relational.store [Scenario.Relational.running 1 2000])
       1 1 (Scenario.outcome (Some 90) None None Scenario.twoTests) 2500 ;;
   resolved (option_map (fun r => (PG.state r, PG.grade r)) (PG.selectScan db' 1)))
  = resolved (Some (ScanState.FINISHED, None))
  /\ (await (g', _) <-
     N4.insertTestResults Scenario.uuid
       (Scenario.Graph.store [Scenario.Graph.running 0 2000])
       "example_com_1000" "scan-0"
       (Scenario.outcome None None None Scenario.twoTests) 2500 ;;
   resolved (option_map (fun r => (N4.state r, N4.error r)) (N4.selectScan g' "scan-0")))
  = resolved (Some (ScanState.FAILED, None))
  /\ (await (g', _) <-
     N4.insertTestResults Scenario.uuid
       (Scenario.Graph.store [Scenario.Graph.running 0 2000])
       "example_com_1000" "scan-0"
       (Scenario.outcome (Some 90) None None Scenario.twoTests) 2500 ;;
   resolved (option_map (fun r => (N4.state r, N4.grade r)) (N4.selectScan g' "scan-0")))
  = resolved (Some (ScanState.FINISHED, None)).
Proof. repeat split. Qed.

(** ** What each write does to the state of a stored scan *)

Lemma PostgreSQL_updateScans_stateAt (db : PG.Db) (scanId : Z)
    (set : PG.ScanRow -> PG.ScanRow) (i : nat) (r : PG.ScanRow) :
  (forall x, PG.id (set x) = PG.id x) ->
  nth_error (PG.scans db) i = Some r ->
  PostgreSQL_stateAt (fst (PG.updateScans db scanId set)) i
  = Some (PG.id r, if PG.id r =? scanId then PG.state (set r) else PG.state r).
Proof.
  intros Hid Hr. unfold PostgreSQL_stateAt, PG.updateScans. simpl.
  rewrite (nth_error_map_if (fun x => PG.id x =? scanId) set _ _ _ Hr). simpl.
  destruct (PG.id r =? scanId); [now rewrite Hid | reflexivity].
Qed.

Lemma PostgreSQL_updateScanState_stateAt (db db' : PG.Db) (scanId : Z) (st : string)
    (err : option string) (now : Z) (row : option PG.ScanRow) (i : nat) (r : PG.ScanRow) :
  PG.updateScanState db scanId st err now = resolved (db', row) ->
  nth_error (PG.scans db) i = Some r ->
  PostgreSQL_stateAt db' i = Some (PG.id r, if PG.id r =? scanId then st else PG.state r).
Proof.
  unfold PG.updateScanState. intros Hrun Hr.
  destruct (truthy err).
  - destruct (PG.updateScans db scanId _) as [d rows] eqn:E.
    inversion Hrun; subst d.
    change db' with (fst (db', rows)). rewrite <- E.
    now rewrite (PostgreSQL_updateScans_stateAt db scanId _ i r) by auto.
  - destruct (PG.updateScans db scanId _) as [d rows] eqn:E.
    inversion Hrun; subst d.
    change db' with (fst (db', rows)). rewrite <- E.
    now rewrite (PostgreSQL_updateScans_stateAt db scanId _ i r) by auto.
Qed.

Lemma PostgreSQL_insertTestResults_stateAt (db db' : PG.Db) (siteId scanId : Z)
    (scanResult : Types.ScanResult) (now : Z) (row : option PG.ScanRow)
    (i : nat) (r : PG.ScanRow) :
  PG.insertTestResults db siteId scanId scanResult now = resolved (db', row) ->
  nth_error (PG.scans db) i = Some r ->
  PostgreSQL_stateAt db' i
  = Some (PG.id r, if PG.id r =? scanId then terminalStateOf scanResult else PG.state r).
Proof.
  unfold PG.insertTestResults. intros Hrun Hr.
  destruct (if (0 <? _)%nat then _ else _) as [e|db1] eqn:Hfirst; [discriminate|].
  assert (Hscans : PG.scans db1 = PG.scans db).
  { destruct (0 <? _)%nat.
    - unfold PG.insertTests in Hfirst.
      destruct (negb _); [discriminate|]. destruct (negb _); [discriminate|].
      inversion Hfirst. reflexivity.
    - inversion Hfirst. reflexivity. }
  unfold andThen in Hrun.
  destruct (PG.updateScans db1 scanId _) as [d rows] eqn:E.
  inversion Hrun; subst d.
  change db' with (fst (db', rows)). rewrite <- E.
  rewrite <- Hscans in Hr.
  now rewrite (PostgreSQL_updateScans_stateAt db1 scanId _ i r) by auto.
Qed.

Lemma PostgreSQL_insertScan_stateAt (db db' : PG.Db) (siteId now : Z)
    (row : option PG.ScanRow) (i : nat) (r : PG.ScanRow) :
  PG.insertScan db siteId now = resolved (db', row) ->
  nth_error (PG.scans db) i = Some r ->
  PostgreSQL_stateAt db' i = Some (PG.id r, PG.state r).
Proof.
  unfold PG.insertScan. intros Hrun Hr.
  destruct (PG.siteExists db siteId); [|discriminate].
  inversion Hrun. unfold PostgreSQL_stateAt. simpl.
  now rewrite (nth_error_snoc_old _ _ _ _ Hr).
Qed.

Lemma PostgreSQL_ensureSite_stateAt (db db' : PG.Db) (k : string) (now siteId : Z)
    (i : nat) (r : PG.ScanRow) :
  PG.ensureSite db k now = resolved (db', siteId) ->
  nth_error (PG.scans db) i = Some r ->
  PostgreSQL_stateAt db' i = Some (PG.id r, PG.state r).
Proof.
  unfold PG.ensureSite. intros Hrun Hr.
  destruct (PG.selectSite db k); inversion Hrun; subst; unfold PostgreSQL_stateAt;
    simpl; now rewrite Hr.
Qed.

Lemma Neo4j_setScans_stateAt (g : N4.Graph) (scanId : string)
    (set : N4.Node.Scan -> N4.Node.Scan) (i : nat) (n : N4.Node.Scan) :
  (forall x, N4.Node.id (set x) = N4.Node.id x) ->
  nth_error (N4.Scan g) i = Some n ->
  Neo4j_stateAt (fst (N4.setScans g scanId set)) i
  = Some (N4.Node.id n,
          if String.eqb (N4.Node.id n) scanId then N4.Node.state (set n)
          else N4.Node.state n).
Proof.
  intros Hid Hn. unfold Neo4j_stateAt, N4.setScans. simpl.
  rewrite (nth_error_map_if (fun x => String.eqb (N4.Node.id x) scanId) set _ _ _ Hn).
  simpl. destruct (String.eqb (N4.Node.id n) scanId); [now rewrite Hid | reflexivity].
Qed.

Lemma Neo4j_updateScanState_stateAt (g g' : N4.Graph) (scanId st : string)
    (err : option string) (now : Z) (row : N4.ScanRow) (i : nat) (n : N4.Node.Scan) :
  N4.updateScanState g scanId st err now = resolved (g', row) ->
  nth_error (N4.Scan g) i = Some n ->
  Neo4j_stateAt g' i
  = Some (N4.Node.id n, if String.eqb (N4.Node.id n) scanId then st else N4.Node.state n).
Proof.
  unfold N4.updateScanState. intros Hrun Hn.
  destruct (N4.setScans g scanId _) as [d records] eqn:E.
  destruct records as [|scan records]; [discriminate|].
  inversion Hrun; subst d.
  change g' with (fst (g', scan :: records)). rewrite <- E.
  now rewrite (Neo4j_setScans_stateAt g scanId _ i n) by auto.
Qed.

Lemma Neo4j_insertTestResults_stateAt (randomUuid : nat -> string) (g g' : N4.Graph)
    (siteId scanId : string) (scanResult : Types.ScanResult) (now : Z)
    (row : N4.ScanRow) (i : nat) (n : N4.Node.Scan) :
  N4.insertTestResults randomUuid g siteId scanId scanResult now = resolved (g', row) ->
  nth_error (N4.Scan g) i = Some n ->
  Neo4j_stateAt g' i
  = Some (N4.Node.id n,
          if String.eqb (N4.Node.id n) scanId then terminalStateOf scanResult
          else N4.Node.state n).
Proof.
  unfold N4.insertTestResults. intros Hrun Hn.
  destruct (N4.setScans _ scanId _) as [d records] eqn:E.
  destruct records as [|scan records]; [discriminate|].
  inversion Hrun; subst d.
  change g' with (fst (g', scan :: records)). rewrite <- E.
  rewrite <- (Neo4j_testQueries_Scan randomUuid scanId (N4.testQueries scanResult) g) in Hn.
  now rewrite (Neo4j_setScans_stateAt _ scanId _ i n) by auto.
Qed.

Lemma Neo4j_insertScan_stateAt (randomUuid : nat -> string) (g g' : N4.Graph)
    (siteId : string) (now : Z) (row : N4.ScanRow) (i : nat) (n : N4.Node.Scan) :
  N4.insertScan randomUuid g siteId now = resolved (g', row) ->
  nth_error (N4.Scan g) i = Some n ->
  Neo4j_stateAt g' i = Some (N4.Node.id n, N4.Node.state n).
Proof.
  unfold N4.insertScan. intros Hrun Hn.
  destruct (createScan_fold randomUuid siteId now
              (N4.matchFrom (fun s => String.eqb (N4.Node.site_id s) siteId) 0 (N4.Site g))
              g []) as (created & _ & Hscan).
  destruct (fold_left _ _ (g, [])) as [d records].
  destruct records as [|scan records]; [discriminate|].
  inversion Hrun; subst d. simpl in Hscan.
  unfold Neo4j_stateAt. rewrite Hscan, nth_error_app1, Hn; [reflexivity|].
  apply nth_error_Some. congruence.
Qed.

Lemma Neo4j_ensureSite_stateAt (g g' : N4.Graph) (k : string) (t1 t2 : Z)
    (siteId : string) (i : nat) (n : N4.Node.Scan) :
  N4.ensureSite g k t1 t2 = resolved (g', siteId) ->
  nth_error (N4.Scan g) i = Some n ->
  Neo4j_stateAt g' i = Some (N4.Node.id n, N4.Node.state n).
Proof.
  unfold N4.ensureSite. intros Hrun Hn.
  destruct (firstn 1 _); inversion Hrun; subst; unfold Neo4j_stateAt; simpl;
    now rewrite Hn.
Qed.

Lemma PostgreSQL_updateScanState_resolves (db : PG.Db) (scanId : Z) (st : string)
    (err : option string) (now : Z) :
  exists db' row, PG.updateScanState db scanId st err now = resolved (db', row).
Proof.
  unfold PG.updateScanState.
  destruct (truthy err); destruct (PG.updateScans db scanId _); eauto.
Qed.

Lemma Neo4j_updateScanState_resolves (g : N4.Graph) (st : string)
    (err : option string) (now : Z) (i : nat) (n : N4.Node.Scan) :
  nth_error (N4.Scan g) i = Some n ->
  exists g' row, N4.updateScanState g (N4.Node.id n) st err now = resolved (g', row).
Proof.
  intros Hn. unfold N4.updateScanState, N4.setScans.
  assert (Hin : In n (filter (fun x => String.eqb (N4.Node.id x) (N4.Node.id n))
                        (N4.Scan g))).
  { apply filter_In. split; [eapply nth_error_In; eauto | apply String.eqb_refl]. }
  destruct (filter _ (N4.Scan g)); [contradiction|]. simpl. eauto.
Qed.

(** C4, as the code has it: no write checks the state it replaces.  For a
    scan in a terminal state, [updateScanState] addressed to it puts it in
    the state given, whatever that is, and [insertTestResults] addressed
    to it puts it in FINISHED or FAILED after the score of the result; its
    state stays as it is under [ensureSite], [insertScan], and
    [updateScanState] and [insertTestResults] addressed to another scan. *)
Theorem terminal_state_kept_unless_addressed :
  (forall db i r,
      nth_error (PG.scans db) i = Some r ->
      terminal (PG.state r) = true ->
      (forall st err now, exists db' row,
          PG.updateScanState db (PG.id r) st err now = resolved (db', row)
          /\ PostgreSQL_stateAt db' i = Some (PG.id r, st))
      /\ (forall siteId scanResult now db' row,
          PG.insertTestResults db siteId (PG.id r) scanResult now = resolved (db', row) ->
          PostgreSQL_stateAt db' i = Some (PG.id r, terminalStateOf scanResult))
      /\ (forall scanId st err now db' row,
          scanId <> PG.id r ->
          PG.updateScanState db scanId st err now = resolved (db', row) ->
          PostgreSQL_stateAt db' i = Some (PG.id r, PG.state r))
      /\ (forall siteId scanId scanResult now db' row,
          scanId <> PG.id r ->
          PG.insertTestResults db siteId scanId scanResult now = resolved (db', row) ->
          PostgreSQL_stateAt db' i = Some (PG.id r, PG.state r))
      /\ (forall siteId now db' row,
          PG.insertScan db siteId now = resolved (db', row) ->
          PostgreSQL_stateAt db' i = Some (PG.id r, PG.state r))
      /\ (forall k now db' siteId,
          PG.ensureSite db k now = resolved (db', siteId) ->
          PostgreSQL_stateAt db' i = Some (PG.id r, PG.state r)))
  /\ (forall randomUuid g i n,
      nth_error (N4.Scan g) i = Some n ->
      terminal (N4.Node.state n) = true ->
      (forall st err now, exists g' row,
          N4.updateScanState g (N4.Node.id n) st err now = resolved (g', row)
          /\ Neo4j_stateAt g' i = Some (N4.Node.id n, st))
      /\ (forall siteId scanResult now g' row,
          N4.insertTestResults randomUuid g siteId (N4.Node.id n) scanResult now
          = resolved (g', row) ->
          Neo4j_stateAt g' i = Some (N4.Node.id n, terminalStateOf scanResult))
      /\ (forall scanId st err now g' row,
          scanId <> N4.Node.id n ->
          N4.updateScanState g scanId st err now = resolved (g', row) ->
          Neo4j_stateAt g' i = Some (N4.Node.id n, N4.Node.state n))
      /\ (forall siteId scanId scanResult now g' row,
          scanId <> N4.Node.id n ->
          N4.insertTestResults randomUuid g siteId scanId scanResult now
          = resolved (g', row) ->
          Neo4j_stateAt g' i = Some (N4.Node.id n, N4.Node.state n))
      /\ (forall siteId now g' row,
          N4.insertScan randomUuid g siteId now = resolved (g', row) ->
          Neo4j_stateAt g' i = Some (N4.Node.id n, N4.Node.state n))
      /\ (forall k t1 t2 g' siteId,
          N4.ensureSite g k t1 t2 = resolved (g', siteId) ->
          Neo4j_stateAt g' i = Some (N4.Node.id n, N4.Node.state n))).
Proof.
  split.
  - intros db i r Hr _. repeat split.
    + intros st err now.
      destruct (PostgreSQL_updateScanState_resolves db (PG.id r) st err now)
        as (db' & row & Hrun).
      exists db', row. split; [exact Hrun|].
      rewrite (PostgreSQL_updateScanState_stateAt _ _ _ _ _ _ _ i r Hrun Hr).
      now rewrite Z.eqb_refl.
    + intros siteId scanResult now db' row Hrun.
      rewrite (PostgreSQL_insertTestResults_stateAt _ _ _ _ _ _ _ i r Hrun Hr).
      now rewrite Z.eqb_refl.
    + intros scanId st err now db' row Hne Hrun.
      rewrite (PostgreSQL_updateScanState_stateAt _ _ _ _ _ _ _ i r Hrun Hr).
      destruct (Z.eqb_spec (PG.id r) scanId); [congruence | reflexivity].
    + intros siteId scanId scanResult now db' row Hne Hrun.
      rewrite (PostgreSQL_insertTestResults_stateAt _ _ _ _ _ _ _ i r Hrun Hr).
      destruct (Z.eqb_spec (PG.id r) scanId); [congruence | reflexivity].
    + intros siteId now db' row Hrun.
      exact (PostgreSQL_insertScan_stateAt _ _ _ _ _ i r Hrun Hr).
    + intros k now db' siteId Hrun.
      exact (PostgreSQL_ensureSite_stateAt _ _ _ _ _ i r Hrun Hr).
  - intros randomUuid g i n Hn _. repeat split.
    + intros st err now.
      destruct (Neo4j_updateScanState_resolves g st err now i n Hn) as (g' & row & Hrun).
      exists g', row. split; [exact Hrun|].
      rewrite (Neo4j_updateScanState_stateAt _ _ _ _ _ _ _ i n Hrun Hn).
      now rewrite String.eqb_refl.
    + intros siteId scanResult now g' row Hrun.
      rewrite (Neo4j_insertTestResults_stateAt _ _ _ _ _ _ _ _ i n Hrun Hn).
      now rewrite String.eqb_refl.
    + intros scanId st err now g' row Hne Hrun.
      rewrite (Neo4j_updateScanState_stateAt _ _ _ _ _ _ _ i n Hrun Hn).
      destruct (String.eqb_spec (N4.Node.id n) scanId); [congruence | reflexivity].
    + intros siteId scanId scanResult now g' row Hne Hrun.
      rewrite (Neo4j_insertTestResults_stateAt _ _ _ _ _ _ _ _ i n Hrun Hn).
      destruct (String.eqb_spec (N4.Node.id n) scanId); [congruence | reflexivity].
    + intros siteId now g' row Hrun.
      exact (Neo4j_insertScan_stateAt _ _ _ _ _ _ i n Hrun Hn).
    + intros k t1 t2 g' siteId Hrun.
      exact (Neo4j_ensureSite_stateAt _ _ _ _ _ _ i n Hrun Hn).
Qed.

Lemma terminal_state_kept_unless_addressed_witness :
  (exists db' row,
      PG.updateScanState
        (Scenario.Relational.store [Scenario.Relational.finished 1 2000 2500 100])
        1 ScanState.ABORTED None 9000 = resolved (db', row)
      /\ PostgreSQL_stateAt db' 0 = Some (1, ScanState.ABORTED))
  /\ (exists g' row,
      N4.updateScanState
        (Scenario.Graph.store [Scenario.Graph.finished 0 2000 2500 100])
        "scan-0" ScanState.ABORTED None 9000 = resolved (g', row)
      /\ Neo4j_stateAt g' 0 = Some ("scan-0"%string, ScanState.ABORTED)).
Proof.
  destruct terminal_state_kept_unless_addressed as [Hpg Hneo]. split.
  - exact (proj1 (Hpg (Scenario.Relational.store
                         [Scenario.Relational.finished 1 2000 2500 100])
                    0%nat (Scenario.Relational.finished 1 2000 2500 100)
                    eq_refl eq_refl)
             ScanState.ABORTED None 9000).
  - exact (proj1 (Hneo Scenario.uuid
                    (Scenario.Graph.store [Scenario.Graph.finished 0 2000 2500 100])
                    0%nat (Scenario.Graph.finished 0 2000 2500 100)
                    eq_refl eq_refl)
             ScanState.ABORTED None 9000).
Defined.

(** C4 as stated fails: [updateScanState] takes a FINISHED scan back to
    RUNNING, and [insertTestResults] with a null score takes it to FAILED,
    on both backends. *)
Lemma terminal_state_left_by_updateScanState :
  terminal ScanState.FINISHED = true
  /\ terminal ScanState.RUNNING = false
  /\ PG.selectScan (Scenario.Relational.store
                      [Scenario.Relational.finished 1 2000 2500 100]) 1
     = Some (Scenario.Relational.finished 1 2000 2500 100)
  /\ (await (db', _) <-
        PG.updateScanState
          (Scenario.Relational.store [Scenario.Relational.finished 1 2000 2500 100])
          1 ScanState.RUNNING None 9000 ;;
      resolved (option_map PG.state (PG.selectScan db' 1)))
     = resolved (Some ScanState.RUNNING)
  /\ (await (db', _) <-
        PG.insertTestResults
          (Scenario.Relational.store [Scenario.Relational.finished 1 2000 2500 100])
          1 1 (Scenario.outcome None None (Some "timeout"%string) []) 9000 ;;
      resolved (option_map PG.state (PG.selectScan db' 1)))
     = resolved (Some ScanState.FAILED)
  /\ (await (g', _) <-
        N4.updateScanState
          (Scenario.Graph.store [Scenario.Graph.finished 0 2000 2500 100])
          "scan-0" ScanState.RUNNING None 9000 ;;
      resolved (option_map N4.state (N4.selectScan g' "scan-0")))
     = resolved (Some ScanState.RUNNING)
  /\ (await (g', _) <-
        N4.insertTestResults Scenario.uuid
          (Scenario.Graph.store [Scenario.Graph.finished 0 2000 2500 100])
          "example_com_1000" "scan-0"
          (Scenario.outcome None None (Some "timeout"%string) []) 9000 ;;
      resolved (option_map N4.state (N4.selectScan g' "scan-0")))
     = resolved (Some ScanState.FAILED).
Proof. repeat split. Qed.

(** ** updateScanState without an error *)

(** On the relational backend the call rewrites the state column and no
    other: every row keeps its other columns. *)
Lemma PostgreSQL_updateScanState_frame (db : PG.Db) (scanId : Z) (st : string) (now : Z)
    (i : nat) (r : PG.ScanRow) :
  nth_error (PG.scans db) i = Some r ->
  exists db' row r',
    PG.updateScanState db scanId st None now = resolved (db', row)
    /\ nth_error (PG.scans db') i = Some r'
    /\ PostgreSQL_sameButState r r'
    /\ PG.sites db' = PG.sites db /\ PG.tests db' = PG.tests db.
Proof.
  intros Hr. unfold PG.updateScanState, PG.updateScans. simpl.
  eexists _, _, _. split; [reflexivity|]. simpl.
  rewrite (nth_error_map_if (fun x => PG.id x =? scanId) (PG.setState st) _ _ _ Hr).
  split; [reflexivity|]. split; [|split; reflexivity].
  destruct (PG.id r =? scanId); repeat split.
Qed.

(** On the graph backend the call removes the end time of the scan it
    addresses, whatever it was: the record it returns and the record a
    later [selectScan] returns both have a null end time. *)
Lemma Neo4j_updateScanState_clears_endTime (g g' : N4.Graph) (scanId st : string)
    (now : Z) (row : N4.ScanRow) :
  N4.updateScanState g scanId st None now = resolved (g', row) ->
  N4.end_time row = None
  /\ option_map N4.end_time (N4.selectScan g' scanId) = Some None.
Proof.
  unfold N4.updateScanState, N4.setScans. intros Hrun.
  destruct (filter _ (N4.Scan g)) as [|n0 rest] eqn:Hn; [discriminate|].
  simpl in Hrun. inversion Hrun; subst. split; [reflexivity|].
  unfold N4.selectScan. simpl.
  rewrite (filter_map_if (fun n => String.eqb (N4.Node.id n) scanId)
             (N4.setProps st None now)) by reflexivity.
  rewrite Hn. reflexivity.
Qed.

(** C8 holds on one backend only.  A finished scan, end time 2500, is
    moved to ABORTED without an error: the relational adapter keeps the end
    time and the error; the graph adapter passes [endTime: null] among the
    properties it sets, which removes the end time of the scan. *)
Theorem updateScanState_without_error_end_time :
  PG.end_time (Scenario.Relational.finished 1 2000 2500 100) = Some 2500
  /\ (await (db', _) <-
        PG.updateScanState
          (Scenario.Relational.store [Scenario.Relational.finished 1 2000 2500 100])
          1 ScanState.ABORTED None 9000 ;;
      resolved (option_map (fun r => (PG.state r, PG.end_time r, PG.error r))
                  (PG.selectScan db' 1)))
     = resolved (Some (ScanState.ABORTED, Some 2500, None))
  /\ N4.selectScan (Scenario.Graph.store [Scenario.Graph.finished 0 2000 2500 100])
       "scan-0"
     = Some (N4._mapScanRow (Scenario.Graph.finished 0 2000 2500 100))
  /\ N4.end_time (N4._mapScanRow (Scenario.Graph.finished 0 2000 2500 100)) = Some 2500
  /\ (await (g', row) <-
        N4.updateScanState
          (Scenario.Graph.store [Scenario.Graph.finished 0 2000 2500 100])
          "scan-0" ScanState.ABORTED None 9000 ;;
      resolved (N4.end_time row,
                option_map (fun r => (N4.state r, N4.end_time r, N4.error r))
                  (N4.selectScan g' "scan-0"),
                map N4.Node.endTime (N4.Scan g')))
     = resolved (None, Some (ScanState.ABORTED, None, None), [None]).
Proof. repeat split. Qed.

(** ** The Scan invariant *)




(** ** The order of the writes of insertTestResults *)

Lemma PostgreSQL_numberRows_records (siteId scanId : Z) (entries : list (string * Types.Test))
    (scan : Types.Scan) (next : Z) (entry : string * Types.Test) :
  In entry entries ->
  exists row,
    In row (PG.numberRows next
              (PG.testValues siteId scanId
                 {| Types.scan := scan; Types.tests := entries |}))
    /\ PostgreSQL_records scanId entry row.
Proof.
  unfold PG.testValues. simpl. revert next.
  induction entries as [|[name t] entries IH]; intros next Hin; [contradiction|].
  destruct Hin as [<- | Hin].
  - eexists. split; [left; reflexivity|]. repeat split.
  - destruct (IH (next + 1) Hin) as (row & Hrow & Hrec).
    exists row. split; [right; exact Hrow | exact Hrec].
Qed.

Lemma PostgreSQL_commits (db : PG.Db) (siteId scanId : Z)
    (scanResult : Types.ScanResult) (now : Z) (r0 : PG.ScanRow) :
  PG.selectScan db scanId = Some r0 ->
  PG.state r0 = ScanState.RUNNING ->
  (forall db' row,
      PG.insertTestResults db siteId scanId scanResult now = resolved (db', row) ->
      last (PG.insertTestResults_commits db siteId scanId scanResult now) db = db')
  /\ (forall d,
      In d (removelast (PG.insertTestResults_commits db siteId scanId scanResult now)) ->
      PG.selectScan d scanId = Some r0)
  /\ (forall d r,
      In d (PG.insertTestResults_commits db siteId scanId scanResult now) ->
      PG.selectScan d scanId = Some r ->
      terminal (PG.state r) = true ->
      forall entry, In entry (Types.tests scanResult) ->
      exists row, In row (PG.selectTestResults d scanId)
                  /\ PostgreSQL_records scanId entry row).
Proof.
  intros Hscan Hstate.
  assert (Hrun0 : forall r, Some r0 = Some r -> terminal (PG.state r) = true -> False).
  { intros r [= <-]. rewrite Hstate. discriminate. }
  unfold PG.insertTestResults, PG.insertTestResults_commits.
  destruct (0 <? List.length (PG.testValues siteId scanId scanResult))%nat eqn:Hlen.
  - unfold PG.insertTests.
    destruct (negb (PG.siteExists db siteId)); [|destruct (negb (PG.scanExists db scanId))].
    + split; [discriminate|]. split; [contradiction|].
      intros d r [<- | []] Hd Ht. rewrite Hscan in Hd. now elim (Hrun0 r).
    + split; [discriminate|]. split; [contradiction|].
      intros d r [<- | []] Hd Ht. rewrite Hscan in Hd. now elim (Hrun0 r).
    + split; [|split].
      * intros db' row [= <- _]. reflexivity.
      * intros d [<- | [<- | []]]; exact Hscan.
      * intros d r [<- | [<- | [<- | []]]] Hd Ht entry Hin.
        -- rewrite Hscan in Hd. now elim (Hrun0 r).
        -- change (PG.selectScan _ scanId) with (PG.selectScan db scanId) in Hd.
           rewrite Hscan in Hd. now elim (Hrun0 r).
        -- destruct scanResult as [scan entries]. simpl in Hin.
           destruct (PostgreSQL_numberRows_records siteId scanId entries scan
                       (PG.tests_id_seq db) entry Hin) as (row & Hrow & Hrec).
           exists row. split; [|exact Hrec].
           unfold PG.selectTestResults. simpl. apply filter_In. split.
           ++ apply in_or_app. right. exact Hrow.
           ++ destruct Hrec as (-> & _). apply Z.eqb_refl.
  - split; [|split].
    + intros db' row [= <- _]. reflexivity.
    + intros d [<- | []]. exact Hscan.
    + intros d r _ _ _ entry Hin.
      apply Nat.ltb_ge in Hlen. unfold PG.testValues in Hlen.
      rewrite length_map in Hlen.
      destruct (Types.tests scanResult); [contradiction | simpl in Hlen; lia].
Qed.

Lemma expand_In {A : Type} (from : list nat) (rel : list (nat * nat)) (nodes : list A)
    (i b : nat) (n : A) :
  In i from -> In (i, b) rel -> nth_error nodes b = Some n ->
  In n (N4.expand from rel nodes).
Proof.
  intros Hi Hrel Hn. unfold N4.expand.
  apply in_flat_map. exists i. split; [exact Hi|].
  apply in_flat_map. exists (i, b). split; [exact Hrel|].
  rewrite Nat.eqb_refl, Hn. now left.
Qed.

Lemma matchFrom_map_if {A : Type} (p : A -> bool) (f : A -> A) (l : list A) (i : nat) :
  (forall x, p (f x) = p x) ->
  N4.matchFrom p i (map (fun x => if p x then f x else x) l) = N4.matchFrom p i l.
Proof.
  intros Hp. revert i. induction l as [|x l IH]; intros i; simpl; [reflexivity|].
  rewrite IH. destruct (p x) eqn:E; [now rewrite Hp, E | now rewrite E].
Qed.

Lemma Neo4j_grows_refl (g : N4.Graph) : Neo4j_grows g g.
Proof. split; exists []; now rewrite app_nil_r. Qed.

Lemma Neo4j_grows_trans (g1 g2 g3 : N4.Graph) :
  Neo4j_grows g1 g2 -> Neo4j_grows g2 g3 -> Neo4j_grows g1 g3.
Proof.
  intros [[ts1 Ht1] [es1 He1]] [[ts2 Ht2] [es2 He2]]. split.
  - exists (ts1 ++ ts2). now rewrite Ht2, Ht1, app_assoc.
  - exists (es1 ++ es2). now rewrite He2, He1, app_assoc.
Qed.

Lemma Neo4j_holdsTest_grows (g g' : N4.Graph) (scan : nat) (scanId : string)
    (entry : string * Types.Test) :
  Neo4j_grows g g' -> Neo4j_holdsTest g scan scanId entry ->
  Neo4j_holdsTest g' scan scanId entry.
Proof.
  intros [[ts Ht] [es He]] (b & n & Hedge & Hnode & Hrest).
  exists b, n. rewrite Ht, He. split; [|split].
  - apply in_or_app. now left.
  - rewrite nth_error_app1; [exact Hnode|]. apply nth_error_Some. congruence.
  - exact Hrest.
Qed.

Section TestQueries.
Variable randomUuid : nat -> string.
Variable scanId : string.

Lemma Neo4j_createTestResult_grows (testData : N4.TestData) (matched : list nat)
    (g : N4.Graph) :
  Neo4j_grows g (fold_left (N4.createTestResult randomUuid scanId testData) matched g).
Proof.
  revert g. induction matched as [|j matched IH]; intros g; simpl.
  - apply Neo4j_grows_refl.
  - eapply Neo4j_grows_trans; [|apply IH].
    split; eexists; reflexivity.
Qed.

Lemma Neo4j_testQueries_grows (queries : list N4.TestData) (g : N4.Graph) :
  Neo4j_grows g (fold_left (N4.runTestQuery randomUuid scanId) queries g).
Proof.
  revert g. induction queries as [|q queries IH]; intros g; simpl.
  - apply Neo4j_grows_refl.
  - eapply Neo4j_grows_trans; [|apply IH]. apply Neo4j_createTestResult_grows.
Qed.

(** The query of one entry leaves its node on the first scan matched. *)
Lemma Neo4j_runTestQuery_holds (g : N4.Graph) (name : string) (test : Types.Test)
    (j : nat) (js : list nat) :
  N4.matchFrom (fun n => String.eqb (N4.Node.id n) scanId) 0 (N4.Scan g) = j :: js ->
  Neo4j_holdsTest
    (N4.runTestQuery randomUuid scanId g
       {| N4.td_name := name; N4.td_expectation := Types.expectation test;
          N4.td_result := Types.result test; N4.td_pass := Types.pass test;
          N4.td_scoreModifier := Types.scoreModifier test;
          N4.td_output := Types.rest test |})
    j scanId (name, test).
Proof.
  intros Hm. unfold N4.runTestQuery. rewrite Hm. simpl.
  eapply Neo4j_holdsTest_grows; [apply Neo4j_createTestResult_grows|].
  exists (List.length (N4.TestResult g)). eexists. simpl. split; [|split].
  - apply in_or_app. right. now left.
  - rewrite nth_error_app2 by lia. rewrite Nat.sub_diag. reflexivity.
  - repeat split.
Qed.

Lemma Neo4j_testQueries_hold (entries : list (string * Types.Test)) (scan : Types.Scan)
    (g : N4.Graph) (j : nat) (js : list nat) (entry : string * Types.Test) :
  N4.matchFrom (fun n => String.eqb (N4.Node.id n) scanId) 0 (N4.Scan g) = j :: js ->
  In entry entries ->
  Neo4j_holdsTest
    (fold_left (N4.runTestQuery randomUuid scanId)
       (N4.testQueries {| Types.scan := scan; Types.tests := entries |}) g)
    j scanId entry.
Proof.
  unfold N4.testQueries. simpl. revert g.
  induction entries as [|[name t] entries IH]; intros g Hm Hin; [contradiction|].
  simpl. destruct Hin as [<- | Hin].
  - eapply Neo4j_holdsTest_grows; [apply Neo4j_testQueries_grows|].
    eapply Neo4j_runTestQuery_holds; eauto.
  - apply IH; [|exact Hin]. now rewrite Neo4j_runTestQuery_Scan.
Qed.

Lemma Neo4j_testCommits_Scan (queries : list N4.TestData) (g d : N4.Graph) :
  In d (N4.testCommits randomUuid scanId g queries) -> N4.Scan d = N4.Scan g.
Proof.
  revert g. induction queries as [|q queries IH]; intros g; simpl; [contradiction|].
  intros [<- | Hin].
  - apply Neo4j_runTestQuery_Scan.
  - rewrite (IH _ Hin). apply Neo4j_runTestQuery_Scan.
Qed.

End TestQueries.

Lemma Neo4j_commits (randomUuid : nat -> string) (g : N4.Graph) (siteId scanId : string)
    (scanResult : Types.ScanResult) (now : Z) (r0 : N4.ScanRow) :
  N4.selectScan g scanId = Some r0 ->
  N4.state r0 = ScanState.RUNNING ->
  (forall g' row,
      N4.insertTestResults randomUuid g siteId scanId scanResult now = resolved (g', row) ->
      last (N4.insertTestResults_commits randomUuid g siteId scanId scanResult now) g = g')
  /\ (forall d,
      In d (removelast
              (N4.insertTestResults_commits randomUuid g siteId scanId scanResult now)) ->
      N4.selectScan d scanId = Some r0)
  /\ (forall d r,
      In d (N4.insertTestResults_commits randomUuid g siteId scanId scanResult now) ->
      N4.selectScan d scanId = Some r ->
      terminal (N4.state r) = true ->
      forall entry, In entry (Types.tests scanResult) ->
      exists row, In row (N4.selectTestResults d scanId)
                  /\ Neo4j_records scanId entry row).
Proof.
  intros Hscan Hstate.
  unfold N4.insertTestResults_commits.
  set (created := N4.testCommits randomUuid scanId g (N4.testQueries scanResult)).
  set (final := fst (N4.setScans (last created g) scanId
                       (N4.setTerminal (Types.scan scanResult) now))).
  change (g :: created ++ [final]) with ((g :: created) ++ [final]).
  assert (Hearly : forall d, In d (g :: created) -> N4.selectScan d scanId = Some r0).
  { intros d [<- | Hd]; [exact Hscan|].
    unfold N4.selectScan.
    rewrite (Neo4j_testCommits_Scan randomUuid scanId _ _ _ Hd). exact Hscan. }
  split; [|split].
  - intros g' row Hrun. rewrite last_last.
    unfold N4.insertTestResults in Hrun.
    subst final. unfold created. rewrite Neo4j_testCommits_last.
    destruct (N4.setScans _ scanId _) as [g2 records].
    destruct records; [discriminate|]. now inversion Hrun.
  - rewrite removelast_last. exact Hearly.
  - intros d r Hd Hsel Hterm entry Hin.
    apply in_app_or in Hd. destruct Hd as [Hd | [<- | []]].
    { rewrite (Hearly d Hd) in Hsel. inversion Hsel; subst r.
      rewrite Hstate in Hterm. discriminate. }
    destruct (Neo4j_selectScan_node _ _ _ Hscan) as (n0 & rest & Hn & _).
    assert (Hex : existsb (fun n => String.eqb (N4.Node.id n) scanId) (N4.Scan g) = true).
    { apply existsb_exists. exists n0.
      apply (proj1 (filter_In (fun n => String.eqb (N4.Node.id n) scanId) n0 (N4.Scan g))).
      rewrite Hn. now left. }
    destruct (matchFrom_cons _ _ 0%nat Hex) as (j & js & Hm).
    destruct scanResult as [scan entries]. simpl in Hin.
    destruct (Neo4j_testQueries_hold randomUuid scanId entries scan g j js entry Hm Hin)
      as (b & n & Hedge & Hnode & Hid & Hname & Hexp & Hres & Hpass & Hout & Hmod).
    clear Hsel Hterm Hearly. subst final. unfold created. clear created.
    rewrite Neo4j_testCommits_last.
    eexists. split.
    + unfold N4.selectTestResults. apply in_map.
      apply (expand_In _ _ _ j b n); [|exact Hedge|exact Hnode].
      simpl.
      rewrite (matchFrom_map_if (fun x => String.eqb (N4.Node.id x) scanId)) by reflexivity.
      rewrite Neo4j_testQueries_Scan, Hm. now left.
    + repeat split; assumption.
Qed.

(** C6: the stores that [insertTestResults] passes through, in order, on a
    scan that is RUNNING.  The last of them is the store of the resolved
    call; every store before the last still shows the scan as it was, in
    RUNNING, which is what a crash between two writes leaves behind; and a
    store that shows the scan in a terminal state holds a TestResult for
    every entry of the tests of the result. *)
Theorem insertTestResults_tests_before_terminal_state
    (scanResult : Types.ScanResult) (now : Z) :
  (forall db siteId scanId r0,
      PG.selectScan db scanId = Some r0 ->
      PG.state r0 = ScanState.RUNNING ->
      (forall db' row,
          PG.insertTestResults db siteId scanId scanResult now = resolved (db', row) ->
          last (PG.insertTestResults_commits db siteId scanId scanResult now) db = db')
      /\ (forall d,
          In d (removelast (PG.insertTestResults_commits db siteId scanId scanResult now)) ->
          PG.selectScan d scanId = Some r0)
      /\ (forall d r,
          In d (PG.insertTestResults_commits db siteId scanId scanResult now) ->
          PG.selectScan d scanId = Some r ->
          terminal (PG.state r) = true ->
          forall entry, In entry (Types.tests scanResult) ->
          exists row, In row (PG.selectTestResults d scanId)
                      /\ PostgreSQL_records scanId entry row))
  /\ (forall randomUuid g siteId scanId r0,
      N4.selectScan g scanId = Some r0 ->
      N4.state r0 = ScanState.RUNNING ->
      (forall g' row,
          N4.insertTestResults randomUuid g siteId scanId scanResult now
          = resolved (g', row) ->
          last (N4.insertTestResults_commits randomUuid g siteId scanId scanResult now) g
          = g')
      /\ (forall d,
          In d (removelast
                  (N4.insertTestResults_commits randomUuid g siteId scanId scanResult now)) ->
          N4.selectScan d scanId = Some r0)
      /\ (forall d r,
          In d (N4.insertTestResults_commits randomUuid g siteId scanId scanResult now) ->
          N4.selectScan d scanId = Some r ->
          terminal (N4.state r) = true ->
          forall entry, In entry (Types.tests scanResult) ->
          exists row, In row (N4.selectTestResults d scanId)
                      /\ Neo4j_records scanId entry row)).
Proof.
  split.
  - intros db siteId scanId r0. apply PostgreSQL_commits.
  - intros randomUuid g siteId scanId r0. apply Neo4j_commits.
Qed.

Lemma insertTestResults_tests_before_terminal_state_witness :
  (forall d,
      In d (removelast
              (PG.insertTestResults_commits
                 (Scenario.Relational.store [Scenario.Relational.running 1 2000]) 1 1
                 (Scenario.outcome (Some 105) (Some "A+"%string) None Scenario.twoTests)
                 2500)) ->
      PG.selectScan d 1 = Some (Scenario.Relational.running 1 2000))
  /\ (forall d,
      In d (removelast
              (N4.insertTestResults_commits Scenario.uuid
                 (Scenario.Graph.store [Scenario.Graph.running 0 2000])
                 "example_com_1000" "scan-0"
                 (Scenario.outcome (Some 105) (Some "A+"%string) None Scenario.twoTests)
                 2500)) ->
      N4.selectScan d "scan-0" = Some (N4._mapScanRow (Scenario.Graph.running 0 2000))).
Proof.
  destruct (insertTestResults_tests_before_terminal_state
              (Scenario.outcome (Some 105) (Some "A+"%string) None Scenario.twoTests) 2500)
    as [Hpg Hneo].
  split.
  - exact (proj1 (proj2 (Hpg (Scenario.Relational.store [Scenario.Relational.running 1 2000])
                           1 1 (Scenario.Relational.running 1 2000) eq_refl eq_refl))).
  - exact (proj1 (proj2 (Hneo Scenario.uuid
                           (Scenario.Graph.store [Scenario.Graph.running 0 2000])
                           "example_com_1000"%string "scan-0"%string
                           (N4._mapScanRow (Scenario.Graph.running 0 2000))
                           eq_refl eq_refl))).
Defined.

(** ** selectScanHostHistory *)

Section ChangePoints.
Context {A : Type} (score : A -> option Z).

Lemma isDistinctFrom_false (a b : option Z) : isDistinctFrom a b = false -> a = b.
Proof.
  destruct a as [x|], b as [y|]; simpl; try discriminate; [|reflexivity].
  intros H. apply negb_false_iff, Z.eqb_eq in H. now subst.
Qed.

Lemma isDistinctFrom_sym (a b : option Z) : isDistinctFrom a b = isDistinctFrom b a.
Proof.
  destruct a as [x|], b as [y|]; simpl; try reflexivity.
  now rewrite Z.eqb_sym.
Qed.

Lemma orderBy_sorted (le : A -> A -> bool) (l : list A) :
  StronglySorted (fun a b => le a b = true) l -> orderBy le l = l.
Proof.
  induction 1 as [|x l Hs IH Hall]; [reflexivity|].
  simpl. rewrite IH. destruct l as [|y l]; [reflexivity|].
  simpl. inversion Hall as [|? ? Hxy _]; subst. now rewrite Hxy.
Qed.

Lemma StronglySorted_weaken (R R' : A -> A -> Prop) (l : list A) :
  (forall a b, R a b -> R' a b) -> StronglySorted R l -> StronglySorted R' l.
Proof.
  intros Himp. induction 1 as [|x l Hs IH Hall]; constructor; [exact IH|].
  eapply Forall_impl; [|exact Hall]. intros b. apply Himp.
Qed.

Lemma firstOfRuns_Forall (P : A -> Prop) (prev : option Z) (l : list A) :
  Forall P l -> Forall P (firstOfRuns score prev l).
Proof.
  intros H. revert prev. induction H as [|x l Hx Hl IH]; intros prev; simpl.
  - constructor.
  - destruct (isDistinctFrom (score x) prev); [constructor|]; auto.
Qed.

Lemma firstOfRuns_sorted (R : A -> A -> Prop) (prev : option Z) (l : list A) :
  StronglySorted R l -> StronglySorted R (firstOfRuns score prev l).
Proof.
  intros H. revert prev. induction H as [|x l Hs IH Hall]; intros prev; simpl.
  - constructor.
  - destruct (isDistinctFrom (score x) prev); [|apply IH].
    constructor; [apply IH | now apply firstOfRuns_Forall].
Qed.

(** The earliest scan opens the first run. *)
Lemma firstOfRuns_earliest (x : A) (l : list A) :
  score x <> None ->
  firstOfRuns score None (x :: l) = x :: firstOfRuns score (score x) l.
Proof.
  intros Hx. simpl. destruct (score x); [reflexivity | now elim Hx].
Qed.

(** Two neighbours among the change points never have the same score. *)
Lemma firstOfRuns_adjacent (prev : option Z) (l before after : list A) (x y : A) :
  firstOfRuns score prev l = before ++ x :: y :: after -> score x <> score y.
Proof.
  revert prev before. induction l as [|z l IH]; intros prev before; simpl.
  - destruct before; discriminate.
  - destruct (isDistinctFrom (score z) prev) eqn:Hz; [|apply IH].
    destruct before as [|b before]; simpl.
    + intros [= -> Hrest]. destruct l as [|w l]; [discriminate|].
      clear IH. revert Hrest. generalize (w :: l). intros l'.
      induction l' as [|v l' IHl]; simpl; [discriminate|].
      destruct (isDistinctFrom (score v) (score x)) eqn:Hv; [|exact IHl].
      intros [= -> _] Heq. rewrite Heq in Hv.
      destruct (score y) as [s|]; simpl in Hv; [|discriminate].
      now rewrite Z.eqb_refl in Hv.
    + intros [= _ Hrest]. exact (IH _ _ Hrest).
Qed.

End ChangePoints.

Lemma StronglySorted_of_map {A B : Type} (f : A -> B) (R : B -> B -> Prop) (l : list A) :
  StronglySorted R (map f l) -> StronglySorted (fun a b => R (f a) (f b)) l.
Proof.
  induction l as [|x l IH]; simpl; intros H; constructor;
    apply StronglySorted_inv in H as [Hs Hall].
  - now apply IH.
  - exact (proj1 (Forall_map f (R (f x)) l) Hall).
Qed.

Lemma StronglySorted_to_map {A B : Type} (f : A -> B) (R : B -> B -> Prop) (l : list A) :
  StronglySorted (fun a b => R (f a) (f b)) l -> StronglySorted R (map f l).
Proof.
  induction 1 as [|x l Hs IH Hall]; simpl; constructor; [exact IH|].
  exact (proj2 (Forall_map f (R (f x)) l) Hall).
Qed.

(** The window function and the outer filter keep the change points. *)
Lemma PostgreSQL_lagScore_changed (prev : option Z) (rows : list PG.ScanRow) :
  map fst (filter (fun '(r, prev_score) => isDistinctFrom (PG.score r) prev_score)
             (PG.lagScore prev rows))
  = firstOfRuns PG.score prev rows.
Proof.
  revert prev. induction rows as [|r rows IH]; intros prev; simpl; [reflexivity|].
  destruct (isDistinctFrom (PG.score r) prev) eqn:E; simpl.
  - now rewrite IH.
  - rewrite IH. now rewrite (isDistinctFrom_false _ _ E).
Qed.

(** On the relational backend the history of scans stored in order of time
    is the list of their change points: the earliest scan, when it has a
    score, and after it every scan whose score differs from the score of
    the scan before it. *)
Lemma PostgreSQL_history_first_of_runs (db : PG.Db) (siteId : Z) :
  PostgreSQL_chronological
    (filter (fun r => (PG.site_id r =? siteId)
                      && String.eqb (PG.state r) ScanState.FINISHED) (PG.scans db)) ->
  PG.selectScanHostHistory db siteId
  = map PG.historyRow
      (firstOfRuns PG.score None
         (filter (fun r => (PG.site_id r =? siteId)
                           && String.eqb (PG.state r) ScanState.FINISHED) (PG.scans db))).
Proof.
  unfold PostgreSQL_chronological, PG.selectScanHostHistory.
  set (rows := filter _ (PG.scans db)). intros Hchron.
  rewrite (orderBy_sorted (fun a b => ascNullsLast (PG.end_time a) (PG.end_time b)) rows)
    by (eapply StronglySorted_weaken; [|exact Hchron]; now intros a b [_ H]).
  rewrite <- PostgreSQL_lagScore_changed.
  set (changed := filter _ (PG.lagScore None rows)).
  rewrite orderBy_sorted.
  - rewrite map_map. apply map_ext. now intros [r p].
  - apply (StronglySorted_of_map fst
             (fun a b => (PG.start_time a <=? PG.start_time b) = true)).
    unfold changed. rewrite PostgreSQL_lagScore_changed.
    apply firstOfRuns_sorted.
    eapply StronglySorted_weaken; [|exact Hchron].
    intros a b [H _]. now apply Z.leb_le.
Qed.

(** So, on the relational backend, the earliest scan of a site heads its
    history and no two neighbours of the history have the same score. *)
Lemma PostgreSQL_history_earliest (db : PG.Db) (siteId : Z)
    (first : PG.ScanRow) (later : list PG.ScanRow) :
  filter (fun r => (PG.site_id r =? siteId)
                   && String.eqb (PG.state r) ScanState.FINISHED) (PG.scans db)
  = first :: later ->
  PostgreSQL_chronological (first :: later) ->
  PG.score first <> None ->
  exists rest, PG.selectScanHostHistory db siteId = PG.historyRow first :: rest.
Proof.
  intros Hrows Hchron Hscore.
  rewrite PostgreSQL_history_first_of_runs by (now rewrite Hrows).
  rewrite Hrows, firstOfRuns_earliest by exact Hscore.
  simpl. eauto.
Qed.

Lemma PostgreSQL_history_neighbours (db : PG.Db) (siteId : Z)
    (before after : list (History Z)) (x y : History Z) :
  PostgreSQL_chronological
    (filter (fun r => (PG.site_id r =? siteId)
                      && String.eqb (PG.state r) ScanState.FINISHED) (PG.scans db)) ->
  PG.selectScanHostHistory db siteId = before ++ x :: y :: after ->
  history_score x <> history_score y.
Proof.
  intros Hchron Hhist.
  rewrite PostgreSQL_history_first_of_runs in Hhist by exact Hchron.
  apply map_eq_app in Hhist as (l1 & l2 & Hl & _ & Hhist).
  apply map_eq_cons in Hhist as (a & l3 & -> & <- & Hhist).
  apply map_eq_cons in Hhist as (b & l4 & -> & <- & _).
  simpl. exact (firstOfRuns_adjacent PG.score _ _ _ _ _ _ Hl).
Qed.

Lemma range_from_zero (n : nat) :
  N4.range 0 (Z.of_nat n - 2) = map Z.of_nat (seq 0 (n - 1)).
Proof.
  unfold N4.range. destruct (Z.ltb_spec (Z.of_nat n - 2) 0) as [Hlt | Hge].
  - replace (n - 1)%nat with 0%nat by lia. reflexivity.
  - replace (Z.to_nat (Z.of_nat n - 2 - 0 + 1)) with (n - 1)%nat by lia.
    apply map_ext. intros k. lia.
Qed.

(** The pairs (prev, curr) of the graph query, taken along the list. *)
Lemma Neo4j_pairs_changed (scans : list N4.Node.Scan) :
  flat_map (fun idx =>
    match nth_error scans (Z.to_nat idx), nth_error scans (Z.to_nat (idx + 1)) with
    | Some prev, Some curr =>
        if isDistinctFrom (N4.Node.score prev) (N4.Node.score curr)
        then [N4.historyMap curr] else []
    | _, _ => []
    end) (N4.range 0 (Z.of_nat (List.length scans) - 2))
  = map N4.historyMap
      match scans with
      | [] => []
      | first :: later => firstOfRuns N4.Node.score (N4.Node.score first) later
      end.
Proof.
  rewrite range_from_zero, flat_map_concat_map, map_map, <- flat_map_concat_map.
  induction scans as [|x scans IH]; [reflexivity|].
  destruct scans as [|y scans]; [reflexivity|].
  replace (List.length (x :: y :: scans) - 1)%nat with (S (List.length (y :: scans) - 1))
    by (simpl; lia).
  rewrite <- cons_seq, <- seq_shift. simpl flat_map at 1.
  rewrite flat_map_concat_map, map_map, <- flat_map_concat_map.
  replace (Z.to_nat (Z.of_nat 0)) with 0%nat by reflexivity.
  replace (Z.to_nat (Z.of_nat 0 + 1)) with 1%nat by reflexivity.
  cbn [nth_error].
  rewrite (flat_map_ext _
             (fun k => match nth_error (y :: scans) (Z.to_nat (Z.of_nat k)),
                             nth_error (y :: scans) (Z.to_nat (Z.of_nat k + 1)) with
                       | Some prev, Some curr =>
                           if isDistinctFrom (N4.Node.score prev) (N4.Node.score curr)
                           then [N4.historyMap curr] else []
                       | _, _ => []
                       end)).
  2:{ intros k.
      replace (Z.to_nat (Z.of_nat (S k))) with (S (Z.to_nat (Z.of_nat k))) by lia.
      replace (Z.to_nat (Z.of_nat (S k) + 1)) with (S (Z.to_nat (Z.of_nat k + 1))) by lia.
      reflexivity. }
  change (List.length scans - 0)%nat with (List.length (y :: scans) - 1)%nat.
  rewrite IH. cbn [firstOfRuns].
  rewrite (isDistinctFrom_sym (N4.Node.score y) (N4.Node.score x)).
  destruct (isDistinctFrom (N4.Node.score x) (N4.Node.score y)) eqn:E; [reflexivity|].
  now rewrite (isDistinctFrom_false _ _ E).
Qed.

(** On the graph backend the history of scans stored in order of time is
    the list of the change points after the earliest scan: the earliest
    scan itself is never part of it. *)
Lemma Neo4j_history_drops_earliest (g : N4.Graph) (siteId : string) :
  Neo4j_chronological
    (filter (fun n => String.eqb (N4.Node.state n) ScanState.FINISHED
                      && match N4.Node.score n with Some _ => true | None => false end)
       (N4.expand (N4.matchFrom (fun s => String.eqb (N4.Node.site_id s) siteId) 0
                     (N4.Site g))
          (N4.HAS_SCAN g) (N4.Scan g))) ->
  N4.selectScanHostHistory g siteId
  = map N4.historyMap
      match filter (fun n => String.eqb (N4.Node.state n) ScanState.FINISHED
                      && match N4.Node.score n with Some _ => true | None => false end)
              (N4.expand (N4.matchFrom (fun s => String.eqb (N4.Node.site_id s) siteId) 0
                            (N4.Site g))
                 (N4.HAS_SCAN g) (N4.Scan g)) with
      | [] => []
      | first :: later => firstOfRuns N4.Node.score (N4.Node.score first) later
      end.
Proof.
  unfold Neo4j_chronological, N4.selectScanHostHistory.
  set (scans := filter _ (N4.expand _ _ _)). intros Hchron.
  assert (Hle : StronglySorted
                  (fun a b => (N4.Node.startTime a <=? N4.Node.startTime b) = true) scans).
  { eapply StronglySorted_weaken; [|exact Hchron]. intros a b H. now apply Z.leb_le. }
  rewrite (orderBy_sorted _ scans Hle), Neo4j_pairs_changed.
  apply orderBy_sorted.
  apply (StronglySorted_to_map N4.historyMap
           (fun a b => (history_end_time a <=? history_end_time b) = true)).
  destruct scans as [|first later]; [constructor|].
  apply firstOfRuns_sorted. now apply StronglySorted_inv in Hle.
Qed.

(** C1 holds on one backend only.  Three FINISHED scans of one site with
    the scores 100, 100, 90 in order of time: the relational adapter
    returns the first and the third; the graph adapter pairs every scan
    with the one before it and returns the later one of each pair whose
    scores differ, so the earliest scan is never returned: its history is
    the third scan alone, and the history of a site with a single scan is
    empty. *)
Theorem selectScanHostHistory_three_scans :
  map (fun h => (history_id h, history_score h))
    (PG.selectScanHostHistory
       (Scenario.Relational.store
          [Scenario.Relational.finished 1 2000 2500 100;
           Scenario.Relational.finished 2 3000 3500 100;
           Scenario.Relational.finished 3 4000 4500 90]) 1)
  = [(1, Some 100); (3, Some 90)]
  /\ map (fun h => (history_id h, history_score h))
       (N4.selectScanHostHistory
          (Scenario.Graph.store
             [Scenario.Graph.finished 0 2000 2500 100;
              Scenario.Graph.finished 1 3000 3500 100;
              Scenario.Graph.finished 2 4000 4500 90]) "example_com_1000")
     = [("scan-2"%string, Some 90)]
  /\ map (fun h => (history_id h, history_score h))
       (PG.selectScanHostHistory
          (Scenario.Relational.store [Scenario.Relational.finished 1 2000 2500 100]) 1)
     = [(1, Some 100)]
  /\ N4.selectScanHostHistory
       (Scenario.Graph.store [Scenario.Graph.finished 0 2000 2500 100])
       "example_com_1000"
     = [].
Proof. repeat split. Qed.

(** * Further properties of the adapters *)

(** ** ORDER BY and LIMIT 1 *)

Section OrderByFacts.
Context {A : Type} (le : A -> A -> bool).
Hypothesis le_total : forall a b, le a b = true \/ le b a = true.
Hypothesis le_trans : forall a b c, le a b = true -> le b c = true -> le a c = true.

Lemma insertOrdered_Permutation (x : A) (l : list A) :
  Permutation (insertOrdered le x l) (x :: l).
Proof.
  induction l as [|y l IH]; simpl; [reflexivity|].
  destruct (le x y); [reflexivity|].
  rewrite IH. apply perm_swap.
Qed.

Lemma orderBy_Permutation (l : list A) : Permutation (orderBy le l) l.
Proof.
  induction l as [|x l IH]; simpl; [reflexivity|].
  rewrite insertOrdered_Permutation. now constructor.
Qed.

Lemma insertOrdered_sorted (x : A) (l : list A) :
  StronglySorted (fun a b => le a b = true) l ->
  StronglySorted (fun a b => le a b = true) (insertOrdered le x l).
Proof.
  induction 1 as [|y l Hs IH Hall]; simpl.
  - repeat constructor.
  - destruct (le x y) eqn:Hxy.
    + constructor; [now constructor|]. constructor; [exact Hxy|].
      eapply Forall_impl; [|exact Hall]. intros z Hyz. eapply le_trans; eauto.
    + constructor; [exact IH|].
      apply (Permutation_Forall (Permutation_sym (insertOrdered_Permutation x l))).
      constructor; [|exact Hall].
      destruct (le_total x y) as [H | H]; [congruence | exact H].
Qed.

Lemma orderBy_StronglySorted (l : list A) :
  StronglySorted (fun a b => le a b = true) (orderBy le l).
Proof.
  induction l as [|x l IH]; simpl; [constructor | now apply insertOrdered_sorted].
Qed.

(** The row a LIMIT 1 keeps is a row of the input that comes first in the
    order; without rows there is none. *)
Lemma orderBy_first (l : list A) (x : A) :
  hd_error (firstn 1 (orderBy le l)) = Some x ->
  In x l /\ forall y, In y l -> le x y = true.
Proof.
  pose proof (orderBy_Permutation l) as Hperm.
  pose proof (orderBy_StronglySorted l) as Hsort.
  destruct (orderBy le l) as [|z rest]; simpl; [discriminate|].
  intros [= ->]. split.
  - apply (Permutation_in _ Hperm). now left.
  - intros y Hy. apply (Permutation_in _ (Permutation_sym Hperm)) in Hy.
    destruct Hy as [<- | Hy].
    + destruct (le_total x x); assumption.
    + apply StronglySorted_inv in Hsort as [_ Hall].
      exact (proj1 (Forall_forall _ _) Hall y Hy).
Qed.

Lemma orderBy_first_none (l : list A) :
  hd_error (firstn 1 (orderBy le l)) = None <-> l = [].
Proof.
  split.
  - intros H. apply orderBy_nil with (le := le).
    destruct (orderBy le l); [reflexivity | discriminate].
  - intros ->. reflexivity.
Qed.

End OrderByFacts.

Lemma descending_total {A : Type} (key : A -> Z) (a b : A) :
  (key b <=? key a) = true \/ (key a <=? key b) = true.
Proof. destruct (Z.leb_spec (key b) (key a)); [now left | right; apply Z.leb_le; lia]. Qed.

Lemma descending_trans {A : Type} (key : A -> Z) (a b c : A) :
  (key b <=? key a) = true -> (key c <=? key b) = true -> (key c <=? key a) = true.
Proof. rewrite !Z.leb_le. lia. Qed.

Lemma ascending_total {A : Type} (key : A -> Z) (a b : A) :
  (key a <=? key b) = true \/ (key b <=? key a) = true.
Proof. destruct (Z.leb_spec (key a) (key b)); [now left | right; apply Z.leb_le; lia]. Qed.

Lemma ascending_trans {A : Type} (key : A -> Z) (a b c : A) :
  (key a <=? key b) = true -> (key b <=? key c) = true -> (key a <=? key c) = true.
Proof. rewrite !Z.leb_le. lia. Qed.

Lemma ascNullsLast_total {A : Type} (key : A -> option Z) (a b : A) :
  ascNullsLast (key a) (key b) = true \/ ascNullsLast (key b) (key a) = true.
Proof.
  destruct (key a) as [x|], (key b) as [y|]; simpl; auto.
  destruct (Z.leb_spec x y); [now left | right; apply Z.leb_le; lia].
Qed.

Lemma ascNullsLast_trans {A : Type} (key : A -> option Z) (a b c : A) :
  ascNullsLast (key a) (key b) = true -> ascNullsLast (key b) (key c) = true ->
  ascNullsLast (key a) (key c) = true.
Proof.
  destruct (key a) as [x|], (key b) as [y|], (key c) as [z|]; simpl;
    try discriminate; auto.
  rewrite !Z.leb_le. lia.
Qed.

Lemma latest_first {A : Type} (key : A -> Z) (candidates : list A) (x : A) :
  hd_error (firstn 1 (orderBy (fun a b => key b <=? key a) candidates)) = Some x ->
  In x candidates /\ forall y, In y candidates -> key y <= key x.
Proof.
  intros H.
  destruct (orderBy_first (fun a b => key b <=? key a)
              (descending_total key) (fun a b c => descending_trans key a b c)
              candidates x H) as [Hin Hmax].
  split; [exact Hin|]. intros y Hy. apply Z.leb_le. now apply Hmax.
Qed.

Lemma filter_nil_iff {A : Type} (p : A -> bool) (l : list A) :
  filter p l = [] <-> forall x, In x l -> p x = false.
Proof.
  induction l as [|y l IH]; simpl.
  - split; [contradiction | reflexivity].
  - destruct (p y) eqn:E; split.
    + discriminate.
    + intros H. specialize (H y (or_introl eq_refl)). congruence.
    + intros H x [<- | Hx]; [exact E | now apply IH].
    + intros H. apply IH. auto.
Qed.

Lemma matchFrom_In {A : Type} (p : A -> bool) (l : list A) (k i : nat) :
  In i (N4.matchFrom p k l) <->
  (k <= i)%nat /\ exists x, nth_error l (i - k) = Some x /\ p x = true.
Proof.
  revert k. induction l as [|y l IH]; intros k; simpl.
  - split; [contradiction|]. intros (_ & x & Hx & _).
    destruct (i - k)%nat; discriminate.
  - rewrite in_app_iff, IH. split.
    + intros [Hhd | (Hle & x & Hx & Hp)].
      * destruct (p y) eqn:E; [|contradiction]. destruct Hhd as [<- | []].
        split; [lia|]. exists y. rewrite Nat.sub_diag. auto.
      * split; [lia|]. exists x. split; [|exact Hp].
        replace (i - k)%nat with (S (i - S k)) by lia. exact Hx.
    + intros (Hle & x & Hx & Hp).
      destruct (Nat.eq_dec i k) as [-> | Hne].
      * left. rewrite Nat.sub_diag in Hx. simpl in Hx. inversion Hx; subst.
        rewrite Hp. now left.
      * right. split; [lia|]. exists x. split; [|exact Hp].
        replace (i - k)%nat with (S (i - S k)) in Hx by lia. exact Hx.
Qed.

Lemma expand_In_iff {A : Type} (from : list nat) (rel : list (nat * nat))
    (nodes : list A) (n : A) :
  In n (N4.expand from rel nodes) <->
  exists i b, In i from /\ In (i, b) rel /\ nth_error nodes b = Some n.
Proof.
  unfold N4.expand. rewrite in_flat_map. split.
  - intros (i & Hi & Hn). apply in_flat_map in Hn as ([a b] & Hrel & Hn).
    destruct (Nat.eqb_spec a i) as [-> | _]; [|contradiction].
    destruct (nth_error nodes b) as [m|] eqn:E; [|contradiction].
    destruct Hn as [<- | []]. eauto.
  - intros (i & b & Hi & Hrel & Hn). exists i. split; [exact Hi|].
    apply in_flat_map. exists (i, b). split; [exact Hrel|].
    rewrite Nat.eqb_refl, Hn. now left.
Qed.

Lemma Neo4j_hasScan_iff (g : N4.Graph) (p : N4.Node.Site -> bool) (n : N4.Node.Scan) :
  In n (N4.expand (N4.matchFrom p 0 (N4.Site g)) (N4.HAS_SCAN g) (N4.Scan g))
  <-> Neo4j_hasScan g p n.
Proof.
  rewrite expand_In_iff. unfold Neo4j_hasScan. split.
  - intros (a & b & Ha & Hrel & Hn). apply matchFrom_In in Ha as (_ & s & Hs & Hp).
    rewrite Nat.sub_0_r in Hs. exists a, b, s. auto.
  - intros (a & b & s & Hs & Hp & Hrel & Hn). exists a, b. split; [|auto].
    apply matchFrom_In. split; [lia|]. exists s. rewrite Nat.sub_0_r. auto.
Qed.

(** ** selectScanRecentScan *)

(** The scan returned is a FINISHED scan of the site that started inside
    the window, and no FINISHED scan of the site inside the window started
    later; the result is undefined exactly when every FINISHED scan of the
    site started before the window.  The window is [recentInSeconds], or
    the default when the argument is left out: [CONFIG.api.cooldown] on
    the relational backend, sixty seconds on the graph backend. *)
Theorem selectScanRecentScan_latest_in_window (recentInSeconds : option Z) (now : Z) :
  (forall cooldown db siteId,
      (forall r,
          PG.selectScanRecentScan cooldown db siteId recentInSeconds now = Some r ->
          In r (PG.scans db) /\ PG.site_id r = siteId
          /\ PG.state r = ScanState.FINISHED
          /\ now - orDefault recentInSeconds cooldown * 1000 <= PG.start_time r
          /\ forall r', In r' (PG.scans db) -> PG.site_id r' = siteId ->
                        PG.state r' = ScanState.FINISHED ->
                        now - orDefault recentInSeconds cooldown * 1000 <= PG.start_time r' ->
                        PG.start_time r' <= PG.start_time r)
      /\ (PG.selectScanRecentScan cooldown db siteId recentInSeconds now = None <->
          forall r', In r' (PG.scans db) -> PG.site_id r' = siteId ->
                     PG.state r' = ScanState.FINISHED ->
                     PG.start_time r' < now - orDefault recentInSeconds cooldown * 1000))
  /\ (forall g siteId,
      (forall row,
          N4.selectScanRecentScan g siteId recentInSeconds now = Some row ->
          exists n,
            row = N4._mapScanRow n
            /\ Neo4j_hasScan g (fun s => String.eqb (N4.Node.site_id s) siteId) n
            /\ N4.Node.state n = ScanState.FINISHED
            /\ now - orDefault recentInSeconds 60 * 1000 <= N4.Node.startTime n
            /\ forall n',
                Neo4j_hasScan g (fun s => String.eqb (N4.Node.site_id s) siteId) n' ->
                N4.Node.state n' = ScanState.FINISHED ->
                now - orDefault recentInSeconds 60 * 1000 <= N4.Node.startTime n' ->
                N4.Node.startTime n' <= N4.Node.startTime n)
      /\ (N4.selectScanRecentScan g siteId recentInSeconds now = None <->
          forall n',
            Neo4j_hasScan g (fun s => String.eqb (N4.Node.site_id s) siteId) n' ->
            N4.Node.state n' = ScanState.FINISHED ->
            N4.Node.startTime n' < now - orDefault recentInSeconds 60 * 1000)).
Proof.
  split.
  - intros cooldown db siteId. unfold PG.selectScanRecentScan, PG.notOlderThan.
    change (match recentInSeconds with Some n => n | None => cooldown end)
      with (orDefault recentInSeconds cooldown).
    set (w := orDefault recentInSeconds cooldown). split.
    + intros r H. apply latest_first in H as [Hin Hmax].
      apply filter_In in Hin as [Hin Hp].
      apply andb_prop in Hp as [Hp Hst]. apply andb_prop in Hp as [Hsite Hw].
      apply Z.eqb_eq in Hsite. apply Z.leb_le in Hw. apply String.eqb_eq in Hst.
      repeat split; try assumption.
      intros r' Hin' Hsite' Hst' Hw'. apply Hmax. apply filter_In. split; [exact Hin'|].
      rewrite Hsite', Hst', Z.eqb_refl. simpl.
      rewrite (proj2 (Z.leb_le _ _) Hw'). reflexivity.
    + rewrite orderBy_first_none, filter_nil_iff. split.
      * intros H r' Hin Hsite Hst. specialize (H r' Hin).
        rewrite Hsite, Hst, Z.eqb_refl in H. simpl in H.
        rewrite andb_true_r in H. apply Z.leb_gt in H. exact H.
      * intros H r' Hin.
        destruct (Z.eqb_spec (PG.site_id r') siteId) as [Hsite | _]; [|reflexivity].
        destruct (String.eqb_spec (PG.state r') ScanState.FINISHED) as [Hst | _];
          [|now rewrite andb_false_r].
        simpl. rewrite andb_true_r. apply Z.leb_gt. now apply H.
  - intros g siteId. unfold N4.selectScanRecentScan.
    change (match recentInSeconds with Some n => n | None => 60 end)
      with (orDefault recentInSeconds 60).
    set (w := orDefault recentInSeconds 60).
    set (candidates := filter _ (N4.expand _ _ _)).
    assert (Hcand : forall n, In n candidates <->
              Neo4j_hasScan g (fun s => String.eqb (N4.Node.site_id s) siteId) n
              /\ N4.Node.state n = ScanState.FINISHED
              /\ now - w * 1000 <= N4.Node.startTime n).
    { intros n. unfold candidates. rewrite filter_In, Neo4j_hasScan_iff.
      rewrite andb_true_iff, String.eqb_eq, Z.leb_le. tauto. }
    split.
    + intros row H.
      destruct (firstn 1 _) as [|n rest] eqn:E; [discriminate|].
      inversion H; subst row. exists n.
      assert (Hhd : hd_error (firstn 1 (orderBy (fun a b => N4.Node.startTime b
                                                   <=? N4.Node.startTime a) candidates))
                    = Some n) by now rewrite E.
      apply latest_first in Hhd as [Hin Hmax].
      apply Hcand in Hin as (Hown & Hst & Hw).
      repeat split; try assumption.
      intros n' Hown' Hst' Hw'. apply Hmax. apply Hcand. auto.
    + split.
      * intros H n' Hown Hst.
        destruct (firstn 1 _) as [|n rest] eqn:E; [|discriminate].
        assert (Hnil : candidates = []).
        { apply (orderBy_first_none (fun a b => N4.Node.startTime b <=? N4.Node.startTime a)).
          now rewrite E. }
        destruct (Z.lt_ge_cases (N4.Node.startTime n') (now - w * 1000)) as [Hlt | Hge];
          [exact Hlt|].
        assert (Hin : In n' candidates) by (apply Hcand; auto).
        rewrite Hnil in Hin. contradiction.
      * intros H.
        destruct (firstn 1 _) as [|n rest] eqn:E; [reflexivity|].
        assert (Hhd : hd_error (firstn 1 (orderBy (fun a b => N4.Node.startTime b
                                                     <=? N4.Node.startTime a) candidates))
                      = Some n) by now rewrite E.
        apply latest_first in Hhd as [Hin _].
        apply Hcand in Hin as (Hown & Hst & Hw).
        specialize (H n Hown Hst). lia.
Qed.

Lemma selectScanRecentScan_latest_in_window_witness :
  PG.selectScanRecentScan 60
    (Scenario.Relational.store [Scenario.Relational.finished 1 2000 2500 100])
    1 (Some 60) 122000 = None
  /\ N4.selectScanRecentScan
       (Scenario.Graph.store [Scenario.Graph.finished 0 2000 2500 100])
       "example_com_1000" (Some 60) 122000 = None.
Proof.
  destruct (selectScanRecentScan_latest_in_window (Some 60) 122000) as [Hpg Hneo].
  split.
  - apply (proj2 (Hpg 60 (Scenario.Relational.store
                            [Scenario.Relational.finished 1 2000 2500 100]) 1)).
    intros r' [<- | []] _ _. simpl. lia.
  - apply (proj2 (Hneo (Scenario.Graph.store [Scenario.Graph.finished 0 2000 2500 100])
                    "example_com_1000"%string)).
    intros n' (a & b & s & _ & _ & Hedge & Hn) _.
    destruct Hedge as [[= <- <-] | []]. simpl in Hn. inversion Hn. simpl. lia.
Defined.

(** ** selectScanLatestScanByHost *)

Lemma PostgreSQL_joinSites_In (db : PG.Db) (r : PG.ScanRow) (s : PG.SiteRow) :
  In (r, s) (PG.joinSites db)
  <-> In r (PG.scans db) /\ In s (PG.sites db) /\ PG.site_id r = PG.sites_id s.
Proof.
  unfold PG.joinSites. rewrite in_flat_map. split.
  - intros (r0 & Hr & Hin). apply in_map_iff in Hin as (s0 & [= <- <-] & Hs).
    apply filter_In in Hs as [Hs Hid]. apply Z.eqb_eq in Hid. auto.
  - intros (Hr & Hs & Hid). exists r. split; [exact Hr|].
    apply in_map. apply filter_In. split; [exact Hs|]. now apply Z.eqb_eq.
Qed.

(** The scan returned is a FINISHED scan of a site with that domain that
    started inside the window, and the latest such scan; the result is
    undefined exactly when there is no such scan.  The window is [maxAge],
    or the default when the argument is left out:
    [CONFIG.api.cacheTimeForGet] on the relational backend, 86400 seconds
    on the graph backend. *)
Theorem selectScanLatestScanByHost_latest_in_window (host : string)
    (maxAge : option Z) (now : Z) :
  (forall cacheTimeForGet db,
      (forall r,
          PG.selectScanLatestScanByHost cacheTimeForGet db host maxAge now = Some r ->
          PostgreSQL_scanOfHost db host r
          /\ PG.state r = ScanState.FINISHED
          /\ now - orDefault maxAge cacheTimeForGet * 1000 <= PG.start_time r
          /\ forall r', PostgreSQL_scanOfHost db host r' ->
                        PG.state r' = ScanState.FINISHED ->
                        now - orDefault maxAge cacheTimeForGet * 1000 <= PG.start_time r' ->
                        PG.start_time r' <= PG.start_time r)
      /\ (PG.selectScanLatestScanByHost cacheTimeForGet db host maxAge now = None <->
          forall r', PostgreSQL_scanOfHost db host r' ->
                     PG.state r' = ScanState.FINISHED ->
                     PG.start_time r' < now - orDefault maxAge cacheTimeForGet * 1000))
  /\ (forall g,
      (forall row,
          N4.selectScanLatestScanByHost g host maxAge now = Some row ->
          exists n,
            row = N4._mapScanRow n
            /\ Neo4j_hasScan g (fun s => String.eqb (N4.Node.domain s) host) n
            /\ N4.Node.state n = ScanState.FINISHED
            /\ now - orDefault maxAge 86400 * 1000 <= N4.Node.startTime n
            /\ forall n',
                Neo4j_hasScan g (fun s => String.eqb (N4.Node.domain s) host) n' ->
                N4.Node.state n' = ScanState.FINISHED ->
                now - orDefault maxAge 86400 * 1000 <= N4.Node.startTime n' ->
                N4.Node.startTime n' <= N4.Node.startTime n)
      /\ (N4.selectScanLatestScanByHost g host maxAge now = None <->
          forall n',
            Neo4j_hasScan g (fun s => String.eqb (N4.Node.domain s) host) n' ->
            N4.Node.state n' = ScanState.FINISHED ->
            N4.Node.startTime n' < now - orDefault maxAge 86400 * 1000)).
Proof.
  split.
  - intros cacheTimeForGet db. unfold PG.selectScanLatestScanByHost, PG.notOlderThan.
    change (match maxAge with Some n => n | None => cacheTimeForGet end)
      with (orDefault maxAge cacheTimeForGet).
    set (w := orDefault maxAge cacheTimeForGet).
    set (candidates := map fst (filter _ (PG.joinSites db))).
    assert (Hcand : forall r, In r candidates <->
              PostgreSQL_scanOfHost db host r
              /\ PG.state r = ScanState.FINISHED /\ now - w * 1000 <= PG.start_time r).
    { intros r. unfold candidates, PostgreSQL_scanOfHost. rewrite in_map_iff. split.
      - intros ([r0 s] & <- & Hin). apply filter_In in Hin as [Hin Hp].
        apply PostgreSQL_joinSites_In in Hin as (Hr & Hs & Hid).
        apply andb_prop in Hp as [Hp Hst]. apply andb_prop in Hp as [Hdom Hw].
        apply String.eqb_eq in Hdom, Hst. apply Z.leb_le in Hw. simpl. eauto 10.
      - intros ((Hr & s & Hs & Hid & Hdom) & Hst & Hw). exists (r, s). split; [reflexivity|].
        apply filter_In. split; [now apply PostgreSQL_joinSites_In|].
        rewrite Hdom, Hst, !String.eqb_refl. simpl.
        rewrite (proj2 (Z.leb_le _ _) Hw). reflexivity. }
    split.
    + intros r H. apply latest_first in H as [Hin Hmax].
      apply Hcand in Hin as (Hown & Hst & Hw). repeat split; try assumption.
      * exact (proj1 Hown).
      * exact (proj2 Hown).
      * intros r' Hown' Hst' Hw'. apply Hmax. apply Hcand. auto.
    + rewrite orderBy_first_none. split.
      * intros Hnil r' Hown Hst.
        destruct (Z.lt_ge_cases (PG.start_time r') (now - w * 1000)) as [Hlt | Hge];
          [exact Hlt|].
        assert (Hin : In r' candidates) by (apply Hcand; auto).
        rewrite Hnil in Hin. contradiction.
      * intros H. destruct candidates as [|r rest] eqn:E; [reflexivity|].
        assert (Hin : In r (r :: rest)) by now left.
        apply Hcand in Hin as (Hown & Hst & Hw). specialize (H r Hown Hst). lia.
  - intros g. unfold N4.selectScanLatestScanByHost.
    change (match maxAge with Some n => n | None => 86400 end)
      with (orDefault maxAge 86400).
    set (w := orDefault maxAge 86400).
    set (candidates := filter _ (N4.expand _ _ _)).
    assert (Hcand : forall n, In n candidates <->
              Neo4j_hasScan g (fun s => String.eqb (N4.Node.domain s) host) n
              /\ N4.Node.state n = ScanState.FINISHED
              /\ now - w * 1000 <= N4.Node.startTime n).
    { intros n. unfold candidates. rewrite filter_In, Neo4j_hasScan_iff.
      rewrite andb_true_iff, String.eqb_eq, Z.leb_le. tauto. }
    split.
    + intros row H.
      destruct (firstn 1 _) as [|n rest] eqn:E; [discriminate|].
      inversion H; subst row. exists n.
      assert (Hhd : hd_error (firstn 1 (orderBy (fun a b => N4.Node.startTime b
                                                   <=? N4.Node.startTime a) candidates))
                    = Some n) by now rewrite E.
      apply latest_first in Hhd as [Hin Hmax].
      apply Hcand in Hin as (Hown & Hst & Hw).
      repeat split; try assumption.
      intros n' Hown' Hst' Hw'. apply Hmax. apply Hcand. auto.
    + split.
      * intros H n' Hown Hst.
        destruct (firstn 1 _) as [|n rest] eqn:E; [|discriminate].
        assert (Hnil : candidates = []).
        { apply (orderBy_first_none (fun a b => N4.Node.startTime b <=? N4.Node.startTime a)).
          now rewrite E. }
        destruct (Z.lt_ge_cases (N4.Node.startTime n') (now - w * 1000)) as [Hlt | Hge];
          [exact Hlt|].
        assert (Hin : In n' candidates) by (apply Hcand; auto).
        rewrite Hnil in Hin. contradiction.
      * intros H.
        destruct (firstn 1 _) as [|n rest] eqn:E; [reflexivity|].
        assert (Hhd : hd_error (firstn 1 (orderBy (fun a b => N4.Node.startTime b
                                                     <=? N4.Node.startTime a) candidates))
                      = Some n) by now rewrite E.
        apply latest_first in Hhd as [Hin _].
        apply Hcand in Hin as (Hown & Hst & Hw).
        specialize (H n Hown Hst). lia.
Qed.

Lemma selectScanLatestScanByHost_latest_in_window_witness :
  PG.selectScanLatestScanByHost 86400
    (Scenario.Relational.store [Scenario.Relational.finished 1 2000 2500 100])
    "other.example" None 5000 = None
  /\ N4.selectScanLatestScanByHost
       (Scenario.Graph.store [Scenario.Graph.finished 0 2000 2500 100])
       "other.example" None 5000 = None.
Proof.
  destruct (selectScanLatestScanByHost_latest_in_window "other.example" None 5000)
    as [Hpg Hneo].
  split.
  - apply (proj2 (Hpg 86400 (Scenario.Relational.store
                               [Scenario.Relational.finished 1 2000 2500 100]))).
    intros r' (_ & s & [<- | []] & _ & Hdom) _. discriminate Hdom.
  - apply (proj2 (Hneo (Scenario.Graph.store [Scenario.Graph.finished 0 2000 2500 100]))).
    intros n' (a & b & s & Hs & Hp & Hedge & _) _.
    destruct Hedge as [[= <- <-] | []]. simpl in Hs. inversion Hs; subst s.
    discriminate Hp.
Defined.

(** ** selectScanById *)

Lemma NoDup_map_In_eq {A B : Type} (f : A -> B) (l : list A) (x y : A) :
  NoDup (map f l) -> In x l -> In y l -> f x = f y -> x = y.
Proof.
  induction l as [|z l IH]; simpl; [contradiction|].
  intros Hnd Hx Hy Hf. apply NoDup_cons_iff in Hnd as [Hz Hnd].
  destruct Hx as [-> | Hx], Hy as [-> | Hy]; auto.
  - elim Hz. rewrite Hf. now apply in_map.
  - elim Hz. rewrite <- Hf. now apply in_map.
Qed.

Lemma hd_error_In {A : Type} (l : list A) (x : A) : hd_error l = Some x -> In x l.
Proof. destruct l; simpl; [discriminate|]. intros [= ->]. now left. Qed.

Lemma hd_error_firstn_one {A : Type} (l : list A) : hd_error (firstn 1 l) = hd_error l.
Proof. now destruct l. Qed.

(** The first row that passes [p], when it also passes [q], is the first
    row that passes both. *)
Lemma hd_error_filter_both {A : Type} (p q : A -> bool) (l : list A) (x : A) :
  hd_error (filter p l) = Some x -> q x = true ->
  hd_error (filter (fun y => p y && q y) l) = Some x.
Proof.
  induction l as [|y l IH]; simpl; [discriminate|].
  destruct (p y) eqn:E; simpl.
  - intros [= ->] Hq. rewrite Hq. reflexivity.
  - exact IH.
Qed.

Lemma filter_filter_and {A : Type} (p q : A -> bool) (l : list A) :
  filter q (filter p l) = filter (fun y => p y && q y) l.
Proof.
  induction l as [|y l IH]; simpl; [reflexivity|].
  destruct (p y); simpl; [|exact IH]. destruct (q y); now rewrite IH.
Qed.

Lemma PostgreSQL_selectScanById_finished (db : PG.Db) (scanId : Z) :
  (forall r, PG.selectScanById db scanId = Some r ->
             In r (PG.scans db) /\ PG.id r = scanId
             /\ PG.state r = ScanState.FINISHED)
  /\ (forall r, PG.selectScan db scanId = Some r ->
                PG.state r = ScanState.FINISHED ->
                PG.selectScanById db scanId = Some r)
  /\ (forall r, NoDup (map PG.id (PG.scans db)) ->
                PG.selectScan db scanId = Some r ->
                PG.state r <> ScanState.FINISHED ->
                PG.selectScanById db scanId = None).
Proof.
  unfold PG.selectScanById, PG.selectScan.
  rewrite hd_error_firstn_one. split; [|split].
  + intros r H. apply hd_error_In, filter_In in H as [Hin Hp].
    apply andb_prop in Hp as [Hid Hst].
    apply Z.eqb_eq in Hid. apply String.eqb_eq in Hst. auto.
  + intros r H Hst.
    apply (hd_error_filter_both _ (fun y => String.eqb (PG.state y) ScanState.FINISHED)
             _ _ H).
    now apply String.eqb_eq.
  + intros r Hnd H Hst.
    destruct (filter (fun r0 => (PG.id r0 =? scanId)
                                && String.eqb (PG.state r0) ScanState.FINISHED)
                (PG.scans db)) as [|y rest] eqn:E; [reflexivity|].
    assert (Hy : In y (filter (fun r0 => (PG.id r0 =? scanId)
                                         && String.eqb (PG.state r0) ScanState.FINISHED)
                        (PG.scans db))) by (rewrite E; now left).
    apply filter_In in Hy as [Hy Hp]. apply andb_prop in Hp as [Hid Hfin].
    apply Z.eqb_eq in Hid. apply String.eqb_eq in Hfin.
    apply hd_error_In, filter_In in H as [Hr Hrid]. apply Z.eqb_eq in Hrid.
    assert (y = r) by (apply (NoDup_map_In_eq PG.id (PG.scans db)); congruence).
    subst y. contradiction.
Qed.

Lemma Neo4j_selectScanById_finished (g : N4.Graph) (scanId : string) :
  (forall row, N4.selectScanById g scanId = Some row ->
               N4.id row = scanId /\ N4.state row = ScanState.FINISHED)
  /\ (forall row, N4.selectScan g scanId = Some row ->
                  N4.state row = ScanState.FINISHED ->
                  N4.selectScanById g scanId = Some row)
  /\ (forall row, NoDup (map N4.Node.id (N4.Scan g)) ->
                  N4.selectScan g scanId = Some row ->
                  N4.state row <> ScanState.FINISHED ->
                  N4.selectScanById g scanId = None).
Proof.
  unfold N4.selectScanById, N4.selectScan.
  rewrite filter_filter_and. split; [|split].
  + intros row H.
    destruct (firstn 1 _) as [|n rest] eqn:E; [discriminate|]. inversion H; subst row.
    assert (Hn : hd_error (firstn 1
                   (filter (fun y => String.eqb (N4.Node.id y) scanId
                                     && String.eqb (N4.Node.state y) ScanState.FINISHED)
                           (N4.Scan g))) = Some n) by now rewrite E.
    rewrite hd_error_firstn_one in Hn.
    apply hd_error_In, filter_In in Hn as [_ Hp]. apply andb_prop in Hp as [Hid Hst].
    apply String.eqb_eq in Hid, Hst. auto.
  + intros row H Hst.
    destruct (filter _ (N4.Scan g)) as [|n rest] eqn:E; [discriminate|].
    inversion H; subst row. simpl in Hst.
    assert (Hboth : hd_error (filter (fun y => String.eqb (N4.Node.id y) scanId
                                && String.eqb (N4.Node.state y) ScanState.FINISHED)
                                (N4.Scan g)) = Some n).
    { apply hd_error_filter_both; [now rewrite E | now apply String.eqb_eq]. }
    destruct (filter (fun y => _ && _) (N4.Scan g)); [discriminate|].
    simpl in Hboth. now inversion Hboth.
  + intros row Hnd H Hst.
    destruct (filter (fun n => String.eqb (N4.Node.id n) scanId) (N4.Scan g))
      as [|n rest] eqn:E; [discriminate|].
    inversion H; subst row. simpl in Hst.
    destruct (filter (fun y => _ && _) (N4.Scan g)) as [|y rest'] eqn:E';
      [reflexivity|].
    assert (Hy : In y (filter (fun y => String.eqb (N4.Node.id y) scanId
                                && String.eqb (N4.Node.state y) ScanState.FINISHED)
                         (N4.Scan g))) by (rewrite E'; now left).
    apply filter_In in Hy as [Hy Hp]. apply andb_prop in Hp as [Hid Hfin].
    apply String.eqb_eq in Hid, Hfin.
    assert (Hn : In n (filter (fun n => String.eqb (N4.Node.id n) scanId) (N4.Scan g)))
      by (rewrite E; now left).
    apply filter_In in Hn as [Hn Hnid]. apply String.eqb_eq in Hnid.
    assert (y = n) by (apply (NoDup_map_In_eq N4.Node.id (N4.Scan g)); congruence).
    subst y. contradiction.
Qed.

(** [selectScanById] returns FINISHED scans only: what it returns has the
    id asked for and the state FINISHED; it returns the scan [selectScan]
    returns whenever that scan is FINISHED, and, where scan ids are unique,
    nothing when that scan is in any other state. *)
Theorem selectScanById_only_finished :
  (forall db scanId,
      (forall r, PG.selectScanById db scanId = Some r ->
                 In r (PG.scans db) /\ PG.id r = scanId
                 /\ PG.state r = ScanState.FINISHED)
      /\ (forall r, PG.selectScan db scanId = Some r ->
                    PG.state r = ScanState.FINISHED ->
                    PG.selectScanById db scanId = Some r)
      /\ (forall r, NoDup (map PG.id (PG.scans db)) ->
                    PG.selectScan db scanId = Some r ->
                    PG.state r <> ScanState.FINISHED ->
                    PG.selectScanById db scanId = None))
  /\ (forall g scanId,
      (forall row, N4.selectScanById g scanId = Some row ->
                   N4.id row = scanId /\ N4.state row = ScanState.FINISHED)
      /\ (forall row, N4.selectScan g scanId = Some row ->
                      N4.state row = ScanState.FINISHED ->
                      N4.selectScanById g scanId = Some row)
      /\ (forall row, NoDup (map N4.Node.id (N4.Scan g)) ->
                      N4.selectScan g scanId = Some row ->
                      N4.state row <> ScanState.FINISHED ->
                      N4.selectScanById g scanId = None)).
Proof.
  split.
  - apply PostgreSQL_selectScanById_finished.
  - apply Neo4j_selectScanById_finished.
Qed.

Lemma selectScanById_only_finished_witness :
  PG.selectScanById (Scenario.Relational.store [Scenario.Relational.running 1 2000]) 1
  = None
  /\ N4.selectScanById (Scenario.Graph.store [Scenario.Graph.finished 0 2000 2500 100])
       "scan-0"
     = Some (N4._mapScanRow (Scenario.Graph.finished 0 2000 2500 100)).
Proof.
  destruct selectScanById_only_finished as [Hpg Hneo]. split.
  - apply (proj2 (proj2 (Hpg (Scenario.Relational.store
                                [Scenario.Relational.running 1 2000]) 1))
             (Scenario.Relational.running 1 2000)).
    + repeat constructor. simpl. tauto.
    + reflexivity.
    + discriminate.
  - apply (proj1 (proj2 (Hneo (Scenario.Graph.store
                                 [Scenario.Graph.finished 0 2000 2500 100])
                           "scan-0"%string))); reflexivity.
Defined.

Lemma PostgreSQL_insertTestResults_ids (db db' : PG.Db) (siteId scanId : Z)
    (scanResult : Types.ScanResult) (now : Z) (row : option PG.ScanRow) :
  PG.insertTestResults db siteId scanId scanResult now = resolved (db', row) ->
  map PG.id (PG.scans db') = map PG.id (PG.scans db)
  /\ PG.sites db' = PG.sites db.
Proof.
  unfold PG.insertTestResults. intros Hrun.
  destruct (if (0 <? _)%nat then _ else _) as [e|db1] eqn:Hfirst; [discriminate|].
  assert (Hsame : PG.scans db1 = PG.scans db /\ PG.sites db1 = PG.sites db).
  { destruct (0 <? _)%nat.
    - unfold PG.insertTests in Hfirst.
      destruct (negb _); [discriminate|]. destruct (negb _); [discriminate|].
      inversion Hfirst. split; reflexivity.
    - inversion Hfirst. split; reflexivity. }
  unfold andThen, PG.updateScans in Hrun. inversion Hrun; subst. simpl.
  destruct Hsame as [-> ->]. split; [|reflexivity].
  rewrite map_map. apply map_ext. intros r. now destruct (PG.id r =? scanId).
Qed.

Lemma Neo4j_insertTestResults_ids (randomUuid : nat -> string) (g g' : N4.Graph)
    (siteId scanId : string) (scanResult : Types.ScanResult) (now : Z) (row : N4.ScanRow) :
  N4.insertTestResults randomUuid g siteId scanId scanResult now = resolved (g', row) ->
  map N4.Node.id (N4.Scan g') = map N4.Node.id (N4.Scan g).
Proof.
  unfold N4.insertTestResults, N4.setScans. rewrite Neo4j_testQueries_Scan. intros Hrun.
  destruct (filter _ (N4.Scan g)); [discriminate|]. simpl in Hrun.
  inversion Hrun; subst. simpl.
  rewrite map_map. apply map_ext. intros n.
  now destruct (String.eqb (N4.Node.id n) scanId).
Qed.

(** Where scan ids are unique, the scan completed by [insertTestResults]
    is served by [selectScanById] when the result has a score, and hidden
    from it when the score is null and the scan is FAILED. *)
Theorem insertTestResults_then_selectScanById (scanResult : Types.ScanResult) (now : Z) :
  (forall db siteId scanId r0,
      NoDup (map PG.id (PG.scans db)) ->
      PG.siteExists db siteId = true ->
      PG.selectScan db scanId = Some r0 ->
      exists db' row,
        PG.insertTestResults db siteId scanId scanResult now = resolved (db', Some row)
        /\ PG.selectScanById db' scanId
           = match Types.score (Types.scan scanResult) with
             | Some _ => Some row
             | None => None
             end)
  /\ (forall randomUuid g siteId scanId r0,
      NoDup (map N4.Node.id (N4.Scan g)) ->
      N4.selectScan g scanId = Some r0 ->
      exists g' row,
        N4.insertTestResults randomUuid g siteId scanId scanResult now = resolved (g', row)
        /\ N4.selectScanById g' scanId
           = match Types.score (Types.scan scanResult) with
             | Some _ => Some row
             | None => None
             end).
Proof.
  split.
  - intros db siteId scanId r0 Hnd Hsite Hscan.
    destruct (PostgreSQL_insertTestResults_selectScan db siteId scanId scanResult now r0
                (or_intror Hsite) Hscan) as (db' & Hrun & Hsel & _).
    exists db', (PG.setTerminal (Types.scan scanResult) now r0). split; [exact Hrun|].
    destruct (PostgreSQL_selectScanById_finished db' scanId) as (_ & Hfin & Hother).
    destruct (Types.score (Types.scan scanResult)) eqn:Hscore.
    + apply Hfin; [exact Hsel|]. simpl. now rewrite Hscore.
    + apply (Hother (PG.setTerminal (Types.scan scanResult) now r0)).
      * rewrite (proj1 (PostgreSQL_insertTestResults_ids _ _ _ _ _ _ _ Hrun)). exact Hnd.
      * exact Hsel.
      * simpl. rewrite Hscore. discriminate.
  - intros randomUuid g siteId scanId r0 Hnd Hscan.
    destruct (Neo4j_selectScan_node _ _ _ Hscan) as (n0 & rest & Hn & _).
    destruct (Neo4j_insertTestResults_selectScan randomUuid g siteId scanId scanResult
                now n0 rest Hn) as (g' & Hrun & Hsel & _).
    exists g', (N4._mapScanRow (N4.setTerminal (Types.scan scanResult) now n0)).
    split; [exact Hrun|].
    destruct (Neo4j_selectScanById_finished g' scanId) as (_ & Hfin & Hother).
    destruct (Types.score (Types.scan scanResult)) eqn:Hscore.
    + apply Hfin; [exact Hsel|]. simpl. now rewrite Hscore.
    + apply (Hother (N4._mapScanRow (N4.setTerminal (Types.scan scanResult) now n0))).
      * rewrite (Neo4j_insertTestResults_ids _ _ _ _ _ _ _ _ Hrun). exact Hnd.
      * exact Hsel.
      * simpl. rewrite Hscore. discriminate.
Qed.

Lemma insertTestResults_then_selectScanById_witness :
  (exists db' row,
      PG.insertTestResults (Scenario.Relational.store [Scenario.Relational.running 1 2000])
        1 1 (Scenario.outcome None None (Some "timeout"%string) Scenario.twoTests) 2500
      = resolved (db', Some row)
      /\ PG.selectScanById db' 1 = None)
  /\ (exists g' row,
      N4.insertTestResults Scenario.uuid
        (Scenario.Graph.store [Scenario.Graph.running 0 2000])
        "example_com_1000" "scan-0"
        (Scenario.outcome (Some 105) (Some "A+"%string) None Scenario.twoTests) 2500
      = resolved (g', row)
      /\ N4.selectScanById g' "scan-0" = Some row).
Proof.
  split.
  - apply (proj1 (insertTestResults_then_selectScanById
                    (Scenario.outcome None None (Some "timeout"%string) Scenario.twoTests)
                    2500)
             (Scenario.Relational.store [Scenario.Relational.running 1 2000]) 1 1
             (Scenario.Relational.running 1 2000)); try reflexivity.
    repeat constructor. simpl. tauto.
  - apply (proj2 (insertTestResults_then_selectScanById
                    (Scenario.outcome (Some 105) (Some "A+"%string) None Scenario.twoTests)
                    2500)
             Scenario.uuid (Scenario.Graph.store [Scenario.Graph.running 0 2000])
             "example_com_1000"%string "scan-0"%string
             (N4._mapScanRow (Scenario.Graph.running 0 2000))); try reflexivity.
    repeat constructor. simpl. tauto.
Defined.

(** ** A scan id that names no scan *)

Lemma map_if_none {A : Type} (p : A -> bool) (f : A -> A) (l : list A) :
  existsb p l = false -> map (fun x => if p x then f x else x) l = l.
Proof.
  induction l as [|x l IH]; simpl; [reflexivity|].
  destruct (p x); simpl; [discriminate|]. intros H. now rewrite IH.
Qed.

Lemma filter_none {A : Type} (p : A -> bool) (l : list A) :
  existsb p l = false -> filter p l = [].
Proof.
  induction l as [|x l IH]; simpl; [reflexivity|].
  destruct (p x); simpl; [discriminate | exact IH].
Qed.

Lemma PostgreSQL_updateScans_none (db : PG.Db) (scanId : Z)
    (set : PG.ScanRow -> PG.ScanRow) :
  PG.scanExists db scanId = false -> PG.updateScans db scanId set = (db, []).
Proof.
  unfold PG.scanExists, PG.updateScans. intros H.
  rewrite (map_if_none (fun r => PG.id r =? scanId) set _ H), (filter_none _ _ H).
  now destruct db.
Qed.

Lemma PostgreSQL_unknown_scan (db : PG.Db) (scanId : Z) :
  PG.scanExists db scanId = false ->
  PG.selectScan db scanId = None
  /\ PG.selectScanById db scanId = None
  /\ (forall st err now, PG.updateScanState db scanId st err now = resolved (db, None))
  /\ (forall siteId scanResult now,
        Types.tests scanResult = [] ->
        PG.insertTestResults db siteId scanId scanResult now = resolved (db, None))
  /\ (forall siteId scanResult now,
        Types.tests scanResult <> [] ->
        exists constraint,
          PG.insertTestResults db siteId scanId scanResult now
          = rejected (ForeignKeyViolation constraint)).
Proof.
  intros Hnone. pose proof Hnone as Hex. unfold PG.scanExists in Hex.
  split; [|split; [|split; [|split]]].
  - unfold PG.selectScan. now rewrite (filter_none _ _ Hex).
  - unfold PG.selectScanById.
    destruct (filter _ (PG.scans db)) as [|y rest] eqn:E; [reflexivity|].
    assert (Hy : In y (filter (fun r => (PG.id r =? scanId)
                                 && String.eqb (PG.state r) ScanState.FINISHED)
                         (PG.scans db))) by (rewrite E; now left).
    apply filter_In in Hy as [Hy Hp]. apply andb_prop in Hp as [Hid _].
    assert (Hex' : existsb (fun s => PG.id s =? scanId) (PG.scans db) = true)
      by (apply existsb_exists; eauto).
    congruence.
  - intros st err now. unfold PG.updateScanState.
    destruct (truthy err); now rewrite (PostgreSQL_updateScans_none _ _ _ Hnone).
  - intros siteId scanResult now Hnil. unfold PG.insertTestResults, PG.testValues.
    rewrite Hnil. cbn -[PG.updateScans].
    now rewrite (PostgreSQL_updateScans_none _ _ _ Hnone).
  - intros siteId scanResult now Hsome. unfold PG.insertTestResults, PG.testValues.
    destruct (Types.tests scanResult) as [|entry entries]; [now elim Hsome|].
    simpl. unfold PG.insertTests. rewrite Hnone.
    destruct (PG.siteExists db siteId); simpl; eauto.
Qed.

Lemma Neo4j_unknown_scan (randomUuid : nat -> string) (g : N4.Graph) (scanId : string) :
  existsb (fun n => String.eqb (N4.Node.id n) scanId) (N4.Scan g) = false ->
  N4.selectScan g scanId = None
  /\ N4.selectScanById g scanId = None
  /\ N4.selectTestResults g scanId = []
  /\ (forall st err now, N4.updateScanState g scanId st err now = rejected TypeError)
  /\ (forall siteId scanResult now,
        N4.insertTestResults randomUuid g siteId scanId scanResult now
        = rejected TypeError).
Proof.
  intros Hnone. split; [|split; [|split; [|split]]].
  - unfold N4.selectScan. now rewrite (filter_none _ _ Hnone).
  - unfold N4.selectScanById. now rewrite (filter_none _ _ Hnone).
  - unfold N4.selectTestResults. now rewrite (matchFrom_nil _ _ 0%nat Hnone).
  - intros st err now. unfold N4.updateScanState, N4.setScans.
    now rewrite (filter_none _ _ Hnone).
  - intros siteId scanResult now.
    exact (proj1 (Neo4j_insertTestResults_rejects randomUuid g siteId scanId scanResult
                    now Hnone)).
Qed.

(** For a scan id that names no scan the selectors return undefined on
    both backends, but the writes differ.  The relational adapter resolves
    [updateScanState], and [insertTestResults] without tests, to undefined
    and leaves the store as it is, and rejects [insertTestResults] with
    tests when the engine refuses the orphan rows; the graph adapter
    rejects both writes with a TypeError, reading the first record of an
    empty result. *)
Theorem unknown_scan_id :
  (forall db scanId,
      PG.scanExists db scanId = false ->
      PG.selectScan db scanId = None
      /\ PG.selectScanById db scanId = None
      /\ (forall st err now, PG.updateScanState db scanId st err now = resolved (db, None))
      /\ (forall siteId scanResult now,
            Types.tests scanResult = [] ->
            PG.insertTestResults db siteId scanId scanResult now = resolved (db, None))
      /\ (forall siteId scanResult now,
            Types.tests scanResult <> [] ->
            exists constraint,
              PG.insertTestResults db siteId scanId scanResult now
              = rejected (ForeignKeyViolation constraint)))
  /\ (forall randomUuid g scanId,
      existsb (fun n => String.eqb (N4.Node.id n) scanId) (N4.Scan g) = false ->
      N4.selectScan g scanId = None
      /\ N4.selectScanById g scanId = None
      /\ N4.selectTestResults g scanId = []
      /\ (forall st err now, N4.updateScanState g scanId st err now = rejected TypeError)
      /\ (forall siteId scanResult now,
            N4.insertTestResults randomUuid g siteId scanId scanResult now
            = rejected TypeError)).
Proof.
  split.
  - intros db scanId. apply PostgreSQL_unknown_scan.
  - intros randomUuid g scanId. apply Neo4j_unknown_scan.
Qed.

Lemma unknown_scan_id_witness :
  PG.updateScanState (Scenario.Relational.store [Scenario.Relational.running 1 2000])
    7 ScanState.ABORTED None 9000
  = resolved (Scenario.Relational.store [Scenario.Relational.running 1 2000], None)
  /\ N4.updateScanState (Scenario.Graph.store [Scenario.Graph.running 0 2000])
       "scan-7" ScanState.ABORTED None 9000
     = rejected TypeError.
Proof.
  destruct unknown_scan_id as [Hpg Hneo]. split.
  - destruct (Hpg (Scenario.Relational.store [Scenario.Relational.running 1 2000]) 7
                eq_refl) as (_ & _ & Hupd & _).
    apply Hupd.
  - destruct (Hneo Scenario.uuid (Scenario.Graph.store [Scenario.Graph.running 0 2000])
                "scan-7"%string eq_refl) as (_ & _ & _ & Hupd & _).
    apply Hupd.
Defined.

(** ** updateScanState with an error message *)

Lemma truthy_message (e : string) : e <> EmptyString -> truthy (Some e) = true.
Proof.
  intros H. simpl. destruct (String.eqb_spec e EmptyString); [contradiction | reflexivity].
Qed.

Lemma PostgreSQL_updateScanState_with_error (db : PG.Db) (scanId : Z) (st e : string)
    (now : Z) (i : nat) (r : PG.ScanRow) :
  e <> EmptyString ->
  nth_error (PG.scans db) i = Some r ->
  exists db' row r',
    PG.updateScanState db scanId st (Some e) now = resolved (db', row)
    /\ nth_error (PG.scans db') i = Some r'
    /\ (PG.id r <> scanId -> r' = r)
    /\ (PG.id r = scanId ->
        PG.state r' = st /\ PG.end_time r' = Some now /\ PG.error r' = Some e
        /\ PostgreSQL_sameResults r r')
    /\ PG.sites db' = PG.sites db /\ PG.tests db' = PG.tests db.
Proof.
  intros He Hr. unfold PG.updateScanState. rewrite (truthy_message e He).
  unfold PG.updateScans. eexists _, _, _. split; [reflexivity|]. simpl.
  rewrite (nth_error_map_if (fun x => PG.id x =? scanId)
             (PG.setStateAndError st now e) _ _ _ Hr).
  split; [reflexivity|]. split; [|split; [|split; reflexivity]].
  - intros Hne. destruct (Z.eqb_spec (PG.id r) scanId); [contradiction | reflexivity].
  - intros ->. rewrite Z.eqb_refl. repeat split.
Qed.

Lemma Neo4j_updateScanState_with_error (g : N4.Graph) (scanId st e : string)
    (now : Z) (i : nat) (n : N4.Node.Scan) :
  e <> EmptyString ->
  nth_error (N4.Scan g) i = Some n ->
  N4.Node.id n = scanId ->
  exists g' row n',
    N4.updateScanState g scanId st (Some e) now = resolved (g', row)
    /\ nth_error (N4.Scan g') i = Some n'
    /\ N4.Node.state n' = st /\ N4.Node.endTime n' = Some now
    /\ N4.Node.error n' = Some e
    /\ Neo4j_sameResults n n'
    /\ (forall k m, nth_error (N4.Scan g) k = Some m -> N4.Node.id m <> scanId ->
                    nth_error (N4.Scan g') k = Some m)
    /\ N4.Site g' = N4.Site g /\ N4.TestResult g' = N4.TestResult g
    /\ N4.HAS_SCAN g' = N4.HAS_SCAN g /\ N4.HAS_TEST g' = N4.HAS_TEST g.
Proof.
  intros He Hn Hid. unfold N4.updateScanState, N4.setScans.
  assert (Hin : In n (filter (fun x => String.eqb (N4.Node.id x) scanId) (N4.Scan g))).
  { apply filter_In. split; [eapply nth_error_In; eauto | now apply String.eqb_eq]. }
  destruct (filter _ (N4.Scan g)) as [|n0 rest]; [contradiction|]. simpl.
  eexists _, _, _. split; [reflexivity|]. simpl.
  rewrite (nth_error_map_if (fun x => String.eqb (N4.Node.id x) scanId)
             (N4.setProps st (Some e) now) _ _ _ Hn).
  rewrite (proj2 (String.eqb_eq _ _) Hid).
  split; [reflexivity|]. unfold N4.setProps. rewrite (truthy_message e He). simpl.
  repeat split.
  intros k m Hm Hne.
  rewrite (nth_error_map_if (fun x => String.eqb (N4.Node.id x) scanId) _ _ _ _ Hm).
  destruct (String.eqb_spec (N4.Node.id m) scanId); [contradiction | reflexivity].
Qed.

(** [updateScanState] with a message records the state given, the clock
    reading as end time and the message as error on the scan addressed,
    and keeps its identity and its results (grade, score, counts, start
    time) as they were; every other scan, site and test stays as it is.
    An empty message counts as no message: nothing but the state is
    recorded on the relational backend. *)
Theorem updateScanState_with_error (scanId_pg : Z) (scanId : string) (st e : string)
    (now : Z) :
  e <> EmptyString ->
  (forall db i r,
      nth_error (PG.scans db) i = Some r ->
      exists db' row r',
        PG.updateScanState db scanId_pg st (Some e) now = resolved (db', row)
        /\ nth_error (PG.scans db') i = Some r'
        /\ (PG.id r <> scanId_pg -> r' = r)
        /\ (PG.id r = scanId_pg ->
            PG.state r' = st /\ PG.end_time r' = Some now /\ PG.error r' = Some e
            /\ PostgreSQL_sameResults r r')
        /\ PG.sites db' = PG.sites db /\ PG.tests db' = PG.tests db)
  /\ (forall g i n,
      nth_error (N4.Scan g) i = Some n ->
      N4.Node.id n = scanId ->
      exists g' row n',
        N4.updateScanState g scanId st (Some e) now = resolved (g', row)
        /\ nth_error (N4.Scan g') i = Some n'
        /\ N4.Node.state n' = st /\ N4.Node.endTime n' = Some now
        /\ N4.Node.error n' = Some e
        /\ Neo4j_sameResults n n'
        /\ (forall k m, nth_error (N4.Scan g) k = Some m -> N4.Node.id m <> scanId ->
                        nth_error (N4.Scan g') k = Some m)
        /\ N4.Site g' = N4.Site g /\ N4.TestResult g' = N4.TestResult g
        /\ N4.HAS_SCAN g' = N4.HAS_SCAN g /\ N4.HAS_TEST g' = N4.HAS_TEST g)
  /\ (forall db, PG.updateScanState db scanId_pg st (Some EmptyString) now
                 = PG.updateScanState db scanId_pg st None now)
  /\ (forall g, N4.updateScanState g scanId st (Some EmptyString) now
                = N4.updateScanState g scanId st None now).
Proof.
  intros He. split; [|split; [|split]].
  - intros db i r. now apply PostgreSQL_updateScanState_with_error.
  - intros g i n. now apply Neo4j_updateScanState_with_error.
  - reflexivity.
  - reflexivity.
Qed.

Lemma updateScanState_with_error_witness :
  (exists db' row r',
      PG.updateScanState (Scenario.Relational.store [Scenario.Relational.running 1 2000])
        1 ScanState.FAILED (Some "timeout"%string) 9000 = resolved (db', row)
      /\ nth_error (PG.scans db') 0 = Some r'
      /\ PG.state r' = ScanState.FAILED /\ PG.end_time r' = Some 9000
      /\ PG.error r' = Some "timeout"%string)
  /\ (exists g' row n',
      N4.updateScanState (Scenario.Graph.store [Scenario.Graph.running 0 2000])
        "scan-0" ScanState.FAILED (Some "timeout"%string) 9000 = resolved (g', row)
      /\ nth_error (N4.Scan g') 0 = Some n'
      /\ N4.Node.state n' = ScanState.FAILED /\ N4.Node.endTime n' = Some 9000
      /\ N4.Node.error n' = Some "timeout"%string).
Proof.
  assert (He : "timeout"%string <> EmptyString) by discriminate.
  destruct (updateScanState_with_error 1 "scan-0" ScanState.FAILED "timeout" 9000 He)
    as (Hpg & Hneo & _).
  split.
  - destruct (Hpg (Scenario.Relational.store [Scenario.Relational.running 1 2000])
                0%nat (Scenario.Relational.running 1 2000) eq_refl)
      as (db' & row & r' & Hrun & Hr' & _ & Hset & _).
    destruct (Hset eq_refl) as (Hs & Ht & Herr & _).
    exists db', row, r'. auto.
  - destruct (Hneo (Scenario.Graph.store [Scenario.Graph.running 0 2000])
                0%nat (Scenario.Graph.running 0 2000) eq_refl eq_refl)
      as (g' & row & n' & Hrun & Hn' & Hs & Ht & Herr & _).
    exists g', row, n'. auto.
Defined.

(** ** Ownership in the graph *)

Lemma NoDup_snoc {A : Type} (l : list A) (x : A) :
  NoDup l -> ~ In x l -> NoDup (l ++ [x]).
Proof.
  induction l as [|y l IH]; simpl; intros Hnd Hx.
  - repeat constructor. tauto.
  - apply NoDup_cons_iff in Hnd as [Hy Hnd]. constructor.
    + rewrite in_app_iff. simpl. intros [H | [H | []]]; [tauto|]. subst. tauto.
    + apply IH; tauto.
Qed.

Lemma nth_error_app_old {A : Type} (l l' : list A) (i : nat) (x : A) :
  nth_error l i = Some x -> nth_error (l ++ l') i = Some x.
Proof.
  intros H. rewrite nth_error_app1; [exact H|]. apply nth_error_Some. congruence.
Qed.

Section Ownership.
Variable randomUuid : nat -> string.

Lemma Neo4j_owned_createScan (g : N4.Graph) (records : list N4.Node.Scan)
    (siteId : string) (now : Z) (i : nat) (s : N4.Node.Site) :
  Neo4j_owned g ->
  nth_error (N4.Site g) i = Some s -> N4.Node.site_id s = siteId ->
  Neo4j_owned (fst (N4.createScan randomUuid siteId now (g, records) i)).
Proof.
  intros (Hscan & Htest & Hs & Ht & Hnds & Hndt) Hsite Hid. simpl.
  split; [|split; [|split; [|split; [|split]]]]; simpl.
  - intros a b Hin. apply in_app_or in Hin as [Hin | [[= <- <-] | []]].
    + destruct (Hscan a b Hin) as (s0 & n & Hs0 & Hn & Heq).
      exists s0, n. split; [exact Hs0|]. split; [|exact Heq].
      now apply nth_error_app_old.
    + eexists s, _. split; [exact Hsite|]. split.
      * rewrite nth_error_app2 by lia. rewrite Nat.sub_diag. reflexivity.
      * simpl. now symmetry.
  - intros a b Hin. destruct (Htest a b Hin) as (n & t & Hn & Htt & Heq).
    exists n, t. split; [now apply nth_error_app_old | auto].
  - intros b Hb. rewrite length_app in Hb. simpl in Hb.
    destruct (Nat.eq_dec b (List.length (N4.Scan g))) as [-> | Hne].
    + exists i. apply in_or_app. right. now left.
    + destruct (Hs b) as [a Ha]; [lia|]. exists a. apply in_or_app. now left.
  - exact Ht.
  - rewrite map_app. simpl. apply NoDup_snoc; [exact Hnds|].
    intros Hin. apply in_map_iff in Hin as ([a b] & Hb & Hin). simpl in Hb. subst b.
    destruct (Hscan _ _ Hin) as (_ & n & _ & Hn & _).
    assert (Hlt : (List.length (N4.Scan g) < List.length (N4.Scan g))%nat)
      by (apply nth_error_Some; congruence).
    lia.
  - exact Hndt.
Qed.

Lemma Neo4j_owned_createScan_fold (siteId : string) (now : Z) (matched : list nat)
    (g : N4.Graph) (records : list N4.Node.Scan) :
  Neo4j_owned g ->
  Forall (fun i => exists s, nth_error (N4.Site g) i = Some s
                             /\ N4.Node.site_id s = siteId) matched ->
  Neo4j_owned (fst (fold_left (N4.createScan randomUuid siteId now) matched (g, records))).
Proof.
  revert g records. induction matched as [|i matched IH]; intros g records Hown Hall;
    [exact Hown|].
  apply Forall_cons_iff in Hall as [(s & Hs & Hid) Hall]. simpl.
  match goal with
  | |- context [fold_left _ matched (?g1, ?r1)] =>
      apply (IH g1 r1); [|exact Hall]
  end.
  exact (Neo4j_owned_createScan g records siteId now i s Hown Hs Hid).
Qed.

Lemma Neo4j_owned_createTestResult (g : N4.Graph) (scanId : string)
    (testData : N4.TestData) (j : nat) (n : N4.Node.Scan) :
  Neo4j_owned g ->
  nth_error (N4.Scan g) j = Some n -> N4.Node.id n = scanId ->
  Neo4j_owned (N4.createTestResult randomUuid scanId testData g j).
Proof.
  intros (Hscan & Htest & Hs & Ht & Hnds & Hndt) Hn Hid.
  split; [|split; [|split; [|split; [|split]]]]; simpl.
  - exact Hscan.
  - intros a b Hin. apply in_app_or in Hin as [Hin | [[= <- <-] | []]].
    + destruct (Htest a b Hin) as (n0 & t & Hn0 & Htt & Heq).
      exists n0, t. split; [exact Hn0|]. split; [|exact Heq].
      now apply nth_error_app_old.
    + eexists n, _. split; [exact Hn|]. split.
      * rewrite nth_error_app2 by lia. rewrite Nat.sub_diag. reflexivity.
      * simpl. now symmetry.
  - exact Hs.
  - intros b Hb. rewrite length_app in Hb. simpl in Hb.
    destruct (Nat.eq_dec b (List.length (N4.TestResult g))) as [-> | Hne].
    + exists j. apply in_or_app. right. now left.
    + destruct (Ht b) as [a Ha]; [lia|]. exists a. apply in_or_app. now left.
  - exact Hnds.
  - rewrite map_app. simpl. apply NoDup_snoc; [exact Hndt|].
    intros Hin. apply in_map_iff in Hin as ([a b] & Hb & Hin). simpl in Hb. subst b.
    destruct (Htest _ _ Hin) as (_ & t & _ & Htt & _).
    assert (Hlt : (List.length (N4.TestResult g) < List.length (N4.TestResult g))%nat)
      by (apply nth_error_Some; congruence).
    lia.
Qed.

Lemma Neo4j_owned_runTestQuery (scanId : string) (g : N4.Graph) (testData : N4.TestData) :
  Neo4j_owned g -> Neo4j_owned (N4.runTestQuery randomUuid scanId g testData).
Proof.
  unfold N4.runTestQuery. intros Hown.
  assert (Hall : Forall (fun j => exists n, nth_error (N4.Scan g) j = Some n
                                            /\ N4.Node.id n = scanId)
                   (N4.matchFrom (fun n => String.eqb (N4.Node.id n) scanId) 0 (N4.Scan g))).
  { apply Forall_forall. intros j Hj. apply matchFrom_In in Hj as (_ & n & Hn & Hp).
    rewrite Nat.sub_0_r in Hn. exists n. split; [exact Hn | now apply String.eqb_eq]. }
  revert Hown Hall.
  generalize (N4.matchFrom (fun n => String.eqb (N4.Node.id n) scanId) 0 (N4.Scan g)).
  intros matched. revert g. induction matched as [|j matched IH]; intros g Hown Hall;
    [exact Hown|].
  apply Forall_cons_iff in Hall as [(n & Hn & Hid) Hall]. simpl.
  apply IH; [exact (Neo4j_owned_createTestResult g scanId testData j n Hown Hn Hid)|].
  exact Hall.
Qed.

Lemma Neo4j_owned_testQueries (scanId : string) (queries : list N4.TestData)
    (g : N4.Graph) :
  Neo4j_owned g ->
  Neo4j_owned (fold_left (N4.runTestQuery randomUuid scanId) queries g).
Proof.
  revert g. induction queries as [|q queries IH]; intros g Hown; [exact Hown|].
  simpl. apply IH. now apply Neo4j_owned_runTestQuery.
Qed.

Lemma Neo4j_owned_setScans (g : N4.Graph) (scanId : string)
    (set : N4.Node.Scan -> N4.Node.Scan) :
  (forall n, N4.Node.id (set n) = N4.Node.id n) ->
  (forall n, N4.Node.siteId (set n) = N4.Node.siteId n) ->
  Neo4j_owned g -> Neo4j_owned (fst (N4.setScans g scanId set)).
Proof.
  intros Hid Hsid (Hscan & Htest & Hs & Ht & Hnds & Hndt).
  split; [|split; [|split; [|split; [|split]]]]; simpl.
  - intros a b Hin. destruct (Hscan a b Hin) as (s & n & Hsite & Hn & Heq).
    eexists s, _. split; [exact Hsite|]. split.
    + exact (nth_error_map_if (fun x => String.eqb (N4.Node.id x) scanId) set _ _ _ Hn).
    + destruct (String.eqb (N4.Node.id n) scanId); [now rewrite Hsid | exact Heq].
  - intros a b Hin. destruct (Htest a b Hin) as (n & t & Hn & Htt & Heq).
    eexists _, t. split.
    + exact (nth_error_map_if (fun x => String.eqb (N4.Node.id x) scanId) set _ _ _ Hn).
    + split; [exact Htt|].
      destruct (String.eqb (N4.Node.id n) scanId); [now rewrite Hid | exact Heq].
  - intros b Hb. rewrite length_map in Hb. now apply Hs.
  - exact Ht.
  - exact Hnds.
  - exact Hndt.
Qed.

Lemma Neo4j_owned_writes (g : N4.Graph) :
  Neo4j_owned g ->
  (forall k t1 t2 g' siteId,
      N4.ensureSite g k t1 t2 = resolved (g', siteId) -> Neo4j_owned g')
  /\ (forall siteId now g' row,
      N4.insertScan randomUuid g siteId now = resolved (g', row) -> Neo4j_owned g')
  /\ (forall siteId scanId scanResult now g' row,
      N4.insertTestResults randomUuid g siteId scanId scanResult now = resolved (g', row) ->
      Neo4j_owned g')
  /\ (forall scanId st err now g' row,
      N4.updateScanState g scanId st err now = resolved (g', row) -> Neo4j_owned g').
Proof.
  intros Hown. split; [|split; [|split]].
  - intros k t1 t2 g' siteId. unfold N4.ensureSite.
    destruct (firstn 1 _); intros [= <- _]; [|exact Hown].
    destruct Hown as (Hscan & Htest & Hs & Ht & Hnds & Hndt).
    split; [|split; [|split; [|split; [|split]]]]; simpl; try assumption.
    intros a b Hin. destruct (Hscan a b Hin) as (s0 & n & Hsite & Hn & Heq).
    exists s0, n. split; [now apply nth_error_app_old | auto].
  - intros siteId now g' row. unfold N4.insertScan.
    pose proof (Neo4j_owned_createScan_fold siteId now
                  (N4.matchFrom (fun s => String.eqb (N4.Node.site_id s) siteId) 0
                     (N4.Site g)) g [] Hown) as Hfold.
    destruct (fold_left _ _ (g, [])) as [g1 records].
    destruct records as [|scan records]; [discriminate|]. intros [= <- _]. apply Hfold.
    apply Forall_forall. intros i Hi. apply matchFrom_In in Hi as (_ & s & Hs & Hp).
    rewrite Nat.sub_0_r in Hs. exists s. split; [exact Hs | now apply String.eqb_eq].
  - intros siteId scanId scanResult now g' row. unfold N4.insertTestResults.
    pose proof (Neo4j_owned_setScans
                  (fold_left (N4.runTestQuery randomUuid scanId)
                     (N4.testQueries scanResult) g) scanId
                  (N4.setTerminal (Types.scan scanResult) now)
                  (fun _ => eq_refl) (fun _ => eq_refl)
                  (Neo4j_owned_testQueries scanId _ g Hown)) as Hset.
    destruct (N4.setScans _ scanId _) as [g2 records].
    destruct records; [discriminate|]. intros [= <- _]. exact Hset.
  - intros scanId st err now g' row. unfold N4.updateScanState.
    pose proof (Neo4j_owned_setScans g scanId (N4.setProps st err now)
                  (fun _ => eq_refl) (fun _ => eq_refl) Hown) as Hset.
    destruct (N4.setScans g scanId _) as [g2 records].
    destruct records; [discriminate|]. intros [= <- _]. exact Hset.
Qed.

End Ownership.

Lemma Neo4j_owned_empty : Neo4j_owned Neo4j_empty.
Proof.
  unfold Neo4j_owned, Neo4j_empty. simpl.
  split; [|split; [|split; [|split; [|split]]]];
    try contradiction; try apply NoDup_nil; intros b Hb; inversion Hb.
Qed.

(** Every graph the adapter reaches from the empty graph keeps ownership:
    each Scan hangs from exactly one Site and carries the id of that site,
    each TestResult hangs from exactly one Scan and carries the id of that
    scan, and no relationship points to a node that is not there. *)
Theorem Neo4j_reachable_owned (randomUuid : nat -> string) (g : N4.Graph) :
  Neo4j_reachable randomUuid g -> Neo4j_owned g.
Proof.
  induction 1 as [| g g' k t1 t2 siteId _ IH Hrun
                  | g g' siteId now row _ IH Hrun
                  | g g' siteId scanId scanResult now row _ IH Hrun
                  | g g' scanId st err now row _ IH Hrun].
  - apply Neo4j_owned_empty.
  - exact (proj1 (Neo4j_owned_writes randomUuid g IH) _ _ _ _ _ Hrun).
  - exact (proj1 (proj2 (Neo4j_owned_writes randomUuid g IH)) _ _ _ _ Hrun).
  - exact (proj1 (proj2 (proj2 (Neo4j_owned_writes randomUuid g IH))) _ _ _ _ _ _ Hrun).
  - exact (proj2 (proj2 (proj2 (Neo4j_owned_writes randomUuid g IH))) _ _ _ _ _ _ Hrun).
Qed.

Lemma Neo4j_reachable_owned_witness :
  Neo4j_owned
    {| N4.Site := [Scenario.Graph.site]; N4.Scan := [Scenario.Graph.running 0 2000];
       N4.TestResult := []; N4.HAS_SCAN := [(0%nat, 0%nat)]; N4.HAS_TEST := [];
       N4.drawn := 1 |}.
Proof.
  apply (Neo4j_reachable_owned Scenario.uuid).
  apply (reachable_insertScan Scenario.uuid
           {| N4.Site := [Scenario.Graph.site]; N4.Scan := []; N4.TestResult := [];
              N4.HAS_SCAN := []; N4.HAS_TEST := []; N4.drawn := 0 |}
           _ "example_com_1000" 2000
           (N4._mapScanRow (Scenario.Graph.running 0 2000))).
  - apply (reachable_ensureSite Scenario.uuid Neo4j_empty _ "example.com" 1000 1000
             "example_com_1000").
    + apply reachable_empty.
    + reflexivity.
  - reflexivity.
Defined.

(** ** insertTestResults followed by selectTestResults *)

Lemma PostgreSQL_numberRows_fields (siteId scanId : Z) (scan : Types.Scan)
    (entries : list (string * Types.Test)) (next : Z) :
  map PostgreSQL_testFields
    (PG.numberRows next
       (PG.testValues siteId scanId {| Types.scan := scan; Types.tests := entries |}))
  = map entryFields entries
  /\ Forall (fun row => PG.tests_scan_id row = scanId)
       (PG.numberRows next
          (PG.testValues siteId scanId {| Types.scan := scan; Types.tests := entries |})).
Proof.
  unfold PG.testValues. simpl. revert next.
  induction entries as [|[name t] entries IH]; intros next; simpl.
  - split; [reflexivity | constructor].
  - destruct (IH (next + 1)) as [Hf Hall]. split.
    + now rewrite Hf.
    + constructor; [reflexivity | exact Hall].
Qed.

Lemma filter_all {A : Type} (p : A -> bool) (l : list A) :
  Forall (fun x => p x = true) l -> filter p l = l.
Proof.
  induction 1 as [|x l Hx _ IH]; simpl; [reflexivity|]. now rewrite Hx, IH.
Qed.

Lemma PostgreSQL_tests_roundtrip (db : PG.Db) (siteId scanId : Z)
    (scanResult : Types.ScanResult) (now : Z) :
  PG.siteExists db siteId = true ->
  PG.scanExists db scanId = true ->
  exists db' row,
    PG.insertTestResults db siteId scanId scanResult now = resolved (db', row)
    /\ map PostgreSQL_testFields (PG.selectTestResults db' scanId)
       = map PostgreSQL_testFields (PG.selectTestResults db scanId)
         ++ map entryFields (Types.tests scanResult)
    /\ (forall other, other <> scanId ->
                      PG.selectTestResults db' other = PG.selectTestResults db other).
Proof.
  intros Hsite Hscan. destruct scanResult as [scan entries].
  destruct (PostgreSQL_numberRows_fields siteId scanId scan entries (PG.tests_id_seq db))
    as [Hfields Hall].
  set (scanResult := {| Types.scan := scan; Types.tests := entries |}) in *.
  assert (Htests : forall db' row,
            PG.insertTestResults db siteId scanId scanResult now = resolved (db', row) ->
            PG.tests db' = PG.tests db
                           ++ PG.numberRows (PG.tests_id_seq db)
                                (PG.testValues siteId scanId scanResult)).
  { intros db' row. unfold PG.insertTestResults.
    destruct (0 <? List.length (PG.testValues siteId scanId scanResult))%nat eqn:Hlen.
    - unfold PG.insertTests. rewrite Hsite, Hscan. simpl. now intros [= <- _].
    - apply Nat.ltb_ge in Hlen.
      destruct (PG.testValues siteId scanId scanResult); [|simpl in Hlen; lia].
      simpl. intros [= <- _]. simpl. now rewrite app_nil_r. }
  assert (Hres : exists db' row,
            PG.insertTestResults db siteId scanId scanResult now = resolved (db', row)).
  { unfold PG.insertTestResults.
    destruct (0 <? List.length (PG.testValues siteId scanId scanResult))%nat.
    - unfold PG.insertTests. rewrite Hsite, Hscan. simpl. eauto.
    - simpl. eauto. }
  destruct Hres as (db' & row & Hrun). exists db', row. split; [exact Hrun|].
  unfold PG.selectTestResults. rewrite (Htests db' row Hrun), filter_app. split.
  - rewrite map_app. f_equal.
    rewrite filter_all; [exact Hfields|].
    eapply Forall_impl; [|exact Hall]. intros t Ht. now apply Z.eqb_eq.
  - intros other Hne.
    assert (Hnil : filter (fun t => PG.tests_scan_id t =? other)
                     (PG.numberRows (PG.tests_id_seq db)
                        (PG.testValues siteId scanId scanResult)) = []).
    { apply filter_nil_iff. intros t Ht.
      apply (proj1 (Forall_forall _ _) Hall) in Ht. apply Z.eqb_neq. congruence. }
    rewrite filter_app, Hnil. apply app_nil_r.
Qed.

Lemma matchFrom_unique {A : Type} (f : A -> string) (v : string) (l : list A) (k : nat) :
  NoDup (map f l) ->
  existsb (fun x => String.eqb (f x) v) l = true ->
  exists j, N4.matchFrom (fun x => String.eqb (f x) v) k l = [j].
Proof.
  revert k. induction l as [|x l IH]; intros k Hnd Hex; simpl in *; [discriminate|].
  apply NoDup_cons_iff in Hnd as [Hx Hnd].
  destruct (String.eqb_spec (f x) v) as [Hv | Hv]; simpl.
  - exists k. rewrite matchFrom_nil; [reflexivity|].
    destruct (existsb _ l) eqn:E; [|reflexivity].
    apply existsb_exists in E as (y & Hy & Hfy). apply String.eqb_eq in Hfy.
    elim Hx. rewrite Hv, <- Hfy. now apply in_map.
  - simpl in Hex. exact (IH (S k) Hnd Hex).
Qed.

Section Expand.
Context {A : Type}.

Lemma expand_nodes_app (from : list nat) (rel : list (nat * nat)) (nodes extra : list A) :
  (forall a b, In (a, b) rel -> (b < List.length nodes)%nat) ->
  N4.expand from rel (nodes ++ extra) = N4.expand from rel nodes.
Proof.
  intros Hin. unfold N4.expand. apply flat_map_ext. intros i.
  induction rel as [|[a b] rel IH]; [reflexivity|]. simpl.
  rewrite IH by (intros a' b' H; apply (Hin a' b'); now right).
  rewrite nth_error_app1 by (apply (Hin a b); now left). reflexivity.
Qed.

Lemma expand_snoc_self (j b : nat) (rel : list (nat * nat)) (nodes : list A) :
  N4.expand [j] (rel ++ [(j, b)]) nodes
  = N4.expand [j] rel nodes
    ++ match nth_error nodes b with Some n => [n] | None => [] end.
Proof.
  unfold N4.expand. simpl. rewrite !app_nil_r, flat_map_app. simpl.
  now rewrite Nat.eqb_refl, app_nil_r.
Qed.

Lemma expand_snoc_other (from : list nat) (j b : nat) (rel : list (nat * nat))
    (nodes : list A) :
  ~ In j from ->
  N4.expand from (rel ++ [(j, b)]) nodes = N4.expand from rel nodes.
Proof.
  intros Hj. unfold N4.expand.
  induction from as [|i from IH]; [reflexivity|]. simpl.
  rewrite IH by (intros H; apply Hj; now right).
  rewrite flat_map_app. simpl.
  destruct (Nat.eqb_spec j i) as [-> | _]; [elim Hj; now left|].
  now rewrite !app_nil_r.
Qed.

End Expand.

(** The fields of a TestResult node that come from the entry. *)
Lemma Neo4j_testFields_row (rows : list N4.Node.TestResult) :
  map Neo4j_testFields
    (map (fun test =>
            {| N4.tests_id := N4.Node.test_id test; N4.tests_scan_id := N4.Node.scanId test;
               N4.tests_name := N4.Node.name test;
               N4.tests_expectation := N4.Node.expectation test;
               N4.tests_result := N4.Node.result test; N4.tests_pass := N4.Node.pass test;
               N4.tests_output := N4.Node.output test;
               N4.tests_score_modifier := N4.Node.scoreModifier test |}) rows)
  = map (fun test => (N4.Node.name test, N4.Node.expectation test, N4.Node.result test,
                      N4.Node.pass test, N4.Node.output test, N4.Node.scoreModifier test))
      rows.
Proof. rewrite map_map. reflexivity. Qed.

Lemma Neo4j_testQueries_expand (randomUuid : nat -> string) (scanId : string)
    (scan : Types.Scan) (entries : list (string * Types.Test)) (g : N4.Graph) (j : nat) :
  Neo4j_owned g ->
  N4.matchFrom (fun n => String.eqb (N4.Node.id n) scanId) 0 (N4.Scan g) = [j] ->
  let g1 := fold_left (N4.runTestQuery randomUuid scanId)
              (N4.testQueries {| Types.scan := scan; Types.tests := entries |}) g in
  map (fun test => (N4.Node.name test, N4.Node.expectation test, N4.Node.result test,
                    N4.Node.pass test, N4.Node.output test, N4.Node.scoreModifier test))
    (N4.expand [j] (N4.HAS_TEST g1) (N4.TestResult g1))
  = map (fun test => (N4.Node.name test, N4.Node.expectation test, N4.Node.result test,
                      N4.Node.pass test, N4.Node.output test, N4.Node.scoreModifier test))
      (N4.expand [j] (N4.HAS_TEST g) (N4.TestResult g))
    ++ map entryFields entries
  /\ forall from, ~ In j from ->
       N4.expand from (N4.HAS_TEST g1) (N4.TestResult g1)
       = N4.expand from (N4.HAS_TEST g) (N4.TestResult g).
Proof.
  unfold N4.testQueries. cbn [Types.tests]. revert g.
  induction entries as [|[name t] entries IH]; intros g Hown Hm; cbn [map fold_left].
  - split; [now rewrite app_nil_r | reflexivity].
  - set (td := {| N4.td_name := name; N4.td_expectation := Types.expectation t;
                  N4.td_result := Types.result t; N4.td_pass := Types.pass t;
                  N4.td_scoreModifier := Types.scoreModifier t;
                  N4.td_output := Types.rest t |}).
    assert (Hbound : forall a b, In (a, b) (N4.HAS_TEST g) ->
                                 (b < List.length (N4.TestResult g))%nat).
    { intros a b Hin. destruct Hown as (_ & Htest & _).
      destruct (Htest a b Hin) as (_ & t0 & _ & Ht0 & _).
      apply nth_error_Some. congruence. }
    destruct (IH (N4.runTestQuery randomUuid scanId g td)) as [Hself Hother].
    { now apply Neo4j_owned_runTestQuery. }
    { now rewrite Neo4j_runTestQuery_Scan. }
    assert (Hstep : N4.runTestQuery randomUuid scanId g td
                    = N4.createTestResult randomUuid scanId td g j).
    { unfold N4.runTestQuery. now rewrite Hm. }
    split.
    + rewrite Hself, Hstep. cbn [N4.createTestResult N4.HAS_TEST N4.TestResult].
      rewrite expand_snoc_self, expand_nodes_app by exact Hbound.
      rewrite nth_error_app2 by lia. rewrite Nat.sub_diag. cbn [nth_error].
      rewrite map_app, <- app_assoc. reflexivity.
    + intros from Hj. rewrite (Hother from Hj), Hstep.
      cbn [N4.createTestResult N4.HAS_TEST N4.TestResult].
      rewrite expand_snoc_other by exact Hj.
      now apply expand_nodes_app.
Qed.

Lemma Neo4j_tests_roundtrip (randomUuid : nat -> string) (g : N4.Graph)
    (siteId scanId : string) (scanResult : Types.ScanResult) (now : Z) :
  Neo4j_owned g ->
  NoDup (map N4.Node.id (N4.Scan g)) ->
  existsb (fun n => String.eqb (N4.Node.id n) scanId) (N4.Scan g) = true ->
  exists g' row,
    N4.insertTestResults randomUuid g siteId scanId scanResult now = resolved (g', row)
    /\ map Neo4j_testFields (N4.selectTestResults g' scanId)
       = map Neo4j_testFields (N4.selectTestResults g scanId)
         ++ map entryFields (Types.tests scanResult)
    /\ (forall other, other <> scanId ->
                      N4.selectTestResults g' other = N4.selectTestResults g other).
Proof.
  intros Hown Hnd Hex.
  destruct (matchFrom_unique N4.Node.id scanId (N4.Scan g) 0 Hnd Hex) as [j Hm].
  destruct scanResult as [scan entries].
  destruct (Neo4j_testQueries_expand randomUuid scanId scan entries g j Hown Hm)
    as [Hself Hother].
  set (scanResult := {| Types.scan := scan; Types.tests := entries |}) in *.
  assert (Hn : exists n0 rest,
             filter (fun n => String.eqb (N4.Node.id n) scanId) (N4.Scan g) = n0 :: rest).
  { destruct (filter _ (N4.Scan g)) as [|n0 rest] eqn:E; [|eauto].
    apply existsb_exists in Hex as (n & Hin & Hp).
    assert (In n []) by (rewrite <- E; apply filter_In; auto). contradiction. }
  destruct Hn as (n0 & rest & Hn).
  destruct (Neo4j_insertTestResults_selectScan randomUuid g siteId scanId scanResult
              now n0 rest Hn) as (g' & Hrun & _).
  exists g', (N4._mapScanRow (N4.setTerminal (Types.scan scanResult) now n0)).
  split; [exact Hrun|].
  assert (Hg' : g' = fst (N4.setScans
                            (fold_left (N4.runTestQuery randomUuid scanId)
                               (N4.testQueries scanResult) g) scanId
                            (N4.setTerminal (Types.scan scanResult) now))).
  { unfold N4.insertTestResults in Hrun.
    destruct (N4.setScans _ scanId _) as [g2 records].
    destruct records; [discriminate|]. now inversion Hrun. }
  assert (Hmatch : forall v,
            N4.matchFrom (fun n => String.eqb (N4.Node.id n) v) 0 (N4.Scan g')
            = N4.matchFrom (fun n => String.eqb (N4.Node.id n) v) 0 (N4.Scan g)).
  { intros v. rewrite Hg'. simpl. rewrite Neo4j_testQueries_Scan.
    clear. generalize 0%nat. induction (N4.Scan g) as [|n l IH]; intros k; [reflexivity|].
    simpl. rewrite IH. now destruct (String.eqb (N4.Node.id n) scanId). }
  split.
  - unfold N4.selectTestResults. rewrite !Neo4j_testFields_row, Hmatch, Hm.
    rewrite Hg'. exact Hself.
  - intros other Hne. unfold N4.selectTestResults. rewrite Hmatch. f_equal.
    rewrite Hg'. apply Hother.
    intros Hj. apply matchFrom_In in Hj as (_ & n & Hnj & Hp).
    assert (Hj' : In j (N4.matchFrom (fun n => String.eqb (N4.Node.id n) scanId) 0
                          (N4.Scan g))) by (rewrite Hm; now left).
    apply matchFrom_In in Hj' as (_ & n' & Hnj' & Hp').
    rewrite Hnj in Hnj'. inversion Hnj'; subst n'.
    apply String.eqb_eq in Hp, Hp'. congruence.
Qed.

(** The tests written by [insertTestResults] are read back by
    [selectTestResults] of the same scan together with the tests the scan
    already had: one record per entry, with name, expectation, result,
    pass and score modifier unchanged, and on the graph backend the output
    text as well.  Neither query orders its rows, so the records are
    compared as a collection, in no particular order; the tests of every
    other scan read as before.  On the graph backend this needs a graph
    that keeps ownership and has one Scan per id. *)
Theorem insertTestResults_then_selectTestResults
    (scanResult : Types.ScanResult) (now : Z) :
  (forall db siteId scanId,
      PG.siteExists db siteId = true ->
      PG.scanExists db scanId = true ->
      exists db' row,
        PG.insertTestResults db siteId scanId scanResult now = resolved (db', row)
        /\ Permutation
             (map PostgreSQL_testAnswers (PG.selectTestResults db' scanId))
             (map PostgreSQL_testAnswers (PG.selectTestResults db scanId)
              ++ map entryAnswers (Types.tests scanResult))
        /\ (forall other, other <> scanId ->
              Permutation (PG.selectTestResults db' other)
                          (PG.selectTestResults db other)))
  /\ (forall randomUuid g siteId scanId,
      Neo4j_owned g ->
      NoDup (map N4.Node.id (N4.Scan g)) ->
      existsb (fun n => String.eqb (N4.Node.id n) scanId) (N4.Scan g) = true ->
      exists g' row,
        N4.insertTestResults randomUuid g siteId scanId scanResult now = resolved (g', row)
        /\ Permutation
             (map Neo4j_testFields (N4.selectTestResults g' scanId))
             (map Neo4j_testFields (N4.selectTestResults g scanId)
              ++ map entryFields (Types.tests scanResult))
        /\ (forall other, other <> scanId ->
              Permutation (N4.selectTestResults g' other)
                          (N4.selectTestResults g other))).
Proof.
  split.
  - intros db siteId scanId Hsite Hscan.
    destruct (PostgreSQL_tests_roundtrip db siteId scanId scanResult now Hsite Hscan)
      as (db' & row & Hrun & Hsel & Hother).
    exists db', row. split; [exact Hrun|]. split.
    + apply (f_equal (map (fun '(n, e, r, p, _, m) => (n, e, r, p, m)))) in Hsel.
      rewrite map_app, !map_map in Hsel.
      change (map PostgreSQL_testAnswers (PG.selectTestResults db' scanId)
              = map PostgreSQL_testAnswers (PG.selectTestResults db scanId)
                ++ map entryAnswers (Types.tests scanResult)) in Hsel.
      now rewrite Hsel.
    + intros other Hne. now rewrite (Hother other Hne).
  - intros randomUuid g siteId scanId Hown Hnd Hex.
    destruct (Neo4j_tests_roundtrip randomUuid g siteId scanId scanResult now
                Hown Hnd Hex) as (g' & row & Hrun & Hsel & Hother).
    exists g', row. split; [exact Hrun|]. split.
    + now rewrite Hsel.
    + intros other Hne. now rewrite (Hother other Hne).
Qed.

Lemma Neo4j_owned_one_scan :
  Neo4j_owned (Scenario.Graph.store [Scenario.Graph.running 0 2000]).
Proof.
  assert (Hsite : Neo4j_owned
                    {| N4.Site := [Scenario.Graph.site]; N4.Scan := [];
                       N4.TestResult := []; N4.HAS_SCAN := []; N4.HAS_TEST := [];
                       N4.drawn := 0 |}).
  { apply (proj1 (Neo4j_owned_writes Scenario.uuid Neo4j_empty Neo4j_owned_empty)
             "example.com"%string 1000 1000 _ "example_com_1000"%string).
    reflexivity. }
  apply (proj1 (proj2 (Neo4j_owned_writes Scenario.uuid _ Hsite))
           "example_com_1000"%string 2000 _
           (N4._mapScanRow (Scenario.Graph.running 0 2000))).
  reflexivity.
Defined.

Lemma insertTestResults_then_selectTestResults_witness :
  (exists db' row,
      PG.insertTestResults (Scenario.Relational.store [Scenario.Relational.running 1 2000])
        1 1 (Scenario.outcome (Some 105) (Some "A+"%string) None Scenario.twoTests) 2500
      = resolved (db', row)
      /\ Permutation (map PostgreSQL_testAnswers (PG.selectTestResults db' 1))
                     (map entryAnswers Scenario.twoTests))
  /\ (exists g' row,
      N4.insertTestResults Scenario.uuid
        (Scenario.Graph.store [Scenario.Graph.running 0 2000])
        "example_com_1000" "scan-0"
        (Scenario.outcome (Some 105) (Some "A+"%string) None Scenario.twoTests) 2500
      = resolved (g', row)
      /\ Permutation (map Neo4j_testFields (N4.selectTestResults g' "scan-0"))
                     (map entryFields Scenario.twoTests)).
Proof.
  destruct (insertTestResults_then_selectTestResults
              (Scenario.outcome (Some 105) (Some "A+"%string) None Scenario.twoTests) 2500)
    as [Hpg Hneo].
  split.
  - destruct (Hpg (Scenario.Relational.store [Scenario.Relational.running 1 2000]) 1 1
                eq_refl eq_refl) as (db' & row & Hrun & Hsel & _).
    exists db', row. split; [exact Hrun | exact Hsel].
  - assert (Hnd : NoDup (map N4.Node.id
                           (N4.Scan (Scenario.Graph.store [Scenario.Graph.running 0 2000])))).
    { repeat constructor. simpl. tauto. }
    destruct (Hneo Scenario.uuid (Scenario.Graph.store [Scenario.Graph.running 0 2000])
                "example_com_1000"%string "scan-0"%string
                Neo4j_owned_one_scan Hnd eq_refl) as (g' & row & Hrun & Hsel & _).
    exists g', row. split; [exact Hrun | exact Hsel].
Defined.

(** ** What every host history holds *)

Lemma PostgreSQL_lagScore_In (prev : option Z) (rows : list PG.ScanRow)
    (r : PG.ScanRow) (p : option Z) :
  In (r, p) (PG.lagScore prev rows) -> In r rows.
Proof.
  revert prev. induction rows as [|x rows IH]; intros prev; simpl; [contradiction|].
  intros [[= <- _] | H]; [now left | right; eauto].
Qed.

Lemma PostgreSQL_history_entries_sorted (db : PG.Db) (siteId : Z) :
  (forall h, In h (PG.selectScanHostHistory db siteId) ->
             exists r, In r (PG.scans db) /\ PG.site_id r = siteId
                       /\ PG.state r = ScanState.FINISHED /\ h = PG.historyRow r)
  /\ StronglySorted (fun a b => history_end_time a <= history_end_time b)
       (PG.selectScanHostHistory db siteId).
Proof.
  unfold PG.selectScanHostHistory. split.
  - intros h Hh. apply in_map_iff in Hh as ([r p] & <- & Hin).
    apply (Permutation_in _ (orderBy_Permutation _ _)) in Hin.
    apply filter_In in Hin as [Hin _]. apply PostgreSQL_lagScore_In in Hin.
    apply (Permutation_in _ (orderBy_Permutation _ _)) in Hin.
    apply filter_In in Hin as [Hin Hp]. apply andb_prop in Hp as [Hsite Hst].
    apply Z.eqb_eq in Hsite. apply String.eqb_eq in Hst. exists r. auto.
  - apply StronglySorted_to_map with (f := fun '(r, _) => PG.historyRow r).
    eapply StronglySorted_weaken;
      [|apply (orderBy_StronglySorted
                 (fun a b : PG.ScanRow * option Z =>
                    PG.start_time (fst a) <=? PG.start_time (fst b))
                 (ascending_total (fun a => PG.start_time (fst a)))
                 (fun a b c => ascending_trans (fun a => PG.start_time (fst a)) a b c))].
    intros [a pa] [b pb] H. apply Z.leb_le in H. exact H.
Qed.

(** On the graph backend the history is, for any graph, the list of the
    change points after the earliest scan, taken over the scans in the
    order of their start. *)
Lemma Neo4j_history_change_points (g : N4.Graph) (siteId : string) :
  N4.selectScanHostHistory g siteId
  = map N4.historyMap
      match orderBy (fun a b => N4.Node.startTime a <=? N4.Node.startTime b)
              (filter (fun n => String.eqb (N4.Node.state n) ScanState.FINISHED
                                && match N4.Node.score n with
                                   | Some _ => true
                                   | None => false
                                   end)
                 (N4.expand (N4.matchFrom (fun s => String.eqb (N4.Node.site_id s) siteId)
                               0 (N4.Site g))
                    (N4.HAS_SCAN g) (N4.Scan g))) with
      | [] => []
      | first :: later => firstOfRuns N4.Node.score (N4.Node.score first) later
      end.
Proof.
  unfold N4.selectScanHostHistory.
  set (scans := orderBy _ (filter _ (N4.expand _ _ _))).
  assert (Hsorted : StronglySorted
                      (fun a b => (N4.Node.startTime a <=? N4.Node.startTime b) = true)
                      scans).
  { apply orderBy_StronglySorted.
    - apply (ascending_total N4.Node.startTime).
    - intros a b c. apply (ascending_trans N4.Node.startTime). }
  rewrite Neo4j_pairs_changed. apply orderBy_sorted.
  apply (StronglySorted_to_map N4.historyMap
           (fun a b => (history_end_time a <=? history_end_time b) = true)).
  destruct scans as [|first later]; [constructor|].
  apply firstOfRuns_sorted. now apply StronglySorted_inv in Hsorted.
Qed.

Lemma firstOfRuns_In {A : Type} (score : A -> option Z) (prev : option Z)
    (l : list A) (x : A) :
  In x (firstOfRuns score prev l) -> In x l.
Proof.
  revert prev. induction l as [|y l IH]; intros prev; simpl; [contradiction|].
  destruct (isDistinctFrom (score y) prev); [intros [<- | H] | intros H]; eauto.
Qed.

Lemma Neo4j_history_entries_sorted (g : N4.Graph) (siteId : string) :
  (forall h, In h (N4.selectScanHostHistory g siteId) ->
             exists n, Neo4j_hasScan g (fun s => String.eqb (N4.Node.site_id s) siteId) n
                       /\ N4.Node.state n = ScanState.FINISHED
                       /\ N4.Node.score n <> None /\ h = N4.historyMap n)
  /\ StronglySorted (fun a b => history_end_time a <= history_end_time b)
       (N4.selectScanHostHistory g siteId)
  /\ (forall before x y after,
        N4.selectScanHostHistory g siteId = before ++ x :: y :: after ->
        history_score x <> history_score y).
Proof.
  rewrite Neo4j_history_change_points.
  set (scans := orderBy _ (filter _ (N4.expand _ _ _))).
  assert (Hsorted : StronglySorted
                      (fun a b => (N4.Node.startTime a <=? N4.Node.startTime b) = true)
                      scans).
  { apply orderBy_StronglySorted.
    - apply (ascending_total N4.Node.startTime).
    - intros a b c. apply (ascending_trans N4.Node.startTime). }
  assert (Hin : forall n, In n scans ->
            Neo4j_hasScan g (fun s => String.eqb (N4.Node.site_id s) siteId) n
            /\ N4.Node.state n = ScanState.FINISHED /\ N4.Node.score n <> None).
  { intros n Hn. apply (Permutation_in _ (orderBy_Permutation _ _)) in Hn.
    apply filter_In in Hn as [Hn Hp]. apply Neo4j_hasScan_iff in Hn.
    apply andb_prop in Hp as [Hst Hsc]. apply String.eqb_eq in Hst.
    split; [exact Hn|]. split; [exact Hst|].
    destruct (N4.Node.score n); [discriminate | discriminate]. }
  destruct scans as [|first later]; simpl.
  { split; [contradiction|]. split; [constructor|].
    intros before x y after H. destruct before; discriminate. }
  split; [|split].
  - intros h Hh. apply in_map_iff in Hh as (n & <- & Hn).
    apply firstOfRuns_In in Hn.
    destruct (Hin n (or_intror Hn)) as (Hown & Hst & Hsc). exists n. auto.
  - apply (StronglySorted_to_map N4.historyMap
             (fun a b => history_end_time a <= history_end_time b)).
    apply firstOfRuns_sorted. apply StronglySorted_inv in Hsorted as [Hs _].
    eapply StronglySorted_weaken; [|exact Hs]. intros a b H. now apply Z.leb_le.
  - intros before x y after Hhist.
    apply map_eq_app in Hhist as (l1 & l2 & Hl & _ & Hhist).
    apply map_eq_cons in Hhist as (a & l3 & -> & <- & Hhist).
    apply map_eq_cons in Hhist as (b & l4 & -> & <- & _).
    simpl. exact (firstOfRuns_adjacent N4.Node.score _ _ _ _ _ _ Hl).
Qed.

(** Every entry of a host history is a FINISHED scan of the site (on the
    graph backend one with a score), and the entries come in the order of
    their time, whatever the store holds. *)
Theorem selectScanHostHistory_entries_sorted :
  (forall db siteId,
      (forall h, In h (PG.selectScanHostHistory db siteId) ->
                 exists r, In r (PG.scans db) /\ PG.site_id r = siteId
                           /\ PG.state r = ScanState.FINISHED /\ h = PG.historyRow r)
      /\ StronglySorted (fun a b => history_end_time a <= history_end_time b)
           (PG.selectScanHostHistory db siteId))
  /\ (forall g siteId,
      (forall h, In h (N4.selectScanHostHistory g siteId) ->
                 exists n,
                   Neo4j_hasScan g (fun s => String.eqb (N4.Node.site_id s) siteId) n
                   /\ N4.Node.state n = ScanState.FINISHED
                   /\ N4.Node.score n <> None /\ h = N4.historyMap n)
      /\ StronglySorted (fun a b => history_end_time a <= history_end_time b)
           (N4.selectScanHostHistory g siteId)).
Proof.
  split.
  - intros db siteId. apply PostgreSQL_history_entries_sorted.
  - intros g siteId.
    destruct (Neo4j_history_entries_sorted g siteId) as (Hin & Hsorted & _).
    split; assumption.
Qed.

(** Rows with pairwise distinct keys have one sorted order: whatever
    order an engine gives rows of equal key, [ORDER BY] over such rows
    returns the list [orderBy] computes. *)
Lemma sorted_Permutation_unique {A : Type} (key : A -> Z) (l l' : list A) :
  NoDup (map key l) -> Permutation l l' ->
  StronglySorted (fun a b => key a <= key b) l ->
  StronglySorted (fun a b => key a <= key b) l' -> l = l'.
Proof.
  revert l'. induction l as [|x l IH]; intros l' Hnd Hperm Hs Hs'.
  - apply Permutation_nil in Hperm. now subst.
  - destruct l' as [|y l'].
    { apply Permutation_sym, Permutation_nil in Hperm. discriminate. }
    apply StronglySorted_inv in Hs as [Hs Hx].
    apply StronglySorted_inv in Hs' as [Hs' Hy].
    assert (Hxin : In x (y :: l')) by (apply (Permutation_in _ Hperm); now left).
    assert (Hyin : In y (x :: l))
      by (apply (Permutation_in _ (Permutation_sym Hperm)); now left).
    assert (Hyx : key y <= key x).
    { destruct Hxin as [<- | Hin]; [lia|].
      exact (proj1 (Forall_forall _ _) Hy x Hin). }
    assert (Hxy : key x <= key y).
    { destruct Hyin as [<- | Hin]; [lia|].
      exact (proj1 (Forall_forall _ _) Hx y Hin). }
    assert (x = y) as <-.
    { apply (NoDup_map_In_eq key (x :: l)); [exact Hnd | now left | exact Hyin | lia]. }
    f_equal. apply IH; [|now apply Permutation_cons_inv in Hperm | exact Hs | exact Hs'].
    simpl in Hnd. now apply NoDup_cons_iff in Hnd.
Qed.

Lemma orderBy_unique {A : Type} (key : A -> Z) (l l' : list A) :
  NoDup (map key l) -> Permutation l' l ->
  StronglySorted (fun a b => key a <= key b) l' ->
  l' = orderBy (fun a b => key a <=? key b) l.
Proof.
  intros Hnd Hperm Hs.
  apply (sorted_Permutation_unique key).
  - eapply Permutation_NoDup; [|exact Hnd].
    apply Permutation_map, Permutation_sym, Hperm.
  - rewrite Hperm. apply Permutation_sym, orderBy_Permutation.
  - exact Hs.
  - eapply StronglySorted_weaken;
      [|apply (orderBy_StronglySorted (fun a b => key a <=? key b)
                 (ascending_total key) (fun a b c => ascending_trans key a b c))].
    intros a b. apply Z.leb_le.
Qed.

(** On the graph backend, when the FINISHED scans of the site that have a
    score started at pairwise distinct times, so that each ORDER BY of the
    query has one result, no two neighbours of the host history have the
    same score. *)
Theorem Neo4j_history_neighbours (g : N4.Graph) (siteId : string)
    (before after : list (History string)) (x y : History string) :
  NoDup (map N4.Node.startTime (Neo4j_scoredOf g siteId)) ->
  N4.selectScanHostHistory g siteId = before ++ x :: y :: after ->
  history_score x <> history_score y.
Proof.
  intros _.
  destruct (Neo4j_history_entries_sorted g siteId) as (_ & _ & Hneighbours).
  apply Hneighbours.
Qed.

Lemma PostgreSQL_strictlyChronological_chronological (rows : list PG.ScanRow) :
  PostgreSQL_strictlyChronological rows -> PostgreSQL_chronological rows.
Proof.
  apply StronglySorted_weaken. intros a b [Hstart Hend]. split; [lia|].
  destruct (PG.end_time a), (PG.end_time b); simpl; try contradiction.
  apply Z.leb_le. lia.
Qed.

(** On the relational backend, for the FINISHED scans of a site stored in
    the strict order of their time, by start and by end and every end time
    set, so that each ORDER BY of the query has one result, the history
    is the list of their change points: it opens with the earliest scan
    when that scan has a score, holds after it every scan whose score
    differs from the score of the scan before it, and so has no two
    neighbours with the same score. *)
Theorem PostgreSQL_history_change_points (db : PG.Db) (siteId : Z) :
  PostgreSQL_strictlyChronological
    (filter (fun r => (PG.site_id r =? siteId)
                      && String.eqb (PG.state r) ScanState.FINISHED) (PG.scans db)) ->
  PG.selectScanHostHistory db siteId
  = map PG.historyRow
      (firstOfRuns PG.score None
         (filter (fun r => (PG.site_id r =? siteId)
                           && String.eqb (PG.state r) ScanState.FINISHED) (PG.scans db)))
  /\ (forall first later,
        filter (fun r => (PG.site_id r =? siteId)
                         && String.eqb (PG.state r) ScanState.FINISHED) (PG.scans db)
        = first :: later ->
        PG.score first <> None ->
        exists rest, PG.selectScanHostHistory db siteId = PG.historyRow first :: rest)
  /\ (forall before x y after,
        PG.selectScanHostHistory db siteId = before ++ x :: y :: after ->
        history_score x <> history_score y).
Proof.
  intros Hstrict.
  pose proof (PostgreSQL_strictlyChronological_chronological _ Hstrict) as Hchron.
  split; [|split].
  - now apply PostgreSQL_history_first_of_runs.
  - intros first later Hrows Hscore.
    apply (PostgreSQL_history_earliest db siteId first later Hrows); [|exact Hscore].
    now rewrite <- Hrows.
  - intros before x y after. now apply PostgreSQL_history_neighbours.
Qed.

Lemma selectScanHostHistory_entries_sorted_witness :
  StronglySorted (fun a b => history_end_time a <= history_end_time b)
    (PG.selectScanHostHistory
       (Scenario.Relational.store
          [Scenario.Relational.finished 1 4000 4500 90;
           Scenario.Relational.finished 2 2000 2500 100]) 1)
  /\ StronglySorted (fun a b => history_end_time a <= history_end_time b)
       (N4.selectScanHostHistory
          (Scenario.Graph.store
             [Scenario.Graph.finished 0 4000 4500 90;
              Scenario.Graph.finished 1 2000 2500 100]) "example_com_1000").
Proof.
  destruct selectScanHostHistory_entries_sorted as [Hpg Hneo]. split.
  - exact (proj2 (Hpg _ 1)).
  - exact (proj2 (Hneo _ "example_com_1000"%string)).
Defined.

Lemma Neo4j_history_neighbours_witness :
  N4.selectScanHostHistory
    (Scenario.Graph.store
       [Scenario.Graph.finished 0 2000 2500 100;
        Scenario.Graph.finished 1 3000 3500 90;
        Scenario.Graph.finished 2 4000 4500 90;
        Scenario.Graph.finished 3 5000 5500 80]) "example_com_1000"
  = [] ++ N4.historyMap (Scenario.Graph.finished 1 3000 3500 90)
       :: N4.historyMap (Scenario.Graph.finished 3 5000 5500 80) :: []
  /\ history_score (N4.historyMap (Scenario.Graph.finished 1 3000 3500 90))
     <> history_score (N4.historyMap (Scenario.Graph.finished 3 5000 5500 80)).
Proof.
  split; [reflexivity|].
  apply (Neo4j_history_neighbours
           (Scenario.Graph.store
              [Scenario.Graph.finished 0 2000 2500 100;
               Scenario.Graph.finished 1 3000 3500 90;
               Scenario.Graph.finished 2 4000 4500 90;
               Scenario.Graph.finished 3 5000 5500 80]) "example_com_1000" [] []).
  - repeat constructor; simpl; intuition discriminate.
  - reflexivity.
Defined.

Lemma PostgreSQL_history_change_points_witness :
  PG.selectScanHostHistory
    (Scenario.Relational.store
       [Scenario.Relational.finished 1 2000 2500 100;
        Scenario.Relational.finished 2 3000 3500 100;
        Scenario.Relational.finished 3 4000 4500 90]) 1
  = map PG.historyRow
      [Scenario.Relational.finished 1 2000 2500 100;
       Scenario.Relational.finished 3 4000 4500 90].
Proof.
  apply (PostgreSQL_history_change_points
           (Scenario.Relational.store
              [Scenario.Relational.finished 1 2000 2500 100;
               Scenario.Relational.finished 2 3000 3500 100;
               Scenario.Relational.finished 3 4000 4500 90]) 1).
  unfold PostgreSQL_strictlyChronological. simpl.
  repeat constructor; simpl; lia.
Defined.

(** ** The grade distribution *)

(** The CASE expression of the graph query and the array of the SQL query
    rank the grades alike: the CASE counts from zero, the array from one. *)
Lemma gradeCase_array_position (grade : string) :
  N4.gradeCase grade
  = option_map (fun k => k - 1) (PG.array_position PG.gradeRanking grade).
Proof.
  unfold N4.gradeCase, PG.gradeRanking. cbn [PG.array_position].
  repeat (rewrite (String.eqb_sym _ grade);
          destruct (String.eqb grade _); [reflexivity|]).
  reflexivity.
Qed.

Lemma ascNullsLast_shift (a b : option Z) :
  ascNullsLast (option_map (fun k => k - 1) a) (option_map (fun k => k - 1) b)
  = ascNullsLast a b.
Proof.
  destruct a as [x|], b as [y|]; simpl; try reflexivity.
  destruct (Z.leb_spec x y), (Z.leb_spec (x - 1) (y - 1)); try reflexivity; lia.
Qed.

Lemma countInto_keys (x : string) (groups : list (string * Z)) :
  map fst (N4.countInto x groups)
  = if existsb (String.eqb x) (map fst groups)
    then map fst groups else map fst groups ++ [x].
Proof.
  induction groups as [|[g n] groups IH]; simpl; [reflexivity|].
  rewrite (String.eqb_sym x g).
  destruct (String.eqb g x); simpl; [reflexivity|].
  rewrite IH. now destruct (existsb _ _).
Qed.

Lemma countInto_NoDup (x : string) (groups : list (string * Z)) :
  NoDup (map fst groups) -> NoDup (map fst (N4.countInto x groups)).
Proof.
  intros Hnd. rewrite countInto_keys.
  destruct (existsb _ _) eqn:Hex; [exact Hnd|].
  apply NoDup_snoc; [exact Hnd|].
  intros Hin.
  assert (existsb (String.eqb x) (map fst groups) = true) as Htrue.
  { apply existsb_exists. exists x. split; [exact Hin | apply String.eqb_refl]. }
  congruence.
Qed.

Lemma countInto_find (x g : string) (groups : list (string * Z)) :
  option_map snd (find (fun p => String.eqb (fst p) g) (N4.countInto x groups))
  = if String.eqb x g
    then Some (match option_map snd (find (fun p => String.eqb (fst p) x) groups) with
               | Some m => m + 1
               | None => 1
               end)
    else option_map snd (find (fun p => String.eqb (fst p) g) groups).
Proof.
  induction groups as [|[g0 n] groups IH]; simpl.
  - now destruct (String.eqb x g).
  - destruct (String.eqb_spec g0 x) as [-> | Hne]; simpl.
    + now destruct (String.eqb x g).
    + destruct (String.eqb_spec g0 g) as [-> | Hg0]; simpl.
      * destruct (String.eqb_spec x g); [subst; contradiction | reflexivity].
      * rewrite IH. now destruct (String.eqb x g).
Qed.

Lemma countByGrade_snoc (grades : list string) (x : string) :
  N4.countByGrade (grades ++ [x]) = N4.countInto x (N4.countByGrade grades).
Proof. unfold N4.countByGrade. now rewrite fold_left_app. Qed.

Lemma countByGrade_NoDup (grades : list string) :
  NoDup (map fst (N4.countByGrade grades)).
Proof.
  induction grades as [|x grades IH] using rev_ind; [constructor|].
  rewrite countByGrade_snoc. now apply countInto_NoDup.
Qed.

Lemma countByGrade_find (grades : list string) (g : string) :
  option_map snd (find (fun p => String.eqb (fst p) g) (N4.countByGrade grades))
  = if (count_occ string_dec grades g =? 0)%nat then None
    else Some (Z.of_nat (count_occ string_dec grades g)).
Proof.
  induction grades as [|x grades IH] using rev_ind; [reflexivity|].
  rewrite countByGrade_snoc, countInto_find, count_occ_app. simpl.
  destruct (String.eqb_spec x g) as [-> | Hne].
  - rewrite IH. destruct (string_dec g g) as [_ | Hgg]; [|contradiction].
    destruct (Nat.eqb_spec (count_occ string_dec grades g) 0) as [-> | Hpos].
    + reflexivity.
    + destruct (Nat.eqb_spec (count_occ string_dec grades g + 1) 0); [lia|].
      f_equal. lia.
  - rewrite IH. destruct (string_dec x g) as [Heq | _]; [contradiction|].
    now rewrite Nat.add_0_r.
Qed.

Lemma find_NoDup_keys (g : string) (n : Z) (groups : list (string * Z)) :
  NoDup (map fst groups) ->
  In (g, n) groups
  <-> option_map snd (find (fun p => String.eqb (fst p) g) groups) = Some n.
Proof.
  induction groups as [|[g0 m] groups IH]; simpl; intros Hnd.
  - split; [intros [] | discriminate].
  - apply NoDup_cons_iff in Hnd as [Hfresh Hnd].
    destruct (String.eqb_spec g0 g) as [-> | Hne]; simpl.
    + split.
      * intros [[= ->] | Hin]; [reflexivity|].
        exfalso. apply Hfresh. apply in_map_iff. now exists (g, n).
      * intros [= ->]. now left.
    + rewrite <- (IH Hnd). split.
      * intros [[= -> _] | Hin]; [contradiction | exact Hin].
      * intros Hin. now right.
Qed.

Lemma Neo4j_grades_counted (g : N4.Graph) (grade : string) :
  count_occ string_dec
    (flat_map (fun n => match N4.Node.grade n with
                        | Some grade =>
                            if String.eqb (N4.Node.state n) ScanState.FINISHED
                            then [grade] else []
                        | None => []
                        end) (N4.Scan g)) grade
  = List.length (Neo4j_finishedWithGrade g grade).
Proof.
  unfold Neo4j_finishedWithGrade.
  induction (N4.Scan g) as [|n scans IH]; simpl; [reflexivity|].
  rewrite count_occ_app, IH.
  destruct (N4.Node.grade n) as [x|];
    destruct (String.eqb (N4.Node.state n) ScanState.FINISHED); simpl;
    try reflexivity.
  destruct (String.eqb_spec x grade) as [-> | Hne].
  - destruct (string_dec grade grade); [reflexivity | contradiction].
  - destruct (string_dec x grade); [contradiction | reflexivity].
Qed.

Lemma Neo4j_selectGradeDistribution_counts (g : N4.Graph) :
  NoDup (map fst (N4.selectGradeDistribution g))
  /\ (forall grade count,
        In (grade, count) (N4.selectGradeDistribution g)
        <-> 0 < count
            /\ count = Z.of_nat (List.length (Neo4j_finishedWithGrade g grade)))
  /\ StronglySorted (fun a b => gradeBefore (fst a) (fst b))
       (N4.selectGradeDistribution g).
Proof.
  unfold N4.selectGradeDistribution.
  set (grades := flat_map _ (N4.Scan g)).
  set (le := fun a b : string * Z =>
               ascNullsLast (N4.gradeCase (fst a)) (N4.gradeCase (fst b))).
  assert (Hperm : Permutation (orderBy le (N4.countByGrade grades))
                              (N4.countByGrade grades))
    by apply orderBy_Permutation.
  assert (Hnd : NoDup (map fst (N4.countByGrade grades)))
    by apply countByGrade_NoDup.
  split; [|split].
  - eapply Permutation_NoDup; [|exact Hnd].
    apply Permutation_map, Permutation_sym, Hperm.
  - intros grade count.
    assert (In (grade, count) (orderBy le (N4.countByGrade grades))
            <-> In (grade, count) (N4.countByGrade grades)) as ->.
    { split; apply Permutation_in; [exact Hperm | now apply Permutation_sym]. }
    rewrite (find_NoDup_keys grade count _ Hnd), countByGrade_find.
    unfold grades. rewrite Neo4j_grades_counted.
    destruct (Nat.eqb_spec (List.length (Neo4j_finishedWithGrade g grade)) 0)
      as [Hz | Hpos].
    + rewrite Hz. split; [discriminate | simpl; lia].
    + split.
      * intros [= <-]. split; [lia | reflexivity].
      * intros [_ ->]. reflexivity.
  - eapply StronglySorted_weaken;
      [|apply (orderBy_StronglySorted le
                 (fun a b => ascNullsLast_total (fun p => N4.gradeCase (fst p)) a b)
                 (fun a b c => ascNullsLast_trans (fun p => N4.gradeCase (fst p)) a b c))].
    intros a b. unfold le, gradeBefore.
    now rewrite !gradeCase_array_position, ascNullsLast_shift.
Qed.

Lemma PostgreSQL_selectGradeDistribution_sorted (view : list (string * Z)) :
  Permutation (PG.selectGradeDistribution view) view
  /\ StronglySorted (fun a b => gradeBefore (fst a) (fst b))
       (PG.selectGradeDistribution view).
Proof.
  unfold PG.selectGradeDistribution. split; [apply orderBy_Permutation|].
  apply (orderBy_StronglySorted _
           (fun a b => ascNullsLast_total
                         (fun p => PG.array_position PG.gradeRanking (fst p)) a b)
           (fun a b c => ascNullsLast_trans
                           (fun p => PG.array_position PG.gradeRanking (fst p)) a b c)).
Qed.

(** selectGradeDistribution.  On the graph backend it returns one entry
    per grade that some FINISHED scan has, no grade twice, each with the
    number of FINISHED scans of that grade; on the relational backend it
    returns the rows of the [grade_distribution] view, all of them and
    nothing else.  Both put the entries in the same order: the thirteen
    grades from A+ to F, any other string after them; the CASE expression
    of the graph query is the array position of the SQL query less one. *)
Theorem selectGradeDistribution_ranked :
  (forall g,
      NoDup (map fst (N4.selectGradeDistribution g))
      /\ (forall grade count,
            In (grade, count) (N4.selectGradeDistribution g)
            <-> 0 < count
                /\ count = Z.of_nat (List.length (Neo4j_finishedWithGrade g grade)))
      /\ StronglySorted (fun a b => gradeBefore (fst a) (fst b))
           (N4.selectGradeDistribution g))
  /\ (forall view,
      Permutation (PG.selectGradeDistribution view) view
      /\ StronglySorted (fun a b => gradeBefore (fst a) (fst b))
           (PG.selectGradeDistribution view))
  /\ (forall grade,
      N4.gradeCase grade
      = option_map (fun k => k - 1) (PG.array_position PG.gradeRanking grade)).
Proof.
  split; [|split].
  - exact Neo4j_selectGradeDistribution_counts.
  - exact PostgreSQL_selectGradeDistribution_sorted.
  - exact gradeCase_array_position.
Qed.

(** ** ensureSite: one Site per domain *)

Lemma existsb_false_In {A : Type} (p : A -> bool) (l : list A) :
  existsb p l = false <-> forall x, In x l -> p x = false.
Proof.
  induction l as [|y l IH]; simpl.
  - split; [intros _ x [] | reflexivity].
  - rewrite Bool.orb_false_iff, IH. split.
    + intros [Hy Hl] x [<- | Hx]; [exact Hy | now apply Hl].
    + intros H. split; [apply H; now left | intros x Hx; apply H; now right].
Qed.

Lemma NoDup_map_snoc {A B : Type} (f : A -> B) (l : list A) (x : A) :
  NoDup (map f l) -> (forall y, In y l -> f y <> f x) -> NoDup (map f (l ++ [x])).
Proof.
  intros Hnd Hfresh. rewrite map_app. apply NoDup_snoc; [exact Hnd|].
  intros Hin. apply in_map_iff in Hin as (y & Hy & Hin). exact (Hfresh y Hin Hy).
Qed.

Lemma PostgreSQL_ensureSite_site (db : PG.Db) (key : string) (now : Z) :
  exists db' s,
    PG.ensureSite db key now = resolved (db', PG.sites_id s)
    /\ In s (PG.sites db') /\ PG.sites_domain s = key
    /\ (forall s0, In s0 (PG.sites db) -> PG.sites_domain s0 = key ->
        PG.sites_creation_time s0 <= PG.sites_creation_time s)
    /\ PG.scans db' = PG.scans db /\ PG.tests db' = PG.tests db
    /\ (existsb (fun s0 => String.eqb (PG.sites_domain s0) key) (PG.sites db) = true ->
        db' = db)
    /\ (existsb (fun s0 => String.eqb (PG.sites_domain s0) key) (PG.sites db) = false ->
        PG.sites db' = PG.sites db ++ [s]
        /\ s = {| PG.sites_id := PG.sites_id_seq db; PG.sites_domain := key;
                  PG.sites_creation_time := now |})
    /\ (NoDup (map PG.sites_domain (PG.sites db)) ->
        NoDup (map PG.sites_domain (PG.sites db'))).
Proof.
  unfold PG.ensureSite.
  destruct (PG.selectSite db key) as [|row rest] eqn:E; unfold PG.selectSite in E.
  - apply firstn_one_nil, orderBy_nil in E.
    pose proof (proj1 (filter_nil_iff _ _) E) as Hnone.
    eexists _, _. split; [reflexivity|]. simpl.
    split; [apply in_or_app; right; now left|]. split; [reflexivity|].
    split.
    { intros s0 Hin Hdom. specialize (Hnone s0 Hin). simpl in Hnone.
      rewrite Hdom, String.eqb_refl in Hnone. discriminate. }
    split; [reflexivity|]. split; [reflexivity|].
    split.
    { intros Hex. apply existsb_exists in Hex as (s0 & Hin & Hdom).
      rewrite (Hnone s0 Hin) in Hdom. discriminate. }
    split; [intros _; split; reflexivity|].
    intros Hnd. apply NoDup_map_snoc; [exact Hnd|].
    intros y Hy Hdom. specialize (Hnone y Hy). simpl in Hnone, Hdom.
    rewrite Hdom, String.eqb_refl in Hnone. discriminate.
  - assert (Hhd : hd_error
                    (firstn 1
                       (orderBy (fun a b => PG.sites_creation_time b
                                            <=? PG.sites_creation_time a)
                          (filter (fun s => String.eqb (PG.sites_domain s) key)
                             (PG.sites db)))) = Some row)
      by now rewrite E.
    apply latest_first in Hhd as [Hin Hmax].
    apply filter_In in Hin as [Hin Hdom]. apply String.eqb_eq in Hdom.
    exists db, row. split; [reflexivity|]. split; [exact Hin|].
    split; [exact Hdom|]. split.
    { intros s0 Hin0 Hdom0. apply Hmax. apply filter_In. split; [exact Hin0|].
      now apply String.eqb_eq. }
    split; [reflexivity|]. split; [reflexivity|]. split; [reflexivity|].
    split; [|intros Hnd; exact Hnd].
    intros Hex. exfalso.
    pose proof (proj1 (existsb_false_In _ _) Hex row Hin) as Hno. simpl in Hno.
    rewrite Hdom, String.eqb_refl in Hno. discriminate.
Qed.

Lemma Neo4j_ensureSite_site (g : N4.Graph) (key : string) (nowId nowCreation : Z) :
  exists g' s,
    N4.ensureSite g key nowId nowCreation = resolved (g', N4.Node.site_id s)
    /\ In s (N4.Site g') /\ N4.Node.domain s = key
    /\ (forall s0, In s0 (N4.Site g) -> N4.Node.domain s0 = key ->
        N4.Node.creationTime s0 <= N4.Node.creationTime s)
    /\ N4.Scan g' = N4.Scan g /\ N4.TestResult g' = N4.TestResult g
    /\ N4.HAS_SCAN g' = N4.HAS_SCAN g /\ N4.HAS_TEST g' = N4.HAS_TEST g
    /\ (existsb (fun s0 => String.eqb (N4.Node.domain s0) key) (N4.Site g) = true ->
        g' = g)
    /\ (existsb (fun s0 => String.eqb (N4.Node.domain s0) key) (N4.Site g) = false ->
        N4.Site g' = N4.Site g ++ [s]
        /\ s = {| N4.Node.site_id :=
                    String.append (N4.replaceNonAlphanumeric key)
                      (String.append "_" (N4.numberToString nowId));
                  N4.Node.domain := key;
                  N4.Node.creationTime := nowCreation |})
    /\ (NoDup (map N4.Node.domain (N4.Site g)) ->
        NoDup (map N4.Node.domain (N4.Site g'))).
Proof.
  unfold N4.ensureSite.
  destruct (firstn 1 _) as [|row rest] eqn:E.
  - apply firstn_one_nil, orderBy_nil in E.
    pose proof (proj1 (filter_nil_iff _ _) E) as Hnone.
    eexists _, {| N4.Node.site_id :=
                    String.append (N4.replaceNonAlphanumeric key)
                      (String.append "_" (N4.numberToString nowId));
                  N4.Node.domain := key;
                  N4.Node.creationTime := nowCreation |}.
    split; [reflexivity|]. simpl.
    split; [apply in_or_app; right; now left|]. split; [reflexivity|].
    split.
    { intros s0 Hin Hdom. specialize (Hnone s0 Hin). simpl in Hnone.
      rewrite Hdom, String.eqb_refl in Hnone. discriminate. }
    do 4 (split; [reflexivity|]).
    split.
    { intros Hex. apply existsb_exists in Hex as (s0 & Hin & Hdom).
      rewrite (Hnone s0 Hin) in Hdom. discriminate. }
    split; [intros _; split; reflexivity|].
    intros Hnd. apply NoDup_map_snoc; [exact Hnd|].
    intros y Hy Hdom. specialize (Hnone y Hy). simpl in Hnone, Hdom.
    rewrite Hdom, String.eqb_refl in Hnone. discriminate.
  - assert (Hhd : hd_error
                    (firstn 1
                       (orderBy (fun a b => N4.Node.creationTime b
                                            <=? N4.Node.creationTime a)
                          (filter (fun s => String.eqb (N4.Node.domain s) key)
                             (N4.Site g)))) = Some row)
      by now rewrite E.
    apply latest_first in Hhd as [Hin Hmax].
    apply filter_In in Hin as [Hin Hdom].
    exists g, row. split; [reflexivity|]. split; [exact Hin|].
    split; [now apply String.eqb_eq|]. split.
    { intros s0 Hin0 Hdom0. apply Hmax. apply filter_In. split; [exact Hin0|].
      now apply String.eqb_eq. }
    do 5 (split; [reflexivity|]).
    split; [|intros Hnd; exact Hnd].
    intros Hex. exfalso.
    rewrite (proj1 (existsb_false_In _ _) Hex row Hin) in Hdom. discriminate.
Qed.

(** C9: on both backends [ensureSite] is a lookup-or-create.  The first
    call resolves to the id of a Site of domain [k] that the store holds
    afterwards; it either leaves the store as it was or adds that one
    Site, and never touches scans, tests or relationships.  A second call
    with the same key resolves to the same id and leaves the store as it
    is. *)
Theorem ensureSite_idempotent (k : string) :
  (forall db now1 now2, exists db1 s,
      PG.ensureSite db k now1 = resolved (db1, PG.sites_id s)
      /\ In s (PG.sites db1) /\ PG.sites_domain s = k
      /\ (db1 = db \/ PG.sites db1 = PG.sites db ++ [s])
      /\ PG.scans db1 = PG.scans db /\ PG.tests db1 = PG.tests db
      /\ PG.ensureSite db1 k now2 = resolved (db1, PG.sites_id s))
  /\ (forall g t1 t2 t3 t4, exists g1 s,
      N4.ensureSite g k t1 t2 = resolved (g1, N4.Node.site_id s)
      /\ In s (N4.Site g1) /\ N4.Node.domain s = k
      /\ (g1 = g \/ N4.Site g1 = N4.Site g ++ [s])
      /\ N4.Scan g1 = N4.Scan g /\ N4.TestResult g1 = N4.TestResult g
      /\ N4.HAS_SCAN g1 = N4.HAS_SCAN g /\ N4.HAS_TEST g1 = N4.HAS_TEST g
      /\ N4.ensureSite g1 k t3 t4 = resolved (g1, N4.Node.site_id s)).
Proof.
  split.
  - intros db now1 now2.
    destruct (PostgreSQL_ensureSite_site db k now1)
      as (db1 & s & Hrun & Hin & Hdom & _ & Hscans & Htests & Hold & Hnew & _).
    destruct (PostgreSQL_ensureSite_twice db k now1 now2)
      as (db1' & siteId & Hrun' & Hagain).
    rewrite Hrun in Hrun'. injection Hrun' as <- <-.
    exists db1, s. split; [exact Hrun|]. split; [exact Hin|]. split; [exact Hdom|].
    split; [|split; [exact Hscans | split; [exact Htests | exact Hagain]]].
    destruct (existsb _ (PG.sites db));
      [left; now apply Hold | right; exact (proj1 (Hnew eq_refl))].
  - intros g t1 t2 t3 t4.
    destruct (Neo4j_ensureSite_site g k t1 t2)
      as (g1 & s & Hrun & Hin & Hdom & _ & Hscans & Htests & Hrel & Hedges
          & Hold & Hnew & _).
    destruct (Neo4j_ensureSite_twice g k t1 t2 t3 t4)
      as (g1' & siteId & Hrun' & Hagain).
    rewrite Hrun in Hrun'. injection Hrun' as <- <-.
    exists g1, s. split; [exact Hrun|]. split; [exact Hin|]. split; [exact Hdom|].
    split; [|repeat split; assumption].
    destruct (existsb _ (N4.Site g));
      [left; now apply Hold | right; exact (proj1 (Hnew eq_refl))].
Qed.

(** ensureSite always resolves, to the id of a Site whose domain is the
    key.  When the store holds Sites of that domain it returns the most
    recently created one and writes nothing; otherwise it adds one Site,
    with the next id of the sequence on the relational backend and with
    the key, its non-alphanumeric characters replaced, followed by the
    clock reading on the graph backend.  Scans, tests and relationships are
    untouched, and a store with at most one Site per domain stays so. *)
Theorem ensureSite_one_site_per_domain :
  (forall db key now, exists db' s,
      PG.ensureSite db key now = resolved (db', PG.sites_id s)
      /\ In s (PG.sites db') /\ PG.sites_domain s = key
      /\ (forall s0, In s0 (PG.sites db) -> PG.sites_domain s0 = key ->
          PG.sites_creation_time s0 <= PG.sites_creation_time s)
      /\ PG.scans db' = PG.scans db /\ PG.tests db' = PG.tests db
      /\ (existsb (fun s0 => String.eqb (PG.sites_domain s0) key) (PG.sites db) = true ->
          db' = db)
      /\ (existsb (fun s0 => String.eqb (PG.sites_domain s0) key) (PG.sites db) = false ->
          PG.sites db' = PG.sites db ++ [s]
          /\ s = {| PG.sites_id := PG.sites_id_seq db; PG.sites_domain := key;
                    PG.sites_creation_time := now |})
      /\ (NoDup (map PG.sites_domain (PG.sites db)) ->
          NoDup (map PG.sites_domain (PG.sites db'))))
  /\ (forall g key nowId nowCreation, exists g' s,
      N4.ensureSite g key nowId nowCreation = resolved (g', N4.Node.site_id s)
      /\ In s (N4.Site g') /\ N4.Node.domain s = key
      /\ (forall s0, In s0 (N4.Site g) -> N4.Node.domain s0 = key ->
          N4.Node.creationTime s0 <= N4.Node.creationTime s)
      /\ N4.Scan g' = N4.Scan g /\ N4.TestResult g' = N4.TestResult g
      /\ N4.HAS_SCAN g' = N4.HAS_SCAN g /\ N4.HAS_TEST g' = N4.HAS_TEST g
      /\ (existsb (fun s0 => String.eqb (N4.Node.domain s0) key) (N4.Site g) = true ->
          g' = g)
      /\ (existsb (fun s0 => String.eqb (N4.Node.domain s0) key) (N4.Site g) = false ->
          N4.Site g' = N4.Site g ++ [s]
          /\ s = {| N4.Node.site_id :=
                      String.append (N4.replaceNonAlphanumeric key)
                        (String.append "_" (N4.numberToString nowId));
                    N4.Node.domain := key;
                    N4.Node.creationTime := nowCreation |})
      /\ (NoDup (map N4.Node.domain (N4.Site g)) ->
          NoDup (map N4.Node.domain (N4.Site g')))).
Proof.
  split.
  - exact PostgreSQL_ensureSite_site.
  - exact Neo4j_ensureSite_site.
Qed.

Lemma ensureSite_one_site_per_domain_witness :
  (exists db' s,
      PG.ensureSite (Scenario.Relational.store []) "mozilla.org" 5000
      = resolved (db', PG.sites_id s)
      /\ PG.sites db' = [Scenario.Relational.site; s]
      /\ PG.sites_id s = 2
      /\ NoDup (map PG.sites_domain (PG.sites db')))
  /\ (exists g' s,
      N4.ensureSite (Scenario.Graph.store []) "mozilla.org" 5000 5001
      = resolved (g', N4.Node.site_id s)
      /\ N4.Site g' = [Scenario.Graph.site; s]
      /\ N4.Node.site_id s = "mozilla_org_5000"%string
      /\ NoDup (map N4.Node.domain (N4.Site g'))).
Proof.
  destruct ensureSite_one_site_per_domain as [Hpg Hneo]. split.
  - destruct (Hpg (Scenario.Relational.store []) "mozilla.org"%string 5000)
      as (db' & s & Hrun & _ & _ & _ & _ & _ & _ & Hnew & Hnd).
    destruct (Hnew eq_refl) as [Hsites Hs].
    exists db', s. split; [exact Hrun|]. split; [exact Hsites|].
    split; [now rewrite Hs|]. apply Hnd. simpl.
    constructor; [intros [] | constructor].
  - destruct (Hneo (Scenario.Graph.store []) "mozilla.org"%string 5000 5001)
      as (g' & s & Hrun & _ & _ & _ & _ & _ & _ & _ & _ & Hnew & Hnd).
    destruct (Hnew eq_refl) as [Hsites Hs].
    exists g', s. split; [exact Hrun|]. split; [exact Hsites|].
    split; [now rewrite Hs|]. apply Hnd. simpl.
    constructor; [intros [] | constructor].
Defined.

(** ** ensureSite, then insertScan *)

Lemma createScan_fold_Site (randomUuid : nat -> string) (siteId : string) (now : Z)
    (matched : list nat) (g : N4.Graph) (records : list N4.Node.Scan) :
  N4.Site (fst (fold_left (N4.createScan randomUuid siteId now) matched (g, records)))
  = N4.Site g.
Proof.
  revert g records. induction matched as [|i matched IH]; intros g records; simpl;
    [reflexivity|].
  now rewrite IH.
Qed.

Lemma Neo4j_insertScan_Site (randomUuid : nat -> string) (g g' : N4.Graph)
    (siteId : string) (now : Z) (row : N4.ScanRow) :
  N4.insertScan randomUuid g siteId now = resolved (g', row) -> N4.Site g' = N4.Site g.
Proof.
  unfold N4.insertScan.
  pose proof (createScan_fold_Site randomUuid siteId now
                (N4.matchFrom (fun s => String.eqb (N4.Node.site_id s) siteId) 0
                   (N4.Site g)) g []) as Hsite.
  destruct (fold_left _ _ _) as [g2 records]. simpl in Hsite.
  destruct records; [discriminate|]. intros [= <- _]. exact Hsite.
Qed.

Lemma PostgreSQL_ensureSite_insertScan (db : PG.Db) (key : string) (t1 t2 : Z) :
  exists db1 siteId db2 row,
    PG.ensureSite db key t1 = resolved (db1, siteId)
    /\ PG.insertScan db1 siteId t2 = resolved (db2, Some row)
    /\ PG.site_id row = siteId /\ PG.state row = ScanState.RUNNING
    /\ PG.start_time row = t2
    /\ PostgreSQL_scanOfHost db2 key row.
Proof.
  destruct (PostgreSQL_ensureSite_site db key t1)
    as (db1 & s & Hrun & Hin & Hdom & _).
  assert (Hex : PG.siteExists db1 (PG.sites_id s) = true).
  { apply existsb_exists. exists s. split; [exact Hin | apply Z.eqb_refl]. }
  exists db1, (PG.sites_id s). unfold PG.insertScan. rewrite Hex.
  eexists _, _. split; [exact Hrun|]. split; [reflexivity|].
  repeat split.
  - simpl. apply in_or_app. right. now left.
  - exists s. simpl. repeat split; assumption.
Qed.

Lemma Neo4j_ensureSite_insertScan (randomUuid : nat -> string) (g : N4.Graph)
    (key : string) (t1 t1' t2 : Z) :
  exists g1 siteId g2 row,
    N4.ensureSite g key t1 t1' = resolved (g1, siteId)
    /\ N4.insertScan randomUuid g1 siteId t2 = resolved (g2, row)
    /\ N4.site_id row = siteId /\ N4.state row = ScanState.RUNNING
    /\ N4.start_time row = t2
    /\ (Neo4j_owned g -> NoDup (map N4.Node.site_id (N4.Site g1)) ->
        exists n,
          Neo4j_hasScan g2 (fun s => String.eqb (N4.Node.domain s) key) n
          /\ N4._mapScanRow n = row).
Proof.
  destruct (Neo4j_ensureSite_site g key t1 t1')
    as (g1 & s & Hrun & Hin & Hdom & _).
  assert (Hex : existsb (fun s0 => String.eqb (N4.Node.site_id s0) (N4.Node.site_id s))
                  (N4.Site g1) = true).
  { apply existsb_exists. exists s. split; [exact Hin | apply String.eqb_refl]. }
  destruct (Neo4j_insertScan_creates randomUuid g1 (N4.Node.site_id s) t2 Hex)
    as (g2 & row & Hrun2 & Hnode & Hrow).
  exists g1, (N4.Node.site_id s), g2, row.
  split; [exact Hrun|]. split; [exact Hrun2|].
  split; [now subst row|]. split; [now subst row|]. split; [now subst row|].
  intros Hown Hnd.
  assert (Hown1 : Neo4j_owned g1)
    by exact (proj1 (Neo4j_owned_writes randomUuid g Hown) _ _ _ _ _ Hrun).
  assert (Hown2 : Neo4j_owned g2)
    by exact (proj1 (proj2 (Neo4j_owned_writes randomUuid g1 Hown1)) _ _ _ _ Hrun2).
  destruct (nth_error (N4.Scan g2) (List.length (N4.Scan g1))) as [n|] eqn:Hn;
    [|discriminate].
  simpl in Hnode. injection Hnode as Hmap.
  assert (Hlt : (List.length (N4.Scan g1) < List.length (N4.Scan g2))%nat)
    by (apply nth_error_Some; congruence).
  destruct Hown2 as (Hscan & _ & Hends & _).
  destruct (Hends _ Hlt) as (a & Hedge).
  destruct (Hscan _ _ Hedge) as (s' & n' & Hs' & Hn' & Hid).
  rewrite Hn in Hn'. injection Hn' as <-.
  rewrite (Neo4j_insertScan_Site _ _ _ _ _ _ Hrun2) in Hs'.
  assert (s' = s) as ->.
  { apply (NoDup_map_In_eq N4.Node.site_id (N4.Site g1)); try assumption.
    - eapply nth_error_In; exact Hs'.
    - rewrite <- Hid. rewrite <- Hmap in Hrow.
      apply (f_equal N4.site_id) in Hrow. exact Hrow. }
  exists n. split; [|exact Hmap].
  exists a, (List.length (N4.Scan g1)), s.
  rewrite (Neo4j_insertScan_Site _ _ _ _ _ _ Hrun2).
  split; [exact Hs'|]. split; [now apply String.eqb_eq|].
  split; [exact Hedge | exact Hn].
Qed.

(** ensureSite followed by insertScan with the id it returned never
    fails, whatever the store held: the scan is created RUNNING for that
    id with the clock reading as start time, and it is a scan of the host.
    On the graph backend the last part needs a graph that keeps ownership
    and has no two Sites with the same id: insertScan matches the Site by
    id, and creates the scan under every Site that carries it. *)
Theorem ensureSite_then_insertScan :
  (forall db key t1 t2, exists db1 siteId db2 row,
      PG.ensureSite db key t1 = resolved (db1, siteId)
      /\ PG.insertScan db1 siteId t2 = resolved (db2, Some row)
      /\ PG.site_id row = siteId /\ PG.state row = ScanState.RUNNING
      /\ PG.start_time row = t2
      /\ PostgreSQL_scanOfHost db2 key row)
  /\ (forall randomUuid g key t1 t1' t2, exists g1 siteId g2 row,
      N4.ensureSite g key t1 t1' = resolved (g1, siteId)
      /\ N4.insertScan randomUuid g1 siteId t2 = resolved (g2, row)
      /\ N4.site_id row = siteId /\ N4.state row = ScanState.RUNNING
      /\ N4.start_time row = t2
      /\ (Neo4j_owned g -> NoDup (map N4.Node.site_id (N4.Site g1)) ->
          exists n,
            Neo4j_hasScan g2 (fun s => String.eqb (N4.Node.domain s) key) n
            /\ N4._mapScanRow n = row)).
Proof.
  split.
  - exact PostgreSQL_ensureSite_insertScan.
  - exact Neo4j_ensureSite_insertScan.
Qed.

Lemma ensureSite_then_insertScan_witness :
  exists g1 siteId g2 row n,
    N4.ensureSite Neo4j_empty "example.com" 1000 1000 = resolved (g1, siteId)
    /\ N4.insertScan Scenario.uuid g1 siteId 2000 = resolved (g2, row)
    /\ Neo4j_hasScan g2 (fun s => String.eqb (N4.Node.domain s) "example.com") n
    /\ N4._mapScanRow n = row.
Proof.
  destruct (proj2 ensureSite_then_insertScan Scenario.uuid Neo4j_empty
              "example.com"%string 1000 1000 2000)
    as (g1 & siteId & g2 & row & Hrun & Hrun2 & _ & _ & _ & Hhost).
  assert (Hnd : NoDup (map N4.Node.site_id (N4.Site g1))).
  { vm_compute in Hrun. injection Hrun as <- _. simpl.
    constructor; [intros [] | constructor]. }
  destruct (Hhost Neo4j_owned_empty Hnd) as (n & Hn & Hmap).
  exists g1, siteId, g2, row, n. repeat split; assumption.
Defined.

(** ** selectTestResults follows the relationship, the rows carry the id *)

Lemma Neo4j_selectTestResults_In (g : N4.Graph) (scanId : string) (row : N4.TestRow) :
  Neo4j_owned g ->
  In row (N4.selectTestResults g scanId)
  <-> exists t, In t (N4.TestResult g) /\ N4.Node.scanId t = scanId
                /\ row = Neo4j_testRow t.
Proof.
  intros (_ & Htest & _ & Hends & _). unfold N4.selectTestResults.
  rewrite in_map_iff. split.
  - intros (t & <- & Hin).
    apply expand_In_iff in Hin as (i & b & Hi & Hedge & Ht).
    apply matchFrom_In in Hi as (_ & n & Hn & Hid).
    rewrite Nat.sub_0_r in Hn. apply String.eqb_eq in Hid.
    destruct (Htest i b Hedge) as (n' & t' & Hn' & Ht' & Heq).
    rewrite Hn in Hn'. injection Hn' as <-.
    rewrite Ht in Ht'. injection Ht' as <-.
    exists t. split; [eapply nth_error_In; exact Ht|].
    split; [congruence | reflexivity].
  - intros (t & Hin & Hid & ->).
    apply In_nth_error in Hin as (b & Ht).
    assert (Hlt : (b < List.length (N4.TestResult g))%nat)
      by (apply nth_error_Some; congruence).
    destruct (Hends b Hlt) as (a & Hedge).
    destruct (Htest a b Hedge) as (n & t' & Hn & Ht' & Heq).
    rewrite Ht in Ht'. injection Ht' as <-.
    exists t. split; [reflexivity|].
    apply (expand_In _ _ _ a b t); [|exact Hedge | exact Ht].
    apply matchFrom_In. split; [lia|]. exists n. rewrite Nat.sub_0_r.
    split; [exact Hn|]. apply String.eqb_eq. congruence.
Qed.

(** On both backends selectTestResults returns the stored tests that
    carry the scan id asked for, and no other.  The relational query
    selects on the [scan_id] column; the graph query follows the HAS_TEST
    relationships of the Scan nodes with that id, which in a graph that
    keeps ownership reaches the TestResult nodes whose [scanId] property is
    that id, all of them. *)
Theorem selectTestResults_by_scan_id :
  (forall db scanId row,
      In row (PG.selectTestResults db scanId)
      <-> In row (PG.tests db) /\ PG.tests_scan_id row = scanId)
  /\ (forall g scanId row,
      Neo4j_owned g ->
      In row (N4.selectTestResults g scanId)
      <-> exists t, In t (N4.TestResult g) /\ N4.Node.scanId t = scanId
                    /\ row = Neo4j_testRow t).
Proof.
  split.
  - intros db scanId row. unfold PG.selectTestResults.
    rewrite filter_In, Z.eqb_eq. reflexivity.
  - exact Neo4j_selectTestResults_In.
Qed.

Lemma selectTestResults_by_scan_id_witness :
  exists g' row0,
    N4.insertTestResults Scenario.uuid
      (Scenario.Graph.store [Scenario.Graph.running 0 2000])
      "example_com_1000" "scan-0"
      (Scenario.outcome (Some 105) (Some "A+"%string) None Scenario.twoTests) 2500
    = resolved (g', row0)
    /\ List.length (N4.selectTestResults g' "scan-0") = 2%nat
    /\ forall row, In row (N4.selectTestResults g' "scan-0") ->
                   N4.tests_scan_id row = "scan-0"%string.
Proof.
  destruct (N4.insertTestResults Scenario.uuid
              (Scenario.Graph.store [Scenario.Graph.running 0 2000])
              "example_com_1000" "scan-0"
              (Scenario.outcome (Some 105) (Some "A+"%string) None Scenario.twoTests)
              2500) as [e | [g' row0]] eqn:Hrun;
    [exfalso; vm_compute in Hrun; discriminate Hrun|].
  exists g', row0. split; [reflexivity|].
  assert (Hown : Neo4j_owned g')
    by exact (proj1 (proj2 (proj2 (Neo4j_owned_writes Scenario.uuid _
                                     Neo4j_owned_one_scan))) _ _ _ _ _ _ Hrun).
  split.
  - vm_compute in Hrun. injection Hrun as <- _. reflexivity.
  - intros row Hin.
    destruct (proj1 (proj2 selectTestResults_by_scan_id g' "scan-0"%string row Hown) Hin)
      as (t & _ & Hid & ->).
    exact Hid.
Defined.

Lemma selectGradeDistribution_ranked_witness :
  In ("A"%string, 2)
     (N4.selectGradeDistribution
        (Scenario.Graph.store
           [Scenario.Graph.finished 0 2000 2500 100;
            Scenario.Graph.running 1 3000;
            Scenario.Graph.finished 2 4000 4500 90])).
Proof.
  apply (proj2 (proj1 (proj2 (proj1 selectGradeDistribution_ranked
                                (Scenario.Graph.store
                                   [Scenario.Graph.finished 0 2000 2500 100;
                                    Scenario.Graph.running 1 3000;
                                    Scenario.Graph.finished 2 4000 4500 90])))
                  "A"%string 2)).
  split; [lia | reflexivity].
Defined.

(** ** insertTestResults and the site id *)




(** ** insertScan: one scan under every Site that carries the id *)

Lemma matchFrom_length {A : Type} (p : A -> bool) (k : nat) (l : list A) :
  List.length (N4.matchFrom p k l) = List.length (filter p l).
Proof.
  revert k. induction l as [|x l IH]; intros k; simpl; [reflexivity|].
  rewrite length_app, IH. now destruct (p x).
Qed.

Lemma filter_key_at_most_one {A : Type} (key : A -> string) (v : string) (l : list A) :
  NoDup (map key l) ->
  (List.length (filter (fun x => String.eqb (key x) v) l) <= 1)%nat.
Proof.
  induction l as [|x l IH]; simpl; intros Hnd; [lia|].
  apply NoDup_cons_iff in Hnd as [Hx Hnd].
  destruct (String.eqb_spec (key x) v) as [Hv | _]; [|now apply IH].
  assert (filter (fun y => String.eqb (key y) v) l = []) as ->; [|simpl; lia].
  apply filter_nil_iff. intros y Hy. apply String.eqb_neq. intros Hyv.
  apply Hx. rewrite Hv, <- Hyv. now apply in_map.
Qed.

Lemma createScan_fold_all (randomUuid : nat -> string) (siteId : string) (now : Z)
    (matched : list nat) (g : N4.Graph) (records : list N4.Node.Scan) :
  exists created,
    snd (fold_left (N4.createScan randomUuid siteId now) matched (g, records))
    = records ++ created
    /\ N4.Scan (fst (fold_left (N4.createScan randomUuid siteId now) matched (g, records)))
       = N4.Scan g ++ created
    /\ List.length created = List.length matched
    /\ map N4.Node.id created
       = map randomUuid (seq (N4.drawn g) (List.length matched))
    /\ Forall (fun n => N4.Node.siteId n = siteId
                        /\ N4.Node.state n = ScanState.RUNNING
                        /\ N4.Node.startTime n = now) created
    /\ N4.HAS_SCAN (fst (fold_left (N4.createScan randomUuid siteId now) matched
                           (g, records)))
       = N4.HAS_SCAN g
         ++ combine matched (seq (List.length (N4.Scan g)) (List.length matched))
    /\ N4.TestResult (fst (fold_left (N4.createScan randomUuid siteId now) matched
                             (g, records)))
       = N4.TestResult g
    /\ N4.HAS_TEST (fst (fold_left (N4.createScan randomUuid siteId now) matched
                           (g, records)))
       = N4.HAS_TEST g.
Proof.
  revert g records. induction matched as [|i matched IH]; intros g records.
  - exists []. simpl. rewrite !app_nil_r. repeat split. constructor.
  - cbn [fold_left N4.createScan].
    match goal with
    | |- context [fold_left _ matched (?g1, ?r1)] =>
        destruct (IH g1 r1) as (created & Hrec & Hscan & Hlen & Hids & Hall & Hrel
                                & Htests & Hedges)
    end.
    eexists (_ :: created).
    rewrite Hrec, Hscan, Hrel, Htests, Hedges. cbn [N4.Scan N4.HAS_SCAN N4.drawn
      N4.TestResult N4.HAS_TEST] in *.
    rewrite <- !app_assoc. cbn [app].
    split; [reflexivity|]. split; [reflexivity|].
    split; [simpl; now rewrite Hlen|].
    split; [simpl; now rewrite Hids|].
    split; [constructor; [repeat split | exact Hall]|].
    split; [|split; reflexivity].
    rewrite length_app. cbn [List.length combine seq].
    now rewrite Nat.add_1_r.
Qed.

Lemma Neo4j_insertScan_all (randomUuid : nat -> string) (g : N4.Graph)
    (siteId : string) (now : Z) :
  existsb (fun s => String.eqb (N4.Node.site_id s) siteId) (N4.Site g) = true ->
  exists g' row created,
    N4.insertScan randomUuid g siteId now = resolved (g', row)
    /\ N4.Scan g' = N4.Scan g ++ created
    /\ List.length created
       = List.length (filter (fun s => String.eqb (N4.Node.site_id s) siteId) (N4.Site g))
    /\ map N4.Node.id created
       = map randomUuid (seq (N4.drawn g) (List.length created))
    /\ Forall (fun n => N4.Node.siteId n = siteId
                        /\ N4.Node.state n = ScanState.RUNNING
                        /\ N4.Node.startTime n = now) created
    /\ option_map N4.Node.id (hd_error created) = Some (N4.id row)
    /\ N4.HAS_SCAN g'
       = N4.HAS_SCAN g
         ++ combine (N4.matchFrom (fun s => String.eqb (N4.Node.site_id s) siteId) 0
                       (N4.Site g))
                    (seq (List.length (N4.Scan g)) (List.length created))
    /\ N4.Site g' = N4.Site g /\ N4.TestResult g' = N4.TestResult g
    /\ N4.HAS_TEST g' = N4.HAS_TEST g
    /\ (NoDup (map N4.Node.site_id (N4.Site g)) -> List.length created = 1%nat).
Proof.
  intros Hex. unfold N4.insertScan.
  pose proof (createScan_fold_all randomUuid siteId now
                (N4.matchFrom (fun s => String.eqb (N4.Node.site_id s) siteId) 0
                   (N4.Site g)) g [])
    as (created & Hrec & Hscan & Hlen & Hids & Hall & Hrel & Htests & Hedges).
  pose proof (createScan_fold_Site randomUuid siteId now
                (N4.matchFrom (fun s => String.eqb (N4.Node.site_id s) siteId) 0
                   (N4.Site g)) g []) as Hsite.
  destruct (fold_left _ _ _) as [g' records]. cbn [fst snd app] in *. subst records.
  rewrite matchFrom_length in Hlen, Hids, Hrel. rewrite <- Hlen in Hids, Hrel.
  assert (Hpos : (0 < List.length created)%nat).
  { rewrite Hlen. apply existsb_exists in Hex as (s & Hin & Hs).
    assert (In s (filter (fun s => String.eqb (N4.Node.site_id s) siteId) (N4.Site g)))
      as Hf by (apply filter_In; split; assumption).
    destruct (filter _ (N4.Site g)); [contradiction | simpl; lia]. }
  destruct created as [|scan created]; [simpl in Hpos; lia|].
  eexists g', _, (scan :: created). split; [reflexivity|].
  split; [exact Hscan|]. split; [exact Hlen|]. split; [exact Hids|].
  split; [exact Hall|]. split; [reflexivity|]. split; [exact Hrel|].
  split; [exact Hsite|]. split; [exact Htests|]. split; [exact Hedges|].
  intros Hnd. pose proof (filter_key_at_most_one N4.Node.site_id siteId _ Hnd).
  lia.
Qed.

(** What insertScan writes.  The relational adapter adds one row to
    [scans] and touches nothing else.  The graph adapter matches the Sites
    by id and creates a Scan, with its HAS_SCAN relationship, under every
    Site that carries the id: as many RUNNING scans as there are such
    Sites, with consecutive draws of [randomUuid] as ids, of which it
    returns the first; with no two Sites of the same id that is exactly
    one.  Sites, tests and HAS_TEST relationships are untouched. *)
Theorem insertScan_one_scan_per_site :
  (forall db siteId now,
      PG.siteExists db siteId = true ->
      exists db' row,
        PG.insertScan db siteId now = resolved (db', Some row)
        /\ PG.scans db' = PG.scans db ++ [row]
        /\ PG.sites db' = PG.sites db /\ PG.tests db' = PG.tests db)
  /\ (forall randomUuid g siteId now,
      existsb (fun s => String.eqb (N4.Node.site_id s) siteId) (N4.Site g) = true ->
      exists g' row created,
        N4.insertScan randomUuid g siteId now = resolved (g', row)
        /\ N4.Scan g' = N4.Scan g ++ created
        /\ List.length created
           = List.length (filter (fun s => String.eqb (N4.Node.site_id s) siteId)
                            (N4.Site g))
        /\ map N4.Node.id created
           = map randomUuid (seq (N4.drawn g) (List.length created))
        /\ Forall (fun n => N4.Node.siteId n = siteId
                            /\ N4.Node.state n = ScanState.RUNNING
                            /\ N4.Node.startTime n = now) created
        /\ option_map N4.Node.id (hd_error created) = Some (N4.id row)
        /\ N4.HAS_SCAN g'
           = N4.HAS_SCAN g
             ++ combine (N4.matchFrom (fun s => String.eqb (N4.Node.site_id s) siteId) 0
                           (N4.Site g))
                        (seq (List.length (N4.Scan g)) (List.length created))
        /\ N4.Site g' = N4.Site g /\ N4.TestResult g' = N4.TestResult g
        /\ N4.HAS_TEST g' = N4.HAS_TEST g
        /\ (NoDup (map N4.Node.site_id (N4.Site g)) -> List.length created = 1%nat)).
Proof.
  split.
  - intros db siteId now Hsite. unfold PG.insertScan. rewrite Hsite.
    eexists _, _. split; [reflexivity|]. repeat split.
  - exact Neo4j_insertScan_all.
Qed.

Lemma insertScan_one_scan_per_site_witness :
  (exists g' row created,
      N4.insertScan Scenario.uuid (Scenario.Graph.store []) "example_com_1000" 2000
      = resolved (g', row)
      /\ N4.Scan g' = created /\ List.length created = 1%nat)
  /\ (exists g' row created,
      N4.insertScan Scenario.uuid
        {| N4.Site := [Scenario.Graph.site;
                       {| N4.Node.site_id := "example_com_1000";
                          N4.Node.domain := "example-com";
                          N4.Node.creationTime := 1000 |}];
           N4.Scan := []; N4.TestResult := []; N4.HAS_SCAN := [];
           N4.HAS_TEST := []; N4.drawn := 0 |}
        "example_com_1000" 2000
      = resolved (g', row)
      /\ N4.Scan g' = created
      /\ map N4.Node.id created = ["scan-0"; "scan-1"]%string
      /\ N4.id row = "scan-0"%string).
Proof.
  destruct insertScan_one_scan_per_site as [_ Hneo]. split.
  - destruct (Hneo Scenario.uuid (Scenario.Graph.store []) "example_com_1000"%string 2000
                eq_refl)
      as (g' & row & created & Hrun & Hscan & _ & _ & _ & _ & _ & _ & _ & _ & Hone).
    exists g', row, created. split; [exact Hrun|]. split; [exact Hscan|].
    apply Hone. simpl. constructor; [intros [] | constructor].
  - destruct (Hneo Scenario.uuid
                {| N4.Site := [Scenario.Graph.site;
                               {| N4.Node.site_id := "example_com_1000";
                                  N4.Node.domain := "example-com";
                                  N4.Node.creationTime := 1000 |}];
                   N4.Scan := []; N4.TestResult := []; N4.HAS_SCAN := [];
                   N4.HAS_TEST := []; N4.drawn := 0 |}
                "example_com_1000"%string 2000 eq_refl)
      as (g' & row & created & Hrun & Hscan & Hlen & Hids & _ & Hfirst & _).
    exists g', row, created. split; [exact Hrun|]. split; [exact Hscan|].
    simpl in Hlen. rewrite Hlen in Hids. split; [exact Hids|].
    destruct created as [|scan created]; [discriminate Hlen|].
    simpl in Hfirst, Hids. injection Hfirst as <-. now injection Hids.
Defined.

(** ** Site ids of the graph backend *)

(** The id the graph adapter gives a new Site is made from the key with
    every non-alphanumeric character replaced and from the clock reading
    alone.  Two different domains that differ only in such characters,
    both new and ensured at the same clock reading, get two Sites with the
    same id; insertScan with that id then creates a scan under each of
    them. *)
Theorem Neo4j_site_id_shared (randomUuid : nat -> string) (g : N4.Graph)
    (k1 k2 : string) (t c1 c2 now : Z) :
  k1 <> k2 ->
  N4.replaceNonAlphanumeric k1 = N4.replaceNonAlphanumeric k2 ->
  (forall s, In s (N4.Site g) -> N4.Node.domain s <> k1 /\ N4.Node.domain s <> k2) ->
  exists g1 siteId g2 g3 row created,
    N4.ensureSite g k1 t c1 = resolved (g1, siteId)
    /\ N4.ensureSite g1 k2 t c2 = resolved (g2, siteId)
    /\ g2 <> g1
    /\ N4.insertScan randomUuid g2 siteId now = resolved (g3, row)
    /\ N4.Scan g3 = N4.Scan g ++ created
    /\ (2 <= List.length created)%nat.
Proof.
  intros Hne Hsame Hfresh.
  destruct (Neo4j_ensureSite_site g k1 t c1)
    as (g1 & s1 & Hrun1 & _ & _ & _ & Hscan1 & _ & _ & _ & _ & Hnew1 & _).
  destruct Hnew1 as [Hsites1 Hs1].
  { apply existsb_false_In. intros s Hin. apply String.eqb_neq.
    exact (proj1 (Hfresh s Hin)). }
  destruct (Neo4j_ensureSite_site g1 k2 t c2)
    as (g2 & s2 & Hrun2 & _ & _ & _ & Hscan2 & _ & _ & _ & _ & Hnew2 & _).
  destruct Hnew2 as [Hsites2 Hs2].
  { apply existsb_false_In. intros s Hin. apply String.eqb_neq.
    rewrite Hsites1 in Hin. apply in_app_iff in Hin as [Hin | [<- | []]].
    - exact (proj2 (Hfresh s Hin)).
    - rewrite Hs1. exact Hne. }
  assert (Hid : N4.Node.site_id s2 = N4.Node.site_id s1)
    by (rewrite Hs1, Hs2; simpl; now rewrite Hsame).
  rewrite Hid in Hrun2.
  destruct (Neo4j_insertScan_all randomUuid g2 (N4.Node.site_id s1) now)
    as (g3 & row & created & Hrun3 & Hscan3 & Hlen & _).
  { apply existsb_exists. exists s1. split; [|apply String.eqb_refl].
    rewrite Hsites2, Hsites1, !in_app_iff. left. right. now left. }
  exists g1, (N4.Node.site_id s1), g2, g3, row, created.
  split; [exact Hrun1|]. split; [exact Hrun2|]. split.
  { intros Heq. rewrite Heq in Hsites2.
    apply (f_equal (@List.length _)) in Hsites2. rewrite length_app in Hsites2.
    simpl in Hsites2. lia. }
  split; [exact Hrun3|]. split; [now rewrite Hscan3, Hscan2, Hscan1|].
  rewrite Hlen, Hsites2, Hsites1, !filter_app, !length_app. simpl.
  rewrite Hid, String.eqb_refl. simpl. lia.
Qed.

Lemma Neo4j_site_id_shared_witness :
  exists g1 siteId g2 g3 row created,
    N4.ensureSite Neo4j_empty "example.com" 1000 1000 = resolved (g1, siteId)
    /\ N4.ensureSite g1 "example-com" 1000 1001 = resolved (g2, siteId)
    /\ g2 <> g1
    /\ N4.insertScan Scenario.uuid g2 siteId 2000 = resolved (g3, row)
    /\ N4.Scan g3 = N4.Scan Neo4j_empty ++ created
    /\ (2 <= List.length created)%nat.
Proof.
  apply (Neo4j_site_id_shared Scenario.uuid Neo4j_empty "example.com" "example-com"
           1000 1000 1001 2000).
  - discriminate.
  - reflexivity.
  - intros s [].
Defined.

(** ** The host lookup and the site lookup *)

Lemma filter_unique_key {A : Type} (key : A -> Z) (l : list A) (x : A) :
  NoDup (map key l) -> In x l -> filter (fun y => key x =? key y) l = [x].
Proof.
  induction l as [|z l IH]; simpl; [contradiction|].
  intros Hnd Hin. apply NoDup_cons_iff in Hnd as [Hz Hnd].
  destruct Hin as [-> | Hin].
  - rewrite Z.eqb_refl. f_equal. apply filter_nil_iff. intros y Hy.
    apply Z.eqb_neq. intros Heq. apply Hz. rewrite Heq. now apply in_map.
  - destruct (Z.eqb_spec (key x) (key z)) as [Heq | _]; [|now apply IH].
    elim Hz. rewrite <- Heq. now apply in_map.
Qed.

Lemma matchFrom_ext {A : Type} (p q : A -> bool) (k : nat) (l : list A) :
  (forall x, In x l -> p x = q x) -> N4.matchFrom p k l = N4.matchFrom q k l.
Proof.
  revert k. induction l as [|x l IH]; intros k H; simpl; [reflexivity|].
  rewrite (H x (or_introl eq_refl)), IH; [reflexivity|].
  intros y Hy. apply H. now right.
Qed.

Lemma PostgreSQL_host_lookup_is_site_lookup (c1 c2 : Z) (db : PG.Db) (host : string)
    (siteId age now : Z) :
  NoDup (map PG.sites_id (PG.sites db)) ->
  PG.siteExists db siteId = true ->
  (forall s, In s (PG.sites db) -> PG.sites_domain s = host <-> PG.sites_id s = siteId) ->
  PG.selectScanLatestScanByHost c1 db host (Some age) now
  = PG.selectScanRecentScan c2 db siteId (Some age) now.
Proof.
  intros Hnd Hex Hiff.
  apply existsb_exists in Hex as (s0 & Hin0 & Hid0). apply Z.eqb_eq in Hid0.
  unfold PG.selectScanLatestScanByHost, PG.selectScanRecentScan, PG.joinSites.
  do 3 f_equal.
  induction (PG.scans db) as [|r rows IH]; simpl; [reflexivity|].
  rewrite filter_app, map_app, IH. clear IH.
  destruct (Z.eqb_spec (PG.site_id r) siteId) as [Hr | Hr].
  - assert (Hkey : PG.site_id r = PG.sites_id s0) by congruence.
    rewrite (filter_ext (fun s => PG.site_id r =? PG.sites_id s)
                        (fun s => PG.sites_id s0 =? PG.sites_id s)
               (fun s => f_equal (fun v => v =? PG.sites_id s) Hkey)).
    rewrite (filter_unique_key PG.sites_id _ s0 Hnd Hin0). simpl.
    rewrite (proj2 (String.eqb_eq _ _) (proj2 (Hiff s0 Hin0) Hid0)). simpl.
    now destruct (_ && _).
  - simpl.
    assert (filter (fun '(r0, s) => String.eqb (PG.sites_domain s) host
                                    && PG.notOlderThan now age (PG.start_time r0)
                                    && String.eqb (PG.state r0) ScanState.FINISHED)
              (map (fun s => (r, s))
                 (filter (fun s => PG.site_id r =? PG.sites_id s) (PG.sites db)))
            = []) as ->; [|reflexivity].
    apply filter_nil_iff. intros [r0 s] Hin.
    apply in_map_iff in Hin as (s' & [= <- <-] & Hin).
    apply filter_In in Hin as [Hin Hkey]. apply Z.eqb_eq in Hkey.
    assert (String.eqb (PG.sites_domain s') host = false) as ->; [|reflexivity].
    apply String.eqb_neq. intros Hdom. apply Hr.
    rewrite Hkey. exact (proj1 (Hiff s' Hin) Hdom).
Qed.

Lemma Neo4j_host_lookup_is_site_lookup (g : N4.Graph) (host siteId : string)
    (age : option Z) (now : Z) :
  (forall s, In s (N4.Site g) -> N4.Node.domain s = host <-> N4.Node.site_id s = siteId) ->
  N4.selectScanLatestScanByHost g host (Some (orDefault age 60)) now
  = N4.selectScanRecentScan g siteId age now.
Proof.
  intros Hiff. unfold N4.selectScanLatestScanByHost, N4.selectScanRecentScan.
  rewrite (matchFrom_ext (fun s => String.eqb (N4.Node.domain s) host)
                         (fun s => String.eqb (N4.Node.site_id s) siteId)).
  - now destruct age.
  - intros s Hin.
    destruct (String.eqb_spec (N4.Node.domain s) host) as [Hd | Hd],
             (String.eqb_spec (N4.Node.site_id s) siteId) as [Hi | Hi];
      try reflexivity.
    + elim Hi. exact (proj1 (Hiff s Hin) Hd).
    + elim Hd. exact (proj2 (Hiff s Hin) Hi).
Qed.

(** When the Sites of a host are the Sites with the id [siteId] (and, on
    the relational backend, that Site exists and no two Sites share an
    id), the lookup by host and the lookup by site id with the same
    window choose among the same scans: they answer with the same start
    time, both undefined or neither, and with the same scan when the
    FINISHED scans of the site started at pairwise distinct times, so
    that ORDER BY ... LIMIT 1 has one result. *)
Theorem selectScanLatestScanByHost_is_recent_scan_of_site :
  (forall c1 c2 db host siteId age now,
      NoDup (map PG.sites_id (PG.sites db)) ->
      PG.siteExists db siteId = true ->
      (forall s, In s (PG.sites db) ->
                 PG.sites_domain s = host <-> PG.sites_id s = siteId) ->
      option_map PG.start_time (PG.selectScanLatestScanByHost c1 db host (Some age) now)
      = option_map PG.start_time (PG.selectScanRecentScan c2 db siteId (Some age) now)
      /\ (NoDup (map PG.start_time (PostgreSQL_finishedOf db siteId)) ->
          PG.selectScanLatestScanByHost c1 db host (Some age) now
          = PG.selectScanRecentScan c2 db siteId (Some age) now))
  /\ (forall g host siteId age now,
      (forall s, In s (N4.Site g) ->
                 N4.Node.domain s = host <-> N4.Node.site_id s = siteId) ->
      option_map N4.start_time (N4.selectScanLatestScanByHost g host (Some age) now)
      = option_map N4.start_time (N4.selectScanRecentScan g siteId (Some age) now)
      /\ (NoDup (map N4.Node.startTime (Neo4j_finishedOf g siteId)) ->
          N4.selectScanLatestScanByHost g host (Some age) now
          = N4.selectScanRecentScan g siteId (Some age) now)).
Proof.
  split.
  - intros c1 c2 db host siteId age now Hnd Hsite Hiff.
    pose proof (PostgreSQL_host_lookup_is_site_lookup c1 c2 db host siteId age now
                  Hnd Hsite Hiff) as Heq.
    split; [now rewrite Heq | intros _; exact Heq].
  - intros g host siteId age now Hiff.
    assert (Heq : N4.selectScanLatestScanByHost g host (Some age) now
                  = N4.selectScanRecentScan g siteId (Some age) now)
      by exact (Neo4j_host_lookup_is_site_lookup g host siteId (Some age) now Hiff).
    split; [now rewrite Heq | intros _; exact Heq].
Qed.

Lemma selectScanLatestScanByHost_is_recent_scan_of_site_witness :
  PG.selectScanLatestScanByHost 86400
    (Scenario.Relational.store [Scenario.Relational.finished 1 2000 2500 100;
                                Scenario.Relational.finished 2 3000 3500 90])
    "example.com" (Some 10) 5000
  = PG.selectScanRecentScan 60
      (Scenario.Relational.store [Scenario.Relational.finished 1 2000 2500 100;
                                  Scenario.Relational.finished 2 3000 3500 90])
      1 (Some 10) 5000
  /\ N4.selectScanLatestScanByHost
       (Scenario.Graph.store [Scenario.Graph.finished 0 2000 2500 100;
                              Scenario.Graph.finished 1 3000 3500 90])
       "example.com" (Some 10) 5000
     = N4.selectScanRecentScan
         (Scenario.Graph.store [Scenario.Graph.finished 0 2000 2500 100;
                                Scenario.Graph.finished 1 3000 3500 90])
         "example_com_1000" (Some 10) 5000.
Proof.
  destruct selectScanLatestScanByHost_is_recent_scan_of_site as [Hpg Hneo]. split.
  - apply (Hpg 86400 60
             (Scenario.Relational.store [Scenario.Relational.finished 1 2000 2500 100;
                                         Scenario.Relational.finished 2 3000 3500 90])
             "example.com"%string 1 10 5000).
    + simpl. constructor; [intros [] | constructor].
    + reflexivity.
    + intros s [<- | []]. split; reflexivity.
    + repeat constructor; simpl; intuition discriminate.
  - apply (Hneo (Scenario.Graph.store [Scenario.Graph.finished 0 2000 2500 100;
                                       Scenario.Graph.finished 1 3000 3500 90])
             "example.com"%string "example_com_1000"%string 10 5000).
    + intros s [<- | []]. split; reflexivity.
    + repeat constructor; simpl; intuition discriminate.
Defined.
